(** * network_matrix.py: a shallow embedding and its verified properties

    The development follows the layout of [network_matrix.py]:
    Python exceptions and results, the two schedule trackers
    ([EarlyStopping], [LearningRate]), the numpy operations the network
    uses, the cost functions, the update strategies and the [Network]
    class with [backprop], [update_mini_batch], [evaluate] and [SGD].

    Conventions.  A method that mutates its object returns the object
    after the call next to its result.  A computation that can raise
    returns a [result].  Python integers are [Z] (or [nat] where they are
    lengths or loop indices); accuracies are the integer counts returned
    by [evaluate].  Floating-point numbers are the elements of an abstract
    type of scalars.  The cost values [fn], which the training code never
    calls, are not part of the embedding. *)

From Stdlib Require Import ZArith Lia.
From Stdlib Require Floats Uint63.
From stdpp Require Import base tactics option list.

Local Open Scope Z_scope.

(** ** Python exceptions and results *)

Inductive exn : Type :=
  | TypeError
  | ValueError
  | IndexError
  | ZeroDivisionError.

Inductive result (A : Type) : Type :=
  | Ok (a : A)
  | Err (e : exn).
Arguments Ok {A} a.
Arguments Err {A} e.

#[global] Instance result_ret : MRet result := fun A a => Ok a.
#[global] Instance result_bind : MBind result := fun A B f m =>
  match m with
  | Ok a => f a
  | Err e => Err e
  end.

(** ** The schedule trackers *)

Module EarlyStopping.

Record t : Type := mk {
  patience : Z;
  best_accuracy : Z;
  counter : Z;
  accuracies : list Z
}.

(** [EarlyStopping.__init__] *)
Definition init (patience : Z) : t :=
  {| patience := patience; best_accuracy := 0; counter := 0;
     accuracies := [] |}.

(** [EarlyStopping.should_stop]: the returned pair is the boolean the
    method returns and the object after the call. *)
Definition should_stop (self : t) (current_accuracy : Z) : bool * t :=
  let accs := accuracies self ++ [current_accuracy] in
  let self1 :=
    if bool_decide (current_accuracy > best_accuracy self)
    then {| patience := patience self; best_accuracy := current_accuracy;
            counter := 0; accuracies := accs |}
    else {| patience := patience self; best_accuracy := best_accuracy self;
            counter := counter self + 1; accuracies := accs |} in
  if bool_decide (counter self1 >= patience self1)
  then (true, self1)
  else (false, self1).

(** Feeding a sequence of accuracies, one call per element; the answers
    are collected in call order. *)
Fixpoint feed (self : t) (accs : list Z) : list bool * t :=
  match accs with
  | [] => ([], self)
  | a :: accs' =>
      let '(r, self1) := should_stop self a in
      let '(rs, self2) := feed self1 accs' in
      (r :: rs, self2)
  end.

End EarlyStopping.

Module LearningRate.

Record t : Type := mk {
  patience : Z;
  best_accuracy : Z;
  counter : Z;
  num_halves : Z;
  accuracies : list Z
}.

(** [LearningRate.__init__] *)
Definition init (patience : Z) : t :=
  {| patience := patience; best_accuracy := 0; counter := 0;
     num_halves := 0; accuracies := [] |}.

(** [LearningRate.should_halve] *)
Definition should_halve (self : t) (current_accuracy : Z) : bool * t :=
  let accs := accuracies self ++ [current_accuracy] in
  let self1 :=
    if bool_decide (current_accuracy > best_accuracy self)
    then {| patience := patience self; best_accuracy := current_accuracy;
            counter := 0; num_halves := num_halves self;
            accuracies := accs |}
    else {| patience := patience self; best_accuracy := best_accuracy self;
            counter := counter self + 1; num_halves := num_halves self;
            accuracies := accs |} in
  if bool_decide (counter self1 >= patience self1)
  then (true,
        {| patience := patience self1; best_accuracy := best_accuracy self1;
           counter := 0; num_halves := num_halves self1 + 1;
           accuracies := accuracies self1 |})
  else (false, self1).

(** [LearningRate.get_num_halves] *)
Definition get_num_halves (self : t) : Z := num_halves self.

Fixpoint feed (self : t) (accs : list Z) : list bool * t :=
  match accs with
  | [] => ([], self)
  | a :: accs' =>
      let '(r, self1) := should_halve self a in
      let '(rs, self2) := feed self1 accs' in
      (r :: rs, self2)
  end.

End LearningRate.

(** Strictly increasing sequences of accuracies. *)
Fixpoint strictly_increasing (l : list Z) : Prop :=
  match l with
  | [] => True
  | a :: l' =>
      match l' with
      | [] => True
      | b :: _ => a < b /\ strictly_increasing l'
      end
  end.

(** Number of [True] answers in a list of answers. *)
Definition count_true (bs : list bool) : nat :=
  length (filter (fun b => b = true) bs).

(** ** Scalars

    The numeric code computes on floating-point numbers.  The embedding
    is parametric in the scalar type and its operations, so that what is
    proved holds for every interpretation of them. *)

Class Scalar (R : Type) : Type := {
  of_Z : Z -> R;          (* an integer used as a number: [1], [2], [len(..)] *)
  radd : R -> R -> R;
  rsub : R -> R -> R;
  rmul : R -> R -> R;
  rdiv : R -> R -> R;
  rneg : R -> R;
  rexp : R -> R;          (* [np.exp] *)
  rsqrt : R -> R;         (* [np.sqrt] *)
  rsign : R -> R;         (* [np.sign] *)
  rgtb : R -> R -> bool   (* [>] *)
}.

(** Integers as scalars, [Z.div] standing for the division; used to run
    the definitions on concrete inputs. *)
Definition Z_scalar : Scalar Z := {|
  of_Z := fun z => z;
  radd := Z.add; rsub := Z.sub; rmul := Z.mul; rdiv := Z.div;
  rneg := Z.opp; rexp := fun z => z; rsqrt := Z.sqrt; rsign := Z.sgn;
  rgtb := Z.gtb
|}.

(** ** Python lists: indexing with negative indices *)

Section py_list.
Context {A : Type}.

Definition py_index (l : list A) (i : Z) : result nat :=
  let n := Z.of_nat (length l) in
  if decide (0 <= i < n) then Ok (Z.to_nat i)
  else if decide (- n <= i < 0) then Ok (Z.to_nat (n + i))
  else Err IndexError.

(** [l[i]] *)
Definition py_getitem (l : list A) (i : Z) : result A :=
  k ← py_index l i;
  match l !! k with
  | Some x => Ok x
  | None => Err IndexError
  end.

(** [l[i] = x] *)
Definition py_setitem (l : list A) (i : Z) (x : A) : result (list A) :=
  k ← py_index l i;
  Ok (<[k := x]> l).

End py_list.

(** ** The numpy operations used by the network

    A two-dimensional array is the list of its rows; its shape is the
    number of rows and the length of the first row. *)

Section numpy.
Context {R : Type} `{Scalar R}.

Definition ndarray : Type := list (list R).

Definition nrows (A : ndarray) : nat := length A.
Definition ncols (A : ndarray) : nat := length (default [] (head A)).

(** Elementwise application of a function on scalars. *)
Definition np_map (f : R -> R) (A : ndarray) : ndarray := map (map f) A.

(** [np.zeros((r, c))] *)
Definition np_zeros (r c : nat) : ndarray := replicate r (replicate c (of_Z 0)).

(** Broadcasting of one dimension: equal lengths, or one of them 1. *)
Definition bshape (a b : nat) : result nat :=
  if decide (a = b) then Ok a
  else if decide (a = 1%nat) then Ok b
  else if decide (b = 1%nat) then Ok a
  else Err ValueError.

Definition stretch_row (c : nat) (row : list R) : list R :=
  if decide (length row = c) then row
  else replicate c (default (of_Z 0) (head row)).

Definition broadcast_to (r c : nat) (A : ndarray) : ndarray :=
  map (stretch_row c)
      (if decide (length A = r) then A else replicate r (default [] (head A))).

(** An elementwise binary operation on two arrays, with broadcasting;
    incompatible shapes raise [ValueError]. *)
Definition np_binop (f : R -> R -> R) (A B : ndarray) : result ndarray :=
  r ← bshape (nrows A) (nrows B);
  c ← bshape (ncols A) (ncols B);
  Ok (zip_with (zip_with f) (broadcast_to r c A) (broadcast_to r c B)).

Definition np_add : ndarray -> ndarray -> result ndarray := np_binop radd.
Definition np_sub : ndarray -> ndarray -> result ndarray := np_binop rsub.
Definition np_mul : ndarray -> ndarray -> result ndarray := np_binop rmul.

(** [c * A] for a scalar [c] *)
Definition np_scale (c : R) (A : ndarray) : ndarray := np_map (rmul c) A.

(** [A / m] for an integer [m] *)
Definition np_div_int (A : ndarray) (m : Z) : ndarray :=
  np_map (fun x => rdiv x (of_Z m)) A.

(** Sum of the elements of a row, left to right. *)
Definition rsum (l : list R) : R :=
  match l with
  | [] => of_Z 0
  | x :: l' => foldl radd x l'
  end.

(** [A.transpose()] *)
Definition transpose (A : ndarray) : ndarray :=
  map (fun j => map (fun row => default (of_Z 0) (row !! j)) A)
      (seq 0 (ncols A)).

Definition dot_row_col (row col : list R) : R := rsum (zip_with rmul row col).

(** [np.dot(A, B)] *)
Definition np_dot (A B : ndarray) : result ndarray :=
  if decide (ncols A = nrows B)
  then Ok (map (fun row => map (dot_row_col row) (transpose B)) A)
  else Err ValueError.

(** [np.mean(A, axis=1, keepdims=True)] *)
Definition np_mean_axis1 (A : ndarray) : ndarray :=
  map (fun row => [rdiv (rsum row) (of_Z (Z.of_nat (length row)))]) A.

(** [np.sign(A)] *)
Definition np_sign (A : ndarray) : ndarray := np_map rsign A.

(** [np.column_stack(cols)] on two-dimensional arrays *)
Definition np_column_stack (cols : list ndarray) : result ndarray :=
  match cols with
  | [] => Err ValueError
  | c :: cs =>
      if forallb (fun c' => Nat.eqb (nrows c') (nrows c)) cs
      then Ok (foldl (zip_with app) c cs)
      else Err ValueError
  end.

Fixpoint argmax_loop (xs : list R) (i : Z) (best : R) (best_i : Z) : Z :=
  match xs with
  | [] => best_i
  | x :: xs' =>
      if rgtb x best then argmax_loop xs' (i + 1) x i
      else argmax_loop xs' (i + 1) best best_i
  end.

(** [np.argmax(A)]: the index, in the flattened array, of the first
    maximal element. *)
Definition np_argmax (A : ndarray) : result Z :=
  match concat A with
  | [] => Err ValueError
  | x :: xs => Ok (argmax_loop xs 1 x 0)
  end.

(** [x / n] for a Python float [x] and a Python integer [n] *)
Definition py_truediv (x : R) (n : Z) : result R :=
  if decide (n = 0) then Err ZeroDivisionError else Ok (rdiv x (of_Z n)).

(** *** Miscellaneous functions *)

(** [sigmoid]: [1.0 / (1.0 + np.exp(-z))] *)
Definition sigmoid (z : ndarray) : ndarray :=
  np_map (rdiv (of_Z 1)) (np_map (radd (of_Z 1)) (np_map rexp (np_map rneg z))).

(** [sigmoid_prime]: [sigmoid(z) * (1 - sigmoid(z))] *)
Definition sigmoid_prime (z : ndarray) : result ndarray :=
  np_mul (sigmoid z) (np_map (rsub (of_Z 1)) (sigmoid z)).

End numpy.

Arguments ndarray R : clear implicits.

(** ** Cost functions *)

Module QuadraticCost.
Section defs.
Context {R : Type} `{Scalar R}.

(** [QuadraticCost.delta]: [(A - Y) * sigmoid_prime(Z)] *)
Definition delta (Z A Y : ndarray R) : result (ndarray R) :=
  d ← np_sub A Y;
  sp ← sigmoid_prime Z;
  np_mul d sp.
End defs.
End QuadraticCost.

Module CrossEntropyCost.
Section defs.
Context {R : Type} `{Scalar R}.

(** [CrossEntropyCost.delta]: [A - Y] *)
Definition delta (Z A Y : ndarray R) : result (ndarray R) :=
  np_sub A Y.
End defs.
End CrossEntropyCost.

(** The class stored in [Network.cost]. *)
Inductive cost_class : Type := quadratic | cross_entropy.

Definition cost_delta {R : Type} `{Scalar R} (c : cost_class)
    (Z A Y : ndarray R) : result (ndarray R) :=
  match c with
  | quadratic => QuadraticCost.delta Z A Y
  | cross_entropy => CrossEntropyCost.delta Z A Y
  end.

(** ** Update strategies

    An [update_step] returns a Python tuple of per-layer lists; the tuple
    is the list of its components. *)

Module L2_regularization.
Section defs.
Context {R : Type} `{Scalar R}.

Definition update_step (eta lmbda : R) (n : Z)
    (weights biases nabla_w nabla_b velocities : list (ndarray R)) (mu : R)
    : result (list (list (ndarray R))) :=
  weights' ← mapM (fun '(w, nw) =>
                     c ← py_truediv (rmul eta lmbda) n;
                     np_sub (np_scale (rsub (of_Z 1) c) w) (np_scale eta nw))
                  (zip weights nabla_w);
  biases' ← mapM (fun '(b, nb) => np_sub b (np_scale eta nb))
                 (zip biases nabla_b);
  Ok [weights'; biases'; velocities].
End defs.
End L2_regularization.

Module momentum.
Section defs.
Context {R : Type} `{Scalar R}.

Definition update_step (eta lmbda : R) (n : Z)
    (weights biases nabla_w nabla_b velocities : list (ndarray R)) (mu : R)
    : result (list (list (ndarray R))) :=
  velocities' ← mapM (fun '(v, nw) => np_sub (np_scale mu v) (np_scale eta nw))
                     (zip velocities nabla_w);
  weights' ← mapM (fun '(w, v) => np_add w v) (zip weights velocities');
  biases' ← mapM (fun '(b, nb) => np_sub b (np_scale eta nb))
                 (zip biases nabla_b);
  Ok [weights'; biases'; velocities'].
End defs.
End momentum.

Module L1_regularization.
Section defs.
Context {R : Type} `{Scalar R}.

Definition update_step (eta lmbda : R) (n : Z)
    (weights biases nabla_w nabla_b : list (ndarray R))
    : result (list (list (ndarray R))) :=
  weights' ← mapM (fun '(w, nw) =>
                     c ← py_truediv (rmul eta lmbda) n;
                     t ← np_sub w (np_scale c (np_sign w));
                     np_sub t (np_scale eta nw))
                  (zip weights nabla_w);
  biases' ← mapM (fun '(b, nb) => np_sub b (np_scale eta nb))
                 (zip biases nabla_b);
  Ok [weights'; biases'].
End defs.
End L1_regularization.

(** The class stored in [Network.reg]. *)
Inductive reg_class : Type := reg_L2 | reg_momentum | reg_L1.

(** A Python function called with nine positional arguments: [params] is
    the number of parameters of its [def]; the body of a function with
    fewer parameters ignores the arguments it has no parameter for (the
    call never reaches it, see [py_call9]). *)
Record update_fn (R : Type) : Type := {
  params : nat;
  body : R -> R -> Z ->
         list (ndarray R) -> list (ndarray R) -> list (ndarray R) ->
         list (ndarray R) -> list (ndarray R) -> R ->
         result (list (list (ndarray R)))
}.
Arguments params {R} _.
Arguments body {R} _.

(** [cls.update_step], looked up on the class. *)
Definition reg_update_step {R : Type} `{Scalar R} (r : reg_class) : update_fn R :=
  match r with
  | reg_L2 => {| params := 9; body := L2_regularization.update_step |}
  | reg_momentum => {| params := 9; body := momentum.update_step |}
  | reg_L1 =>
      {| params := 7;
         body := fun eta lmbda n weights biases nabla_w nabla_b _ _ =>
                   L1_regularization.update_step eta lmbda n weights biases
                                                 nabla_w nabla_b |}
  end.

(** A call with nine positional arguments raises [TypeError] unless the
    function has nine parameters. *)
Definition py_call9 {R : Type} (f : update_fn R) (eta lmbda : R) (n : Z)
    (weights biases nabla_w nabla_b velocities : list (ndarray R)) (mu : R)
    : result (list (list (ndarray R))) :=
  if decide (params f = 9%nat)
  then body f eta lmbda n weights biases nabla_w nabla_b velocities mu
  else Err TypeError.

(** ** The pseudo-random source and the printed lines *)

Class Random (R G : Type) : Type := {
  randn : nat -> nat -> G -> ndarray R * G;              (* [np.random.randn(r, c)] *)
  shuffle : forall A : Type, list A -> G -> list A * G;  (* [random.shuffle] *)
  shuffle_perm : forall (A : Type) (l : list A) (g : G), (shuffle A l g).1 ≡ₚ l
}.

(** The lines [SGD] prints, with the values they show. *)
Inductive output (R : Type) : Type :=
  | EpochResult (j : nat) (corrects : Z) (n_test : nat)  (* Epoch j : corrects / n_test *)
  | EpochComplete (j : nat)                              (* Epoch j complete *)
  | LearningHalved (eta : R)                             (* learning halved to: eta *)
  | NumHalves (k : Z).                                   (* num halves: k *)
Arguments EpochResult {R} j corrects n_test.
Arguments EpochComplete {R} j.
Arguments LearningHalved {R} eta.
Arguments NumHalves {R} k.

(** ** The network *)

Module Network.
Section defs.
Context {R : Type} `{Scalar R}.

Record t : Type := mk {
  num_layers : nat;
  sizes : list nat;
  biases : list (ndarray R);
  weights : list (ndarray R);
  velocities : list (ndarray R);
  cost : cost_class;
  reg : reg_class;
  learning_rate : LearningRate.t
}.

Definition set_params (self : t) (w b v : list (ndarray R)) : t :=
  {| num_layers := num_layers self; sizes := sizes self;
     biases := b; weights := w; velocities := v;
     cost := cost self; reg := reg self;
     learning_rate := learning_rate self |}.

Definition set_learning_rate (self : t) (lr : LearningRate.t) : t :=
  {| num_layers := num_layers self; sizes := sizes self;
     biases := biases self; weights := weights self;
     velocities := velocities self;
     cost := cost self; reg := reg self;
     learning_rate := lr |}.

(** *** Construction *)

Section init.
Context {G : Type} `{Random R G}.

Fixpoint randn_biases (ys : list nat) (g : G) : list (ndarray R) * G :=
  match ys with
  | [] => ([], g)
  | y :: ys' =>
      let '(b, g1) := randn y 1 g in
      let '(bs, g2) := randn_biases ys' g1 in
      (b :: bs, g2)
  end.

Fixpoint randn_weights (xys : list (nat * nat)) (g : G)
    : list (ndarray R) * G :=
  match xys with
  | [] => ([], g)
  | (x, y) :: xys' =>
      let '(w, g1) := randn y x g in
      let w' := np_map (fun v => rdiv v (rsqrt (of_Z (Z.of_nat x)))) w in
      let '(ws, g2) := randn_weights xys' g1 in
      (w' :: ws, g2)
  end.

(** [Network.__init__], with [default_weight_initializer] inlined:
    [sizes[1:]] is [drop 1 sizes], [sizes[:-1]] is
    [take (length sizes - 1) sizes]. *)
Definition init (sizes : list nat) (cost : cost_class) (reg : reg_class)
    (patience : Z) (g : G) : t * G :=
  let '(bs, g1) := randn_biases (drop 1 sizes) g in
  let '(ws, g2) :=
    randn_weights (zip (take (length sizes - 1) sizes) (drop 1 sizes)) g1 in
  ({| num_layers := length sizes; sizes := sizes;
      biases := bs; weights := ws;
      velocities := map (fun w => np_zeros (nrows w) (ncols w)) ws;
      cost := cost; reg := reg;
      learning_rate := LearningRate.init patience |}, g2).
End init.

(** *** [feedforward] *)

Fixpoint feedforward_loop (bws : list (ndarray R * ndarray R)) (a : ndarray R)
    : result (ndarray R) :=
  match bws with
  | [] => Ok a
  | (b, w) :: bws' =>
      d ← np_dot w a;
      z ← np_add d b;
      feedforward_loop bws' (sigmoid z)
  end.

Definition feedforward (self : t) (a : ndarray R) : result (ndarray R) :=
  feedforward_loop (zip (biases self) (weights self)) a.

(** *** [backprop] *)

(** The feedforward loop of [backprop]; [activations] and [zs] are
    the lists appended to. *)
Fixpoint forward_loop (bws : list (ndarray R * ndarray R))
    (activation : ndarray R) (activations zs : list (ndarray R))
    : result (list (ndarray R) * list (ndarray R)) :=
  match bws with
  | [] => Ok (activations, zs)
  | (b, w) :: bws' =>
      d ← np_dot w activation;
      z ← np_add d b;
      let activation' := sigmoid z in
      forward_loop bws' activation' (activations ++ [activation']) (zs ++ [z])
  end.

(** The backward loop of [backprop], over the values [ls] of [l];
    [m] is [X.shape[1]]. *)
Fixpoint backward_loop (self : t) (zs activations : list (ndarray R)) (m : Z)
    (ls : list nat) (delta : ndarray R) (nabla_b nabla_w : list (ndarray R))
    : result (list (ndarray R) * list (ndarray R)) :=
  match ls with
  | [] => Ok (nabla_b, nabla_w)
  | l :: ls' =>
      let l := Z.of_nat l in
      z ← py_getitem zs (- l);
      sp ← sigmoid_prime z;
      w ← py_getitem (weights self) (- l + 1);
      d ← np_dot (transpose w) delta;
      delta' ← np_mul d sp;
      nabla_b' ← py_setitem nabla_b (- l) (np_mean_axis1 delta');
      a ← py_getitem activations (- l - 1);
      d' ← np_dot delta' (transpose a);
      nabla_w' ← py_setitem nabla_w (- l) (np_div_int d' m);
      backward_loop self zs activations m ls' delta' nabla_b' nabla_w'
  end.

Definition backprop (self : t) (X Y : ndarray R)
    : result (list (ndarray R) * list (ndarray R)) :=
  let nabla_b := map (fun b => np_zeros (nrows b) (ncols b)) (biases self) in
  let nabla_w := map (fun w => np_zeros (nrows w) (ncols w)) (weights self) in
  '(activations, zs) ← forward_loop (zip (biases self) (weights self)) X [X] [];
  z_last ← py_getitem zs (-1);
  a_last ← py_getitem activations (-1);
  delta ← cost_delta (cost self) z_last a_last Y;
  nabla_b ← py_setitem nabla_b (-1) (np_mean_axis1 delta);
  a_prev ← py_getitem activations (-2);
  d ← np_dot delta (transpose a_prev);
  nabla_w ← py_setitem nabla_w (-1) (np_div_int d (Z.of_nat (ncols X)));
  backward_loop self zs activations (Z.of_nat (ncols X))
                (seq 2 (num_layers self - 2)) delta nabla_b nabla_w.

(** *** [update_mini_batch]

    The local list [velocities] of zeros that the method builds first is
    never read: the velocities passed on are [self.velocities]. *)

Definition update_mini_batch (self : t)
    (mini_batch : list (ndarray R * ndarray R)) (eta lmbda : R) (n : Z) (mu : R)
    : result t :=
  let _ := map (fun w => np_zeros (nrows w) (ncols w)) (weights self) in
  X ← np_column_stack (map fst mini_batch);
  Y ← np_column_stack (map snd mini_batch);
  '(nabla_b, nabla_w) ← backprop self X Y;
  tup ← py_call9 (reg_update_step (reg self)) eta lmbda n
                 (weights self) (biases self) nabla_w nabla_b
                 (velocities self) mu;
  match tup with
  | [w; b; v] => Ok (set_params self w b v)
  | _ => Err ValueError
  end.

(** *** [evaluate]

    [test_data] is [None] or a list of pairs of an input and its
    label. *)
Definition evaluate (self : t) (test_data : option (list (ndarray R * Z)))
    : result Z :=
  match test_data with
  | None => Err TypeError
  | Some td =>
      test_results ← mapM (fun '(x, y) =>
                             out ← feedforward self x;
                             i ← np_argmax out;
                             Ok (i, y)) td;
      Ok (foldl Z.add 0
            (map (fun '(x, y) => if decide (x = y) then 1 else 0) test_results))
  end.

End defs.
Arguments t R : clear implicits.
End Network.

(** ** The training loop

    [SGD] mutates the network, prints and draws random numbers: its model
    threads a [world] holding the network object, the lines printed so
    far and the state of the pseudo-random source.  An exception stops
    the computation and leaves the world as it was when it was raised. *)

Section training.
Context {R G : Type} `{Scalar R} `{Random R G}.

Record world : Type := mk_world {
  self : Network.t R;
  stdout : list (output R);
  gen : G
}.

Definition io (A : Type) : Type := world -> result A * world.

Definition io_ret {A : Type} (a : A) : io A := fun w => (Ok a, w).

Definition io_bind {A B : Type} (m : io A) (f : A -> io B) : io B :=
  fun w =>
    match m w with
    | (Ok a, w') => f a w'
    | (Err e, w') => (Err e, w')
    end.

Notation "x <- m ;; k" := (io_bind m (fun x => k))
  (at level 100, m at level 99, right associativity, only parsing).
Notation "m ;;; k" := (io_bind m (fun _ => k))
  (at level 100, right associativity, only parsing).

(** Raise the exception of a failed computation, or return its value. *)
Definition lift {A : Type} (r : result A) : io A := fun w => (r, w).

Definition get_self : io (Network.t R) := fun w => (Ok (self w), w).

Definition put_self (s : Network.t R) : io unit :=
  fun w => (Ok tt, {| self := s; stdout := stdout w; gen := gen w |}).

Definition print (o : output R) : io unit :=
  fun w => (Ok tt, {| self := self w; stdout := stdout w ++ [o]; gen := gen w |}).

Definition random_shuffle {A : Type} (l : list A) : io (list A) :=
  fun w =>
    let '(l', g') := shuffle A l (gen w) in
    (Ok l', {| self := self w; stdout := stdout w; gen := g' |}).

(** [range(0, n, step)] *)
Definition py_range_step (n : nat) (step : Z) : result (list nat) :=
  if decide (step = 0) then Err ValueError
  else if decide (step < 0) then Ok []
  else
    let s := Z.to_nat step in
    Ok (map (fun i => (i * s)%nat) (seq 0 ((n + s - 1) / s))).

(** [[training_data[k : k + mini_batch_size] for k in range(0, n, mini_batch_size)]] *)
Definition mini_batches_of {A : Type} (training_data : list A)
    (mini_batch_size : Z) : result (list (list A)) :=
  ks ← py_range_step (length training_data) mini_batch_size;
  Ok (map (fun k => take (Z.to_nat mini_batch_size) (drop k training_data)) ks).

(** [self.update_mini_batch(mini_batch, eta, lmbda, n, mu)] as a
    statement: the network object is replaced when the call returns. *)
Definition do_update_mini_batch (mini_batch : list (ndarray R * ndarray R))
    (eta lmbda : R) (n : Z) (mu : R) : io unit :=
  s <- get_self ;;
  s' <- lift (Network.update_mini_batch s mini_batch eta lmbda n mu) ;;
  put_self s'.

Fixpoint for_mini_batches (mini_batches : list (list (ndarray R * ndarray R)))
    (eta lmbda : R) (n : Z) (mu : R) : io unit :=
  match mini_batches with
  | [] => io_ret tt
  | mini_batch :: rest =>
      do_update_mini_batch mini_batch eta lmbda n mu ;;;
      for_mini_batches rest eta lmbda n mu
  end.

(** [self.learning_rate.should_halve(corrects)] *)
Definition do_should_halve (corrects : Z) : io bool :=
  s <- get_self ;;
  let '(r, lr) := LearningRate.should_halve (Network.learning_rate s) corrects in
  put_self (Network.set_learning_rate s lr) ;;;
  io_ret r.

(** Truth value of [test_data] in [if test_data:] *)
Definition truthy {A : Type} (test_data : option (list A)) : bool :=
  match test_data with
  | Some (_ :: _) => true
  | _ => false
  end.

(** The body of the epoch loop of [SGD]; it returns the shuffled
    training data, the learning rate and whether the loop [break]s. *)
Definition epoch (j : nat) (training_data : list (ndarray R * ndarray R))
    (mini_batch_size : Z) (eta lmbda : R) (n : Z) (mu : R)
    (test_data : option (list (ndarray R * Z)))
    : io (list (ndarray R * ndarray R) * R * bool) :=
  training_data <- random_shuffle training_data ;;
  mini_batches <- lift (mini_batches_of training_data mini_batch_size) ;;
  for_mini_batches mini_batches eta lmbda n mu ;;;
  s <- get_self ;;
  corrects <- lift (Network.evaluate s test_data) ;;
  (if truthy test_data
   then print (EpochResult j corrects (length (default [] test_data)))
   else print (EpochComplete j)) ;;;
  halve <- do_should_halve corrects ;;
  eta <- (if halve
          then let eta := rdiv eta (of_Z 2) in
               print (LearningHalved eta) ;;; io_ret eta
          else io_ret eta) ;;
  s <- get_self ;;
  let num_halves := LearningRate.get_num_halves (Network.learning_rate s) in
  print (NumHalves num_halves) ;;;
  io_ret (training_data, eta, bool_decide (num_halves >= 7)).

(** The epoch loop, over the values [js] of [j]. *)
Fixpoint epochs_loop (js : list nat) (training_data : list (ndarray R * ndarray R))
    (mini_batch_size : Z) (eta lmbda : R) (n : Z) (mu : R)
    (test_data : option (list (ndarray R * Z))) : io unit :=
  match js with
  | [] => io_ret tt
  | j :: js' =>
      r <- epoch j training_data mini_batch_size eta lmbda n mu test_data ;;
      let '(training_data, eta, stop) := r in
      if stop then io_ret tt
      else epochs_loop js' training_data mini_batch_size eta lmbda n mu test_data
  end.

(** [Network.SGD] *)
Definition SGD (training_data : list (ndarray R * ndarray R)) (epochs : nat)
    (mini_batch_size : Z) (eta lmbda mu : R)
    (test_data : option (list (ndarray R * Z))) : io unit :=
  let n := Z.of_nat (length training_data) in
  epochs_loop (seq 0 epochs) training_data mini_batch_size eta lmbda n mu test_data.

End training.

Arguments world R G : clear implicits.

(** ** Shapes

    [has_shape r c A]: the array [A] has [r] rows, all of length [c]. *)

Definition has_shape {R : Type} (r c : nat) (A : ndarray R) : Prop :=
  length A = r /\ Forall (fun row => length row = c) A.

Definition same_shape {R : Type} (A B : ndarray R) : Prop :=
  exists r c, has_shape r c A /\ has_shape r c B.

(** The elementwise combination of two arrays of one shape. *)
Definition elementwise {R : Type} (f : R -> R -> R) (A B : ndarray R) : ndarray R :=
  zip_with (zip_with f) A B.

(** ** Observations on the printed lines *)

(** The learning rates of the [LearningHalved] lines, in print order. *)
Fixpoint halved_etas {R : Type} (out : list (output R)) : list R :=
  match out with
  | [] => []
  | LearningHalved eta :: out' => eta :: halved_etas out'
  | _ :: out' => halved_etas out'
  end.

(** [eta] after [k] halvings. *)
Fixpoint halvings {R : Type} `{Scalar R} (k : nat) (eta : R) : R :=
  match k with
  | O => eta
  | S k' => rdiv (halvings k' eta) (of_Z 2)
  end.

(** ** Concrete inputs

    A pseudo-random source that draws zeros and leaves lists in place,
    and small networks over integer scalars. *)

Definition still_random : Random Z unit := {|
  randn := fun r c g => (replicate r (replicate c 0), g);
  shuffle := fun A l g => (l, g);
  shuffle_perm := fun A l g => reflexivity l
|}.

Definition example_net (reg : reg_class) (patience : Z) : Network.t Z :=
  {| Network.num_layers := 3; Network.sizes := [2; 2; 1]%nat;
     Network.biases := [[[1]; [2]]; [[3]]];
     Network.weights := [[[1; 2]; [3; 4]]; [[5; 6]]];
     Network.velocities := [[[0; 0]; [0; 0]]; [[0; 0]]];
     Network.cost := cross_entropy; Network.reg := reg;
     Network.learning_rate := LearningRate.init patience |}.

Definition example_batch : list (ndarray Z * ndarray Z) :=
  [ ([[1]; [4]], [[1]]); ([[2]; [5]], [[0]]) ].

Definition example_world (reg : reg_class) (patience : Z) : world Z unit :=
  {| self := example_net reg patience; stdout := []; gen := tt |}.


(** ** The network invariant and the equations of backpropagation

    These predicates follow the words of the specification; the theorems
    compare [Network.backprop] with them. *)

Section backprop_spec.
Context {R : Type} `{Scalar R}.

(** [len(weights) == len(biases) == len(sizes) - 1], at least two layers
    of positive width, [biases[l]] of shape [(sizes[l+1], 1)] and
    [weights[l]] of shape [(sizes[l+1], sizes[l])]. *)
Definition well_formed (self : Network.t R) : Prop :=
  Network.num_layers self = length (Network.sizes self) /\
  (2 <= length (Network.sizes self))%nat /\
  S (length (Network.weights self)) = length (Network.sizes self) /\
  S (length (Network.biases self)) = length (Network.sizes self) /\
  (forall l x, Network.sizes self !! l = Some x -> (0 < x)%nat) /\
  (forall l x y,
     Network.sizes self !! l = Some x -> Network.sizes self !! S l = Some y ->
     exists b w,
       Network.biases self !! l = Some b /\ Network.weights self !! l = Some w /\
       has_shape y 1 b /\ has_shape y x w).

(** The forward pass: [zs[l] = W[l] . activations[l] + b[l]] and
    [activations[l+1] = sigmoid(zs[l])], from [activations[0] = X]. *)
Definition forward_pass (self : Network.t R) (X : ndarray R)
    (zs activations : list (ndarray R)) : Prop :=
  length zs = length (Network.weights self) /\
  length activations = S (length (Network.weights self)) /\
  activations !! 0%nat = Some X /\
  (forall l b w a,
     Network.biases self !! l = Some b -> Network.weights self !! l = Some w ->
     activations !! l = Some a ->
     exists d z,
       np_dot w a = Ok d /\ np_add d b = Ok z /\
       zs !! l = Some z /\ activations !! S l = Some (sigmoid z)).

(** The error signals: at the output layer the [delta] of the cost, and
    below it [deltas[l] = (W[l+1]^T . deltas[l+1]) * sigmoid_prime(zs[l])]. *)
Definition error_signals (self : Network.t R) (Y : ndarray R)
    (zs activations deltas : list (ndarray R)) : Prop :=
  let L := length (Network.weights self) in
  length deltas = L /\
  (exists z a delta,
     zs !! (L - 1)%nat = Some z /\ activations !! L = Some a /\
     cost_delta (Network.cost self) z a Y = Ok delta /\
     deltas !! (L - 1)%nat = Some delta) /\
  (forall l z w delta',
     zs !! l = Some z -> Network.weights self !! S l = Some w ->
     deltas !! S l = Some delta' ->
     exists sp d delta,
       sigmoid_prime z = Ok sp /\ np_dot (transpose w) delta' = Ok d /\
       np_mul d sp = Ok delta /\ deltas !! l = Some delta).

(** The batch-mean gradients of one layer, from its error signal [delta]
    and the activations [a_prev] that enter it, for a batch of [m]
    samples: the mean over the [m] columns of [delta], and
    [delta . a_prev^T / m]. *)
Definition bias_gradient (m : nat) (delta : ndarray R) : ndarray R :=
  map (fun row => [rdiv (rsum row) (of_Z (Z.of_nat m))]) delta.

Definition weight_gradient (m : nat) (delta a_prev : ndarray R)
    : result (ndarray R) :=
  d ← np_dot delta (transpose a_prev);
  Ok (np_map (fun x => rdiv x (of_Z (Z.of_nat m))) d).

(** [sizes[l]] *)
Definition layer_width (self : Network.t R) (l : nat) : nat :=
  default 0%nat (Network.sizes self !! l).

(** What holds of the lists [activations] and [zs] of [backprop] after
    [k] layers, on a batch [X] of [m] samples. *)
Definition fwd_inv (self : Network.t R) (X : ndarray R) (m k : nat)
    (acts zs : list (ndarray R)) : Prop :=
  length zs = k /\ length acts = S k /\ acts !! 0%nat = Some X /\
  (forall l a, acts !! l = Some a -> has_shape (layer_width self l) m a) /\
  (forall l z, zs !! l = Some z -> has_shape (layer_width self (S l)) m z) /\
  (forall l b w a,
     (l < k)%nat ->
     Network.biases self !! l = Some b -> Network.weights self !! l = Some w ->
     acts !! l = Some a ->
     exists d z,
       np_dot w a = Ok d /\ np_add d b = Ok z /\
       zs !! l = Some z /\ acts !! S l = Some (sigmoid z)).

End backprop_spec.

(** ** Elementwise views

    The scalar functions that [sigmoid] and [sigmoid_prime] apply to every
    element. *)

Definition sigmoid_scalar {R : Type} `{Scalar R} (x : R) : R :=
  rdiv (of_Z 1) (radd (of_Z 1) (rexp (rneg x))).

Definition sigmoid_prime_scalar {R : Type} `{Scalar R} (x : R) : R :=
  rmul (sigmoid_scalar x) (rsub (of_Z 1) (sigmoid_scalar x)).

(** ** What a training run relies on

    A training sample is a column of [sizes[0]] inputs with a column of
    [sizes[-1]] labels, a test sample such a column of inputs with a class
    index.  A network is trainable when it is well formed, its velocities
    have the shapes of its weights and its update strategy is one that
    [update_mini_batch] can call. *)

Definition well_shaped_sample {R : Type} (self : Network.t R)
    (xy : ndarray R * ndarray R) : Prop :=
  has_shape (layer_width self 0) 1 xy.1 /\
  has_shape (layer_width self (length (Network.weights self))) 1 xy.2.

Definition well_shaped_test {R : Type} (self : Network.t R)
    (xy : ndarray R * Z) : Prop :=
  has_shape (layer_width self 0) 1 xy.1.

Definition trainable {R : Type} (self : Network.t R) : Prop :=
  well_formed self /\
  Forall2 same_shape (Network.velocities self) (Network.weights self) /\
  Network.reg self <> reg_L1.

(** What a training run leaves alone in a network: its sizes, its number
    of layers, its cost and its update strategy. *)
Definition same_frame {R : Type} (s' s : Network.t R) : Prop :=
  Network.sizes s' = Network.sizes s /\
  length (Network.weights s') = length (Network.weights s) /\
  Network.num_layers s' = Network.num_layers s /\
  Network.cost s' = Network.cost s /\
  Network.reg s' = Network.reg s.

(** ** Binary64 scalars

    The floating-point numbers the code runs on, as Rocq's primitive
    floats.  [float_of_Z] is exact on the integers of absolute value below
    [2^53]; the exponential, which the primitive floats lack, is a
    parameter. *)





(** ** The schedule of a training run, after the specification

    [train_epoch] is the training part of an epoch of [SGD]: shuffle the
    training data, cut it into mini-batches and update on each in order.
    [sgd_schedule] then says, in the words of the specification, what a
    run over the epochs [js] does from the training data [td], the
    learning rate [eta] and the world [w], and which accuracies [accs] it
    feeds to the tracker: after the training part of each epoch the
    network it leaves is evaluated, the accuracy is fed to the tracker of
    that network, the learning rate is divided by 2 exactly when the
    tracker signals a halve, and the run ends as soon as the tracker has
    counted 7 halvings, whatever epochs remain; an exception of the
    training part or of the evaluation ends the run before the tracker is
    fed. *)

Section schedule_spec.
Context {R G : Type} `{Scalar R} `{Random R G}.

Definition train_epoch (training_data : list (ndarray R * ndarray R))
    (mini_batch_size : Z) (eta lmbda : R) (n : Z) (mu : R)
    : io (list (ndarray R * ndarray R)) :=
  io_bind (random_shuffle training_data) (fun training_data' =>
  io_bind (lift (mini_batches_of training_data' mini_batch_size)) (fun mini_batches =>
  io_bind (for_mini_batches mini_batches eta lmbda n mu) (fun _ =>
  io_ret training_data'))).

(** The line printed at the end of epoch [j]. *)
Definition epoch_line (test_data : option (list (ndarray R * Z))) (j : nat)
    (corrects : Z) : output R :=
  if truthy test_data
  then EpochResult j corrects (length (default [] test_data))
  else EpochComplete j.

(** The learning rate after the tracker has answered [halve]. *)
Definition next_eta (halve : bool) (eta : R) : R :=
  if halve then rdiv eta (of_Z 2) else eta.

(** The world at the end of epoch [j]: [w2] is the world the training
    part left, [corrects] the accuracy of its network, [halve] and [lr']
    the answer and the new state of the tracker. *)
Definition after_epoch (test_data : option (list (ndarray R * Z))) (j : nat)
    (eta : R) (w2 : world R G) (corrects : Z) (halve : bool)
    (lr' : LearningRate.t) : world R G :=
  {| self := Network.set_learning_rate (self w2) lr';
     stdout := stdout w2
               ++ epoch_line test_data j corrects
                  :: (if halve then [LearningHalved (next_eta halve eta)] else [])
               ++ [NumHalves (LearningRate.num_halves lr')];
     gen := gen w2 |}.

Inductive sgd_schedule (mini_batch_size : Z) (lmbda : R) (n : Z) (mu : R)
    (test_data : option (list (ndarray R * Z)))
    : list nat -> list (ndarray R * ndarray R) -> R -> world R G ->
      list Z -> result unit * world R G -> Prop :=
  | schedule_no_epoch_left td eta w :
      sgd_schedule mini_batch_size lmbda n mu test_data [] td eta w
                   [] (Ok tt, w)
  | schedule_training_raises j js td eta w e w2 :
      train_epoch td mini_batch_size eta lmbda n mu w = (Err e, w2) ->
      sgd_schedule mini_batch_size lmbda n mu test_data (j :: js) td eta w
                   [] (Err e, w2)
  | schedule_evaluate_raises j js td eta w td' w2 e :
      train_epoch td mini_batch_size eta lmbda n mu w = (Ok td', w2) ->
      Network.evaluate (self w2) test_data = Err e ->
      sgd_schedule mini_batch_size lmbda n mu test_data (j :: js) td eta w
                   [] (Err e, w2)
  | schedule_bound_reached j js td eta w td' w2 corrects halve lr' :
      train_epoch td mini_batch_size eta lmbda n mu w = (Ok td', w2) ->
      Network.evaluate (self w2) test_data = Ok corrects ->
      LearningRate.should_halve (Network.learning_rate (self w2)) corrects
      = (halve, lr') ->
      LearningRate.num_halves lr' >= 7 ->
      sgd_schedule mini_batch_size lmbda n mu test_data (j :: js) td eta w
                   [corrects]
                   (Ok tt, after_epoch test_data j eta w2 corrects halve lr')
  | schedule_next_epoch j js td eta w td' w2 corrects halve lr' accs out :
      train_epoch td mini_batch_size eta lmbda n mu w = (Ok td', w2) ->
      Network.evaluate (self w2) test_data = Ok corrects ->
      LearningRate.should_halve (Network.learning_rate (self w2)) corrects
      = (halve, lr') ->
      LearningRate.num_halves lr' < 7 ->
      sgd_schedule mini_batch_size lmbda n mu test_data js td'
                   (next_eta halve eta)
                   (after_epoch test_data j eta w2 corrects halve lr')
                   accs out ->
      sgd_schedule mini_batch_size lmbda n mu test_data (j :: js) td eta w
                   (corrects :: accs) out.

End schedule_spec.

(* ================================================================== *)
(** * Theorems *)
(* ================================================================== *)

(** ** The schedule trackers *)

Section learning_rate_facts.
Import LearningRate.

Lemma should_halve_improve (s : t) (a : Z) :
  a > best_accuracy s -> 0 < patience s ->
  should_halve s a =
    (false, {| patience := patience s; best_accuracy := a; counter := 0;
               num_halves := num_halves s;
               accuracies := accuracies s ++ [a] |}).
Proof.
  intros Ha Hp. unfold should_halve.
  rewrite (bool_decide_eq_true_2 _ Ha). simpl.
  case_bool_decide; [lia|]. reflexivity.
Qed.

Lemma should_halve_plateau (s : t) (a : Z) :
  a <= best_accuracy s ->
  should_halve s a =
    if bool_decide (counter s + 1 >= patience s)
    then (true, {| patience := patience s; best_accuracy := best_accuracy s;
                   counter := 0; num_halves := num_halves s + 1;
                   accuracies := accuracies s ++ [a] |})
    else (false, {| patience := patience s; best_accuracy := best_accuracy s;
                    counter := counter s + 1; num_halves := num_halves s;
                    accuracies := accuracies s ++ [a] |}).
Proof.
  intros Ha. unfold should_halve. cbv zeta.
  rewrite (bool_decide_eq_false_2 (a > best_accuracy s)) by lia. simpl.
  destruct (bool_decide (counter s + 1 >= patience s)); reflexivity.
Qed.

(** A call that answers [True] leaves the counter at 0 and has counted
    one more halving. *)
Lemma should_halve_true (s : t) (a : Z) :
  (should_halve s a).1 = true ->
  counter (should_halve s a).2 = 0 /\
  num_halves (should_halve s a).2 = num_halves s + 1.
Proof.
  unfold should_halve.
  destruct (bool_decide (a > best_accuracy s)); simpl;
    match goal with |- context [bool_decide ?P] => destruct (bool_decide P) end;
    simpl; intros; try discriminate; auto.
Qed.

Lemma should_halve_patience (s : t) (a : Z) :
  patience (should_halve s a).2 = patience s.
Proof.
  unfold should_halve.
  destruct (bool_decide (a > best_accuracy s)); simpl;
    match goal with |- context [bool_decide ?P] => destruct (bool_decide P) end;
    reflexivity.
Qed.

(** With a positive patience the counter stays in [0, patience) after
    every call. *)
Lemma should_halve_counter_range (s : t) (a : Z) :
  0 < patience s -> 0 <= counter s ->
  0 <= counter (should_halve s a).2 < patience s.
Proof.
  intros Hp Hc. unfold should_halve.
  destruct (bool_decide (a > best_accuracy s)); simpl;
    match goal with |- context [bool_decide ?P] => case_bool_decide end;
    simpl in *; lia.
Qed.

Lemma feed_cons (s : t) (a : Z) (accs : list Z) :
  feed s (a :: accs) =
    ((should_halve s a).1 :: (feed (should_halve s a).2 accs).1,
     (feed (should_halve s a).2 accs).2).
Proof.
  simpl. destruct (should_halve s a) as [r s1]. simpl.
  destruct (feed s1 accs) as [rs s2]. reflexivity.
Qed.

Lemma feed_app (s : t) (l1 l2 : list Z) :
  feed s (l1 ++ l2) =
    ((feed s l1).1 ++ (feed (feed s l1).2 l2).1, (feed (feed s l1).2 l2).2).
Proof.
  revert s. induction l1 as [|a l1 IH]; intros s.
  - simpl. destruct (feed s l2); reflexivity.
  - rewrite <- app_comm_cons, !feed_cons, IH. reflexivity.
Qed.

Lemma feed_length (s : t) (accs : list Z) :
  length (feed s accs).1 = length accs.
Proof.
  revert s. induction accs as [|a accs IH]; intros s; [reflexivity|].
  rewrite feed_cons. simpl. rewrite IH. reflexivity.
Qed.

Lemma feed_patience (s : t) (accs : list Z) :
  patience (feed s accs).2 = patience s.
Proof.
  revert s. induction accs as [|a accs IH]; intros s; [reflexivity|].
  rewrite feed_cons. simpl. rewrite IH. apply should_halve_patience.
Qed.

(** The state of a tracker built by the constructor and driven only by
    [should_halve] keeps [0 <= counter < patience]. *)
Lemma feed_counter_range (p : Z) (pre : list Z) :
  0 < p ->
  0 <= counter (feed (init p) pre).2 < p.
Proof.
  intros Hp.
  assert (G : forall s, patience s = p -> 0 <= counter s < p ->
              0 <= counter (feed s pre).2 < p).
  { induction pre as [|a pre IH]; intros s Hs Hc; [exact Hc|].
    rewrite feed_cons. simpl. apply IH.
    - rewrite should_halve_patience. exact Hs.
    - rewrite <- Hs. apply should_halve_counter_range; lia. }
  apply G; simpl; [reflexivity | lia].
Qed.

(** A strictly increasing run above the current best never halves. *)
Lemma feed_increasing (accs : list Z) : forall s : t,
  0 < patience s ->
  strictly_increasing accs ->
  (forall a, head accs = Some a -> a > best_accuracy s) ->
  (feed s accs).1 = replicate (length accs) false /\
  num_halves (feed s accs).2 = num_halves s.
Proof.
  induction accs as [|a accs IH]; intros s Hp Hinc Hhd; [split; reflexivity|].
  rewrite feed_cons.
  assert (Ha : a > best_accuracy s) by (apply Hhd; reflexivity).
  rewrite (should_halve_improve s a Ha Hp). simpl.
  destruct (IH {| patience := patience s; best_accuracy := a; counter := 0;
                  num_halves := num_halves s;
                  accuracies := accuracies s ++ [a] |}) as [E1 E2].
  - exact Hp.
  - simpl in Hinc. destruct accs; [exact I | apply Hinc].
  - simpl. intros b Hb. simpl in Hinc. destruct accs as [|b' accs]; [discriminate|].
    simpl in Hb. injection Hb as ->. lia.
  - rewrite E1, E2. split; reflexivity.
Qed.

(** Below the patience: [k] non-improving accuracies only count up. *)
Lemma feed_plateau_below (accs : list Z) : forall s : t,
  Forall (fun a => a <= best_accuracy s) accs ->
  counter s + Z.of_nat (length accs) < patience s ->
  (feed s accs).1 = replicate (length accs) false /\
  (feed s accs).2 =
    {| patience := patience s; best_accuracy := best_accuracy s;
       counter := counter s + Z.of_nat (length accs);
       num_halves := num_halves s;
       accuracies := accuracies s ++ accs |}.
Proof.
  induction accs as [|a accs IH]; intros s Hall Hlt.
  - simpl. split; [reflexivity|]. destruct s; simpl.
    rewrite Z.add_0_r, app_nil_r. reflexivity.
  - apply Forall_cons_1 in Hall as [Ha Hall].
    rewrite feed_cons, (should_halve_plateau s a Ha).
    simpl length in Hlt.
    case_bool_decide; [lia|]. simpl.
    destruct (IH {| patience := patience s; best_accuracy := best_accuracy s;
                    counter := counter s + 1; num_halves := num_halves s;
                    accuracies := accuracies s ++ [a] |}) as [E1 E2].
    + exact Hall.
    + simpl. lia.
    + rewrite E1, E2. simpl. split; [reflexivity|].
      f_equal; [lia | rewrite <- app_assoc; reflexivity].
Qed.

(** Reaching the patience: the last of the non-improving accuracies
    halves, once. *)
Lemma feed_plateau_reach (accs : list Z) (a : Z) (s : t) :
  Forall (fun a => a <= best_accuracy s) (accs ++ [a]) ->
  counter s + Z.of_nat (length accs) + 1 = patience s ->
  (feed s (accs ++ [a])).1 = replicate (length accs) false ++ [true] /\
  (feed s (accs ++ [a])).2 =
    {| patience := patience s; best_accuracy := best_accuracy s;
       counter := 0; num_halves := num_halves s + 1;
       accuracies := accuracies s ++ accs ++ [a] |}.
Proof.
  intros Hall Heq. apply Forall_app in Hall as [Hall Ha].
  apply Forall_inv in Ha.
  rewrite feed_app.
  destruct (feed_plateau_below accs s Hall) as [E1 E2]; [lia|].
  rewrite E1, E2. simpl.
  rewrite should_halve_plateau by exact Ha. simpl.
  case_bool_decide; [|lia]. simpl.
  split; [reflexivity|]. f_equal. rewrite <- app_assoc. reflexivity.
Qed.

Lemma count_true_app (l1 l2 : list bool) :
  count_true (l1 ++ l2) = (count_true l1 + count_true l2)%nat.
Proof. unfold count_true. rewrite filter_app, length_app. reflexivity. Qed.

Lemma count_true_replicate_false (n : nat) :
  count_true (replicate n false) = 0%nat.
Proof. induction n as [|n IH]; [reflexivity|]. exact IH. Qed.

(** [patience] non-improving accuracies, from any counter in range. *)
Lemma feed_plateau_patience (accs : list Z) (s : t) :
  0 <= counter s < patience s ->
  Z.of_nat (length accs) = patience s ->
  Forall (fun a => a <= best_accuracy s) accs ->
  count_true (feed s accs).1 = 1%nat /\
  num_halves (feed s accs).2 = num_halves s + 1 /\
  counter (feed s accs).2 = counter s.
Proof.
  intros Hc Hlen Hall.
  set (k := Z.to_nat (patience s - counter s)).
  assert (Hk : (0 < k <= length accs)%nat) by lia.
  rewrite <- (take_drop k accs) in Hall |- *.
  apply Forall_app in Hall as [Hall1 Hall2].
  destruct (take k accs) as [|x pre _] eqn:Etake using rev_ind.
  { apply (f_equal length) in Etake. rewrite length_take in Etake.
    simpl in Etake. lia. }
  assert (Hpre : length pre = (k - 1)%nat).
  { apply (f_equal length) in Etake.
    rewrite length_take, length_app in Etake. simpl in Etake. lia. }
  rewrite feed_app.
  destruct (feed_plateau_reach pre x s Hall1) as [E1 E2]; [lia|].
  rewrite E1, E2.
  match goal with |- context [feed ?s1 (drop k accs)] =>
    destruct (feed_plateau_below (drop k accs) s1) as [F1 F2] end.
  { exact Hall2. }
  { simpl. rewrite length_drop. lia. }
  rewrite F1, F2. simpl.
  rewrite !count_true_app, !count_true_replicate_false.
  rewrite length_drop. split; [reflexivity|]. split; lia.
Qed.

End learning_rate_facts.

(** Claim C2, as stated, at a fresh tracker: the strictly increasing
    sequence 0, 1 fed to [LearningRate(1)] halves on its first element,
    because 0 does not strictly exceed the initial [best_accuracy] 0. *)
Lemma C2_increasing_from_zero_halves :
  ~ (forall (p : Z) (accs : list Z),
       0 < p -> strictly_increasing accs ->
       (LearningRate.feed (LearningRate.init p) accs).1
       = replicate (length accs) false).
Proof.
  intros H. specialize (H 1 [0; 1]).
  assert (E : (LearningRate.feed (LearningRate.init 1) [0; 1]).1 = [true; false])
    by reflexivity.
  rewrite E in H. simpl in H.
  assert (C : [true; false] = [false; false]) by (apply H; [lia | split; [lia | exact I]]).
  discriminate C.
Qed.

(** Claim C2 (amended): for a tracker built with a positive patience and
    driven by [should_halve] only, (1) an accuracy strictly above
    [best_accuracy] becomes the new best, resets the counter and answers
    [False], (2) any other accuracy increments the counter, and the call
    answers [True] exactly when the counter reaches the patience, in which
    case the counter is reset to 0 and [num_halves] grows by one, (3) a
    strictly increasing sequence whose first element strictly exceeds the
    current [best_accuracy] never answers [True], and (4) [patience]
    consecutive non-improving accuracies answer [True] exactly once, count
    one halving, and every [True] answer leaves the counter at 0. *)
Theorem learning_rate_schedule (p : Z) (pre : list Z) :
  0 < p ->
  let s := (LearningRate.feed (LearningRate.init p) pre).2 in
  (forall a, a > LearningRate.best_accuracy s ->
     LearningRate.should_halve s a =
       (false, {| LearningRate.patience := p;
                  LearningRate.best_accuracy := a;
                  LearningRate.counter := 0;
                  LearningRate.num_halves := LearningRate.num_halves s;
                  LearningRate.accuracies := LearningRate.accuracies s ++ [a] |})) /\
  (forall a, a <= LearningRate.best_accuracy s ->
     LearningRate.should_halve s a =
       if bool_decide (LearningRate.counter s + 1 >= p)
       then (true, {| LearningRate.patience := p;
                      LearningRate.best_accuracy := LearningRate.best_accuracy s;
                      LearningRate.counter := 0;
                      LearningRate.num_halves := LearningRate.num_halves s + 1;
                      LearningRate.accuracies := LearningRate.accuracies s ++ [a] |})
       else (false, {| LearningRate.patience := p;
                       LearningRate.best_accuracy := LearningRate.best_accuracy s;
                       LearningRate.counter := LearningRate.counter s + 1;
                       LearningRate.num_halves := LearningRate.num_halves s;
                       LearningRate.accuracies := LearningRate.accuracies s ++ [a] |})) /\
  (forall accs, strictly_increasing accs ->
     (forall a, head accs = Some a -> a > LearningRate.best_accuracy s) ->
     (LearningRate.feed s accs).1 = replicate (length accs) false /\
     LearningRate.num_halves (LearningRate.feed s accs).2
     = LearningRate.num_halves s) /\
  (forall accs, Z.of_nat (length accs) = p ->
     Forall (fun a => a <= LearningRate.best_accuracy s) accs ->
     count_true (LearningRate.feed s accs).1 = 1%nat /\
     LearningRate.num_halves (LearningRate.feed s accs).2
     = LearningRate.num_halves s + 1 /\
     LearningRate.counter (LearningRate.feed s accs).2 = LearningRate.counter s) /\
  (forall a, (LearningRate.should_halve s a).1 = true ->
     LearningRate.counter (LearningRate.should_halve s a).2 = 0 /\
     LearningRate.num_halves (LearningRate.should_halve s a).2
     = LearningRate.num_halves s + 1).
Proof.
  intros Hp s.
  assert (Hs : LearningRate.patience s = p).
  { unfold s. rewrite feed_patience. reflexivity. }
  assert (Hc : 0 <= LearningRate.counter s < p).
  { unfold s. apply feed_counter_range. exact Hp. }
  repeat split.
  - intros a Ha. rewrite <- Hs. apply should_halve_improve; lia.
  - intros a Ha. rewrite <- Hs. apply should_halve_plateau. exact Ha.
  - apply feed_increasing; [lia | assumption | assumption].
  - apply feed_increasing; [lia | assumption | assumption].
  - apply feed_plateau_patience; [lia | lia | assumption].
  - apply feed_plateau_patience; [lia | lia | assumption].
  - apply feed_plateau_patience; [lia | lia | assumption].
  - apply should_halve_true. assumption.
  - apply should_halve_true. assumption.
Qed.

Lemma learning_rate_schedule_witness :
  0 < 2 /\
  count_true
    (LearningRate.feed (LearningRate.feed (LearningRate.init 2) [3]).2 [1; 3]).1
  = 1%nat.
Proof.
  split; [lia|].
  apply (learning_rate_schedule 2 [3]); [lia | reflexivity |].
  repeat constructor; vm_compute; discriminate.
Defined.

Section patience_zero.

Lemma learning_rate_patience_zero_gen (accs : list Z) :
  forall s : LearningRate.t,
    LearningRate.patience s = 0 -> 0 <= LearningRate.counter s ->
    (LearningRate.feed s accs).1 = replicate (length accs) true /\
    LearningRate.num_halves (LearningRate.feed s accs).2
    = LearningRate.num_halves s + Z.of_nat (length accs).
Proof.
  induction accs as [|a accs IH]; intros s Hp Hc.
  - simpl. split; [reflexivity | lia].
  - rewrite feed_cons.
    assert (E : LearningRate.should_halve s a =
                (true, {| LearningRate.patience := 0;
                   LearningRate.best_accuracy :=
                     if bool_decide (a > LearningRate.best_accuracy s)
                     then a else LearningRate.best_accuracy s;
                   LearningRate.counter := 0;
                   LearningRate.num_halves := LearningRate.num_halves s + 1;
                   LearningRate.accuracies := LearningRate.accuracies s ++ [a] |})).
    { unfold LearningRate.should_halve. cbv zeta. rewrite Hp.
      destruct (bool_decide (a > LearningRate.best_accuracy s)); simpl;
        try case_bool_decide; try lia; reflexivity. }
    rewrite E. simpl.
    match goal with |- context [LearningRate.feed ?s1 accs] =>
      destruct (IH s1) as [E1 E2]; [reflexivity | simpl; lia |] end.
    rewrite E1, E2. simpl. split; [reflexivity | lia].
Qed.

Lemma early_stopping_patience_zero_gen (accs : list Z) :
  forall s : EarlyStopping.t,
    EarlyStopping.patience s = 0 -> 0 <= EarlyStopping.counter s ->
    (EarlyStopping.feed s accs).1 = replicate (length accs) true.
Proof.
  induction accs as [|a accs IH]; intros s Hp Hc; [reflexivity|].
  simpl.
  destruct (EarlyStopping.should_stop s a) as [r s1] eqn:E.
  assert (G : r = true /\ EarlyStopping.patience s1 = 0
              /\ 0 <= EarlyStopping.counter s1).
  { unfold EarlyStopping.should_stop in E. cbv zeta in E. rewrite Hp in E.
    destruct (bool_decide (a > EarlyStopping.best_accuracy s)); simpl in E;
      try case_bool_decide; try lia; injection E as <- <-; simpl; repeat split; lia. }
  destruct G as (-> & Hp1 & Hc1).
  specialize (IH s1 Hp1 Hc1).
  destruct (EarlyStopping.feed s1 accs) as [rs s2]. simpl in *.
  rewrite IH. reflexivity.
Qed.

End patience_zero.

(** Claim C10: a [LearningRate] or [EarlyStopping] tracker constructed with
    patience 0 answers [True] at every call, whatever accuracies it is fed
    (improving ones included), and [should_halve] counts one more halving
    at every call. *)
Theorem patience_zero_always_signals (accs : list Z) :
  (LearningRate.feed (LearningRate.init 0) accs).1 = replicate (length accs) true /\
  LearningRate.num_halves (LearningRate.feed (LearningRate.init 0) accs).2
  = Z.of_nat (length accs) /\
  (EarlyStopping.feed (EarlyStopping.init 0) accs).1 = replicate (length accs) true.
Proof.
  destruct (learning_rate_patience_zero_gen accs (LearningRate.init 0))
    as [E1 E2]; [reflexivity | simpl; lia |].
  split; [exact E1|]. split; [rewrite E2; simpl; lia|].
  apply early_stopping_patience_zero_gen; [reflexivity | simpl; lia].
Qed.

(** ** Results and lists *)

Section result_facts.
Context {A B C : Type}.

Lemma mapM_zip_Ok (f : A * B -> result C) (g : A -> B -> C)
    (l1 : list A) (l2 : list B) (P : A -> B -> Prop) :
  (forall a b, P a b -> f (a, b) = Ok (g a b)) ->
  Forall2 P l1 l2 ->
  mapM f (zip l1 l2) = Ok (zip_with g l1 l2).
Proof.
  intros Hf Hall. induction Hall as [|a b l1 l2 Hab _ IH]; [reflexivity|].
  simpl. rewrite (Hf a b Hab). simpl. rewrite IH. reflexivity.
Qed.

End result_facts.

(** ** Shapes of the numpy operations *)

Section numpy_facts.
Context {R : Type} `{Scalar R}.
Implicit Types A B : ndarray R.

Lemma has_shape_nrows r c A : has_shape r c A -> nrows A = r.
Proof. intros [Hr _]. exact Hr. Qed.

Lemma has_shape_ncols r c A : has_shape r c A -> (0 < r)%nat -> ncols A = c.
Proof.
  intros [Hr Hc] Hpos. unfold ncols.
  destruct A as [|row A]; [simpl in Hr; lia|].
  simpl. apply Forall_inv in Hc. exact Hc.
Qed.

Lemma has_shape_nil_inv c A : has_shape 0 c A -> A = [].
Proof. intros [Hr _]. destruct A; [reflexivity | discriminate]. Qed.

Lemma has_shape_np_map r c (f : R -> R) A :
  has_shape r c A -> has_shape r c (np_map f A).
Proof.
  intros [Hr Hc]. split.
  - unfold np_map. rewrite length_map. exact Hr.
  - unfold np_map. apply Forall_map. eapply Forall_impl; [exact Hc|].
    intros row Hrow. simpl. rewrite length_map. exact Hrow.
Qed.

Lemma bshape_same (a : nat) : bshape a a = Ok a.
Proof. unfold bshape. rewrite decide_True by reflexivity. reflexivity. Qed.

Lemma stretch_rows_id c (A : ndarray R) :
  Forall (fun row => length row = c) A -> map (stretch_row c) A = A.
Proof.
  intros Hc. induction Hc as [|row A Hrow _ IH]; [reflexivity|].
  simpl. rewrite IH. unfold stretch_row.
  rewrite decide_True by exact Hrow. reflexivity.
Qed.

Lemma broadcast_to_id r c A : has_shape r c A -> broadcast_to r c A = A.
Proof.
  intros [Hr Hc]. unfold broadcast_to.
  rewrite decide_True by exact Hr. apply stretch_rows_id. exact Hc.
Qed.

(** No broadcasting happens between two arrays of one shape. *)
Lemma np_binop_same_shape (f : R -> R -> R) A B :
  same_shape A B -> np_binop f A B = Ok (elementwise f A B).
Proof.
  intros (r & c & HA & HB). unfold np_binop.
  rewrite (has_shape_nrows _ _ _ HA), (has_shape_nrows _ _ _ HB), bshape_same.
  simpl. destruct r as [|r].
  - rewrite (has_shape_nil_inv _ _ HA), (has_shape_nil_inv _ _ HB). reflexivity.
  - rewrite (has_shape_ncols _ _ _ HA), (has_shape_ncols _ _ _ HB) by lia.
    rewrite bshape_same. simpl.
    rewrite (broadcast_to_id _ _ _ HA), (broadcast_to_id _ _ _ HB). reflexivity.
Qed.

Lemma elementwise_np_map (f : R -> R -> R) (g h : R -> R) A B :
  elementwise f (np_map g A) (np_map h B)
  = elementwise (fun x y => f (g x) (h y)) A B.
Proof.
  unfold elementwise, np_map.
  rewrite zip_with_fmap_l, zip_with_fmap_r.
  apply zip_with_ext; [|reflexivity..].
  intros row1 row2. rewrite zip_with_fmap_l, zip_with_fmap_r. reflexivity.
Qed.

Lemma has_shape_elementwise r c (f : R -> R -> R) A B :
  has_shape r c A -> has_shape r c B -> has_shape r c (elementwise f A B).
Proof.
  intros [HrA HcA] [HrB HcB]. unfold elementwise. split.
  - rewrite length_zip_with. lia.
  - revert r B HrA HrB HcB.
    induction HcA as [|row A Hrow _ IH]; intros r B HrA HrB HcB.
    + constructor.
    + destruct HcB as [|row' B Hrow' HcB]; [constructor|].
      simpl. constructor.
      * rewrite length_zip_with. lia.
      * eapply (IH (length A)); [reflexivity | | exact HcB].
        simpl in HrA, HrB. lia.
Qed.

Lemma same_shape_np_map (f g : R -> R) A B :
  same_shape A B -> same_shape (np_map f A) (np_map g B).
Proof.
  intros (r & c & HA & HB). exists r, c.
  split; apply has_shape_np_map; assumption.
Qed.

Lemma same_shape_sym A B : same_shape A B -> same_shape B A.
Proof. intros (r & c & HA & HB). exists r, c. split; assumption. Qed.

End numpy_facts.

(** ** Cost functions *)

(** Claim C8: the cross-entropy [delta] is [A - Y], whatever the
    pre-activation argument is: two calls that differ only in it agree,
    and on a prediction and a target of one shape the result is the
    elementwise difference. *)
Theorem cross_entropy_delta_ignores_z {R : Type} `{Scalar R}
    (Z Z' A Y : ndarray R) :
  CrossEntropyCost.delta Z A Y = CrossEntropyCost.delta Z' A Y /\
  CrossEntropyCost.delta Z A Y = np_sub A Y /\
  (same_shape A Y ->
   CrossEntropyCost.delta Z A Y = Ok (elementwise rsub A Y)).
Proof.
  split; [reflexivity|]. split; [reflexivity|].
  intros Hs. unfold CrossEntropyCost.delta, np_sub.
  apply np_binop_same_shape. exact Hs.
Qed.

Lemma cross_entropy_delta_ignores_z_witness :
  @CrossEntropyCost.delta Z Z_scalar [[7]; [8]] [[5; 1]; [2; 2]] [[1; 0]; [0; 1]]
  = Ok [[4; 1]; [2; 1]].
Proof.
  apply (@cross_entropy_delta_ignores_z Z Z_scalar
           [[7]; [8]] [[0]; [0]] [[5; 1]; [2; 2]] [[1; 0]; [0; 1]]).
  exists 2%nat, 2%nat. split; (split; [reflexivity | repeat constructor]).
Defined.

(** ** Update strategies *)

Section update_facts.
Context {R : Type} `{Scalar R}.
Implicit Types A B : ndarray R.

Lemma bias_step (eta : R) (biases nabla_b : list (ndarray R)) :
  Forall2 same_shape biases nabla_b ->
  mapM (fun '(b, nb) => np_sub b (np_scale eta nb)) (zip biases nabla_b)
  = Ok (zip_with (elementwise (fun x g => rsub x (rmul eta g))) biases nabla_b).
Proof.
  apply mapM_zip_Ok. intros b nb Hs.
  unfold np_sub. rewrite np_binop_same_shape.
  - unfold np_scale.
    rewrite <- (elementwise_np_map rsub (fun x => x) (rmul eta)).
    unfold np_map at 2. rewrite (map_ext _ id), map_id by apply map_id.
    reflexivity.
  - destruct Hs as (r & c & Hb & Hnb). exists r, c.
    split; [exact Hb | apply has_shape_np_map; exact Hnb].
Qed.

Lemma Forall2_same_shape_zip_with (f : R -> R -> R)
    (ws vs nws : list (ndarray R)) :
  Forall2 same_shape ws nws -> Forall2 same_shape vs nws ->
  Forall2 same_shape ws (zip_with (elementwise f) vs nws).
Proof.
  intros Hw. revert vs. induction Hw as [|w nw ws nws Hs _ IH]; intros vs Hv.
  - inversion Hv; subst. constructor.
  - inversion Hv as [|v nw' vs' nws' Hs' Hv']; subst. simpl. constructor.
    + destruct Hs as (r & c & Hw1 & Hnw1).
      destruct Hs' as (r' & c' & Hv1 & Hnw1').
      assert (r' = r) by (destruct Hnw1, Hnw1'; congruence). subst r'.
      destruct r as [|r].
      * rewrite (has_shape_nil_inv _ _ Hv1), (has_shape_nil_inv _ _ Hw1).
        exists 0%nat, 0%nat. split; (split; [reflexivity | constructor]).
      * assert (c' = c).
        { rewrite <- (has_shape_ncols _ _ _ Hnw1) by lia.
          rewrite <- (has_shape_ncols _ _ _ Hnw1') by lia. reflexivity. }
        subst c'. exists (S r), c.
        split; [exact Hw1 | apply has_shape_elementwise; assumption].
    + apply IH. exact Hv'.
Qed.

(** A nested [zip_with] collapses when the middle list plays no role. *)
Lemma zip_with_collapse {X Y Z' W V : Type} (f : X -> W -> V) (k : Y -> Z' -> W)
    (h : X -> Z' -> V) (l1 : list X) (l2 : list Y) (l3 : list Z') :
  Forall2 (fun y z => forall x, f x (k y z) = h x z) l2 l3 ->
  zip_with f l1 (zip_with k l2 l3) = zip_with h l1 l3.
Proof.
  intros Hall. revert l1.
  induction Hall as [|y z l2 l3 Hyz _ IH]; intros l1.
  - destruct l1; reflexivity.
  - destruct l1 as [|x l1]; [reflexivity|].
    simpl. rewrite Hyz, IH. reflexivity.
Qed.

Lemma same_shape_rows A B :
  same_shape A B -> Forall2 (fun a b => length a = length b) A B.
Proof.
  intros (r & c & [HrA HcA] & [HrB HcB]).
  assert (Hlen : length A = length B) by congruence. clear HrA HrB.
  revert B Hlen HcB. induction HcA as [|a A Ha _ IH]; intros B Hlen HcB.
  - destruct B; [constructor | discriminate].
  - destruct HcB as [|b B Hb HcB]; [discriminate|].
    constructor; [congruence | apply IH; [simpl in Hlen; lia | exact HcB]].
Qed.

Lemma elementwise_collapse (f k h : R -> R -> R) (w v nw : ndarray R) :
  (forall x y z, f x (k y z) = h x z) ->
  same_shape v nw ->
  elementwise f w (elementwise k v nw) = elementwise h w nw.
Proof.
  intros Hf Hs. unfold elementwise. apply zip_with_collapse.
  eapply Forall2_impl; [apply same_shape_rows; exact Hs|].
  intros a b Hab x. simpl in Hab. apply zip_with_collapse.
  apply Forall2_true; [|exact Hab]. intros y z x'. apply Hf.
Qed.

End update_facts.

(** Claim C6: on a non-empty training set and gradients of the shapes of
    the parameters, the L2-regularized update returns, at every layer, the
    weights [(1 - eta*lmbda/n)*w - eta*nabla_w] and the biases
    [b - eta*nabla_b], and returns the velocities it was given. *)
Theorem L2_update_step_formula {R : Type} `{Scalar R}
    (eta lmbda : R) (n : Z)
    (weights biases nabla_w nabla_b velocities : list (ndarray R)) (mu : R) :
  n <> 0 ->
  Forall2 same_shape weights nabla_w ->
  Forall2 same_shape biases nabla_b ->
  L2_regularization.update_step eta lmbda n weights biases nabla_w nabla_b
                                velocities mu
  = Ok [ zip_with
           (elementwise (fun w g =>
              rsub (rmul (rsub (of_Z 1) (rdiv (rmul eta lmbda) (of_Z n))) w)
                   (rmul eta g)))
           weights nabla_w;
         zip_with (elementwise (fun b g => rsub b (rmul eta g))) biases nabla_b;
         velocities ].
Proof.
  intros Hn Hw Hb. unfold L2_regularization.update_step.
  assert (E : mapM (fun '(w, nw) =>
                      c ← py_truediv (rmul eta lmbda) n;
                      np_sub (np_scale (rsub (of_Z 1) c) w) (np_scale eta nw))
                   (zip weights nabla_w)
              = Ok (zip_with
                      (elementwise (fun w g =>
                         rsub (rmul (rsub (of_Z 1) (rdiv (rmul eta lmbda) (of_Z n))) w)
                              (rmul eta g)))
                      weights nabla_w)).
  { apply (mapM_zip_Ok _ _ _ _ same_shape); [|exact Hw].
    intros w nw Hs. unfold py_truediv.
    rewrite decide_False by exact Hn. simpl.
    unfold np_sub. rewrite np_binop_same_shape.
    - unfold np_scale. rewrite elementwise_np_map. reflexivity.
    - apply same_shape_np_map. exact Hs. }
  rewrite E. simpl. rewrite (bias_step eta biases nabla_b Hb). reflexivity.
Qed.

Lemma L2_update_step_formula_witness :
  @L2_regularization.update_step Z Z_scalar 2 3 6
     [[[10; 20]]] [[[1]]] [[[1; 2]]] [[[5]]] [[[7; 7]]] 9
  = Ok [ [[[-2; -4]]]; [[[-9]]]; [[[7; 7]]] ].
Proof.
  apply (@L2_update_step_formula Z Z_scalar 2 3 6
           [[[10; 20]]] [[[1]]] [[[1; 2]]] [[[5]]] [[[7; 7]]] 9).
  - lia.
  - repeat constructor. exists 1%nat, 2%nat.
    split; (split; [reflexivity | repeat constructor]).
  - repeat constructor. exists 1%nat, 1%nat.
    split; (split; [reflexivity | repeat constructor]).
Defined.

Section momentum_mu_zero.
Context {R : Type} `{Scalar R}.




End momentum_mu_zero.




(** ** [update_mini_batch] and the update strategies *)

(** Claim C3 fails on [L1_regularization]: its [update_step] has seven
    parameters and returns a pair, while [update_mini_batch] passes nine
    arguments and unpacks a triple.  With [L1_regularization] configured,
    [update_mini_batch] never succeeds, and raises [TypeError] as soon as
    the gradients of the batch have been computed. *)
Theorem update_mini_batch_L1_raises {R : Type} `{Scalar R}
    (self : Network.t R) (mini_batch : list (ndarray R * ndarray R))
    (eta lmbda : R) (n : Z) (mu : R) :
  Network.reg self = reg_L1 ->
  (exists e, Network.update_mini_batch self mini_batch eta lmbda n mu = Err e) /\
  (forall X Y g,
     np_column_stack (map fst mini_batch) = Ok X ->
     np_column_stack (map snd mini_batch) = Ok Y ->
     Network.backprop self X Y = Ok g ->
     Network.update_mini_batch self mini_batch eta lmbda n mu = Err TypeError).
Proof.
  intros Hreg. unfold Network.update_mini_batch. rewrite Hreg. split.
  - destruct (np_column_stack (map fst mini_batch)) as [X|e]; [|eauto]. simpl.
    destruct (np_column_stack (map snd mini_batch)) as [Y|e]; [|eauto]. simpl.
    destruct (Network.backprop self X Y) as [[nb nw]|e]; [|eauto]. simpl.
    eauto.
  - intros X Y [nb nw] EX EY Eg.
    rewrite EX. simpl. rewrite EY. simpl. rewrite Eg. reflexivity.
Qed.

Lemma update_mini_batch_L1_raises_witness :
  @Network.update_mini_batch Z Z_scalar (example_net reg_L1 10) example_batch 1 0 2 0
  = Err TypeError.
Proof.
  refine (proj2 (@update_mini_batch_L1_raises Z Z_scalar (example_net reg_L1 10)
                   example_batch 1 0 2 0 eq_refl) _ _ _ eq_refl eq_refl _).
  vm_compute. reflexivity.
Defined.

(** ** [evaluate] *)

(** Claim C4 holds for an empty test set and fails for an absent one:
    [evaluate] returns 0 on the empty list, raises [TypeError] on [None],
    and [SGD] called without test data evaluates [None] at the end of its
    first epoch, so that a run of at least one epoch never completes; on an
    empty training set it raises exactly that [TypeError]. *)
Theorem evaluate_empty_and_absent {R G : Type} `{Scalar R} `{Random R G}
    (s : Network.t R) (training_data : list (ndarray R * ndarray R))
    (epochs : nat) (mini_batch_size : Z) (eta lmbda mu : R) (w : world R G) :
  Network.evaluate s (Some []) = Ok 0 /\
  Network.evaluate s None = Err TypeError /\
  (SGD training_data (S epochs) mini_batch_size eta lmbda mu None w).1 <> Ok tt /\
  (mini_batch_size <> 0 ->
   (SGD [] (S epochs) mini_batch_size eta lmbda mu None w).1 = Err TypeError).
Proof.
  split; [reflexivity|]. split; [reflexivity|]. split.
  - unfold SGD. simpl seq. cbn [epochs_loop]. unfold io_bind at 1.
    assert (E : forall td n, exists e w', 
              epoch 0 td mini_batch_size eta lmbda n mu None w = (Err e, w')).
    { intros td n. unfold epoch, io_bind, random_shuffle, lift, get_self.
      destruct (shuffle _ td (gen w)) as [td' g'].
      destruct (mini_batches_of td' mini_batch_size) as [mbs|e]; [|eauto].
      match goal with |- context [for_mini_batches ?a1 ?a2 ?a3 ?a4 ?a5 ?a6] =>
        destruct (for_mini_batches a1 a2 a3 a4 a5 a6) as [[[]|e] w1] end; eauto. }
    destruct (E training_data (Z.of_nat (length training_data))) as (e & w' & ->).
    simpl. discriminate.
  - intros Hm. unfold SGD. simpl seq. cbn [epochs_loop]. unfold io_bind at 1.
    unfold epoch, io_bind, random_shuffle, lift, get_self.
    pose proof (shuffle_perm _ (@nil (ndarray R * ndarray R)) (gen w)) as Hp.
    destruct (shuffle _ [] (gen w)) as [td' g'] eqn:Es. simpl in Hp.
    apply Permutation_nil_r in Hp. subst td'.
    unfold mini_batches_of, py_range_step. simpl length.
    rewrite decide_False by exact Hm.
    destruct (decide (mini_batch_size < 0)); [reflexivity|].
    rewrite Nat.div_small by lia. reflexivity.
Qed.

Lemma evaluate_empty_and_absent_witness :
  (@SGD Z unit Z_scalar still_random [] 1 1 8 0 0 None (example_world reg_L2 1)).1
  = Err TypeError.
Proof.
  refine (proj2 (proj2 (proj2
            (@evaluate_empty_and_absent Z unit Z_scalar still_random
               (example_net reg_L2 1) [] 0 1 8 0 0 (example_world reg_L2 1)))) _).
  lia.
Defined.

(** ** The training loop *)

(** Claim C9 fails on the code: the tracker is created by
    [Network.__init__] and [SGD] never resets it.  A network built with
    patience 1 and trained for up to ten epochs against an empty test set
    stops with seven halvings recorded; a second call to [SGD] on the same
    network starts from that tracker, halves once more and stops after its
    first epoch. *)
Theorem SGD_second_run_starts_from_stale_tracker :
  let net0 := (@Network.init Z Z_scalar unit still_random
                 [2; 2; 1]%nat cross_entropy reg_L2 1 tt).1 in
  let w0 := {| self := net0; stdout := []; gen := tt |} in
  let run := @SGD Z unit Z_scalar still_random [] 10 1 256 0 0 (Some []) in
  Network.learning_rate (self w0) = LearningRate.init 1 /\
  (run w0).1 = Ok tt /\
  Network.learning_rate (self (run w0).2)
  = {| LearningRate.patience := 1; LearningRate.best_accuracy := 0;
       LearningRate.counter := 0; LearningRate.num_halves := 7;
       LearningRate.accuracies := [0; 0; 0; 0; 0; 0; 0] |} /\
  (run (run w0).2).1 = Ok tt /\
  stdout (run (run w0).2).2
  = stdout (run w0).2 ++ [EpochComplete 0; LearningHalved 128; NumHalves 8].
Proof. vm_compute. repeat split; reflexivity. Qed.

Section training_facts.
Context {R G : Type} `{Scalar R} `{Random R G}.

Lemma update_mini_batch_learning_rate (s s' : Network.t R)
    (mini_batch : list (ndarray R * ndarray R)) (eta lmbda : R) (n : Z) (mu : R) :
  Network.update_mini_batch s mini_batch eta lmbda n mu = Ok s' ->
  Network.learning_rate s' = Network.learning_rate s.
Proof.
  unfold Network.update_mini_batch.
  destruct (np_column_stack (map fst mini_batch)) as [X|e]; [|discriminate]. simpl.
  destruct (np_column_stack (map snd mini_batch)) as [Y|e]; [|discriminate]. simpl.
  destruct (Network.backprop s X Y) as [[nb nw]|e]; [|discriminate]. simpl.
  destruct (py_call9 _ _ _ _ _ _ _ _ _ _) as [tup|e]; [|discriminate]. simpl.
  destruct tup as [|w [|b [|v [|? ?]]]]; try discriminate.
  intros [= <-]. reflexivity.
Qed.

(** The mini-batch updates leave the tracker, the printed lines and the
    pseudo-random source alone, also when one of them raises. *)
Lemma for_mini_batches_frame (mini_batches : list (list (ndarray R * ndarray R)))
    (eta lmbda : R) (n : Z) (mu : R) : forall w : world R G,
  let w' := (for_mini_batches mini_batches eta lmbda n mu w).2 in
  Network.learning_rate (self w') = Network.learning_rate (self w) /\
  stdout w' = stdout w /\ gen w' = gen w.
Proof.
  induction mini_batches as [|mb rest IH]; intros w; [repeat split|].
  cbn [for_mini_batches]. unfold io_bind at 1.
  unfold do_update_mini_batch, io_bind, get_self, lift, put_self.
  destruct (Network.update_mini_batch (self w) mb eta lmbda n mu) as [s'|e] eqn:E.
  - specialize (IH {| self := s'; stdout := stdout w; gen := gen w |}).
    simpl in IH. destruct IH as (E1 & E2 & E3).
    rewrite E1, E2, E3. simpl.
    split; [|split; reflexivity].
    eapply update_mini_batch_learning_rate. exact E.
  - simpl. repeat split.
Qed.

Lemma halved_etas_app (l1 l2 : list (output R)) :
  halved_etas (l1 ++ l2) = halved_etas l1 ++ halved_etas l2.
Proof.
  induction l1 as [|o l1 IH]; [reflexivity|].
  destruct o; simpl; rewrite IH; reflexivity.
Qed.

Lemma halvings_shift (k : nat) (eta : R) :
  halvings k (rdiv eta (of_Z 2)) = halvings (S k) eta.
Proof.
  induction k as [|k IH]; [reflexivity|].
  simpl. simpl in IH. rewrite IH. reflexivity.
Qed.

(** One pass through the body of the epoch loop. *)
Lemma epoch_spec (j : nat) (td : list (ndarray R * ndarray R)) (mbs : Z)
    (eta lmbda : R) (n : Z) (mu : R) (test : option (list (ndarray R * Z)))
    (w : world R G) :
  let lr := Network.learning_rate (self w) in
  match epoch j td mbs eta lmbda n mu test w with
  | (Ok (td', eta', stop), w1) =>
      exists (w_mid : world R G) (corrects : Z),
        Network.evaluate (self w_mid) test = Ok corrects /\
        Network.learning_rate (self w_mid) = lr /\
        Network.learning_rate (self w1)
        = (LearningRate.should_halve lr corrects).2 /\
        eta' = (if (LearningRate.should_halve lr corrects).1
                then rdiv eta (of_Z 2) else eta) /\
        stop = bool_decide
                 (LearningRate.num_halves (Network.learning_rate (self w1)) >= 7) /\
        exists new, stdout w1 = stdout w ++ new /\
                    halved_etas new
                    = (if (LearningRate.should_halve lr corrects).1
                       then [rdiv eta (of_Z 2)] else [])
  | (Err _, w1) =>
      Network.learning_rate (self w1) = lr /\ stdout w1 = stdout w
  end.
Proof.
  intros lr. unfold epoch. unfold io_bind at 1. unfold random_shuffle.
  destruct (shuffle _ td (gen w)) as [td1 g1].
  unfold io_bind at 1. unfold lift at 1.
  destruct (mini_batches_of td1 mbs) as [batches|e]; [|split; reflexivity].
  unfold io_bind at 1.
  pose proof (for_mini_batches_frame batches eta lmbda n mu
                {| self := self w; stdout := stdout w; gen := g1 |}) as Hf.
  destruct (for_mini_batches batches eta lmbda n mu _) as [[[]|e] w2].
  2:{ simpl in Hf. destruct Hf as (E1 & E2 & _). split; assumption. }
  simpl in Hf. destruct Hf as (E1 & E2 & _).
  unfold io_bind at 1. unfold get_self at 1.
  unfold io_bind at 1. unfold lift at 1.
  destruct (Network.evaluate (self w2) test) as [corrects|e] eqn:Ev;
    [|split; assumption].
  fold lr in E1.
  cbv beta iota delta [io_bind print do_should_halve get_self put_self io_ret].
  destruct (truthy test); simpl; rewrite E1;
    destruct (LearningRate.should_halve lr corrects) as [h lr'] eqn:Eh;
    simpl; destruct h; simpl;
    exists w2, corrects; rewrite Eh, E2; simpl;
    (split; [exact Ev|]); (split; [exact E1|]);
    repeat (split; [reflexivity|]); eexists; split;
    try (rewrite <- !app_assoc; reflexivity); reflexivity.
Qed.

End training_facts.

Lemma count_true_cons (b : bool) (l : list bool) :
  count_true (b :: l) = ((if b then 1 else 0) + count_true l)%nat.
Proof.
  unfold count_true. rewrite filter_cons.
  destruct b; simpl; [reflexivity|].
  destruct (decide (false = true)); [discriminate | reflexivity].
Qed.

Section SGD_facts.
Context {R G : Type} `{Scalar R} `{Random R G}.
Variables (mbs : Z) (lmbda : R) (n : Z) (mu : R).
Variable test : option (list (ndarray R * Z)).

(** The epoch loop as a whole: [accs] are the accuracies of the epochs
    that reached the tracker. *)
Lemma epochs_loop_spec (js : list nat) :
  forall (td : list (ndarray R * ndarray R)) (eta : R) (w : world R G),
    let lr := Network.learning_rate (self w) in
    let out := epochs_loop js td mbs eta lmbda n mu test w in
    exists accs : list Z,
      Network.learning_rate (self out.2) = (LearningRate.feed lr accs).2 /\
      (length accs <= length js)%nat /\
      (forall k, (0 < k < length accs)%nat ->
         LearningRate.num_halves (LearningRate.feed lr (take k accs)).2 < 7) /\
      (out.1 = Ok tt ->
         length accs = length js \/
         LearningRate.num_halves (Network.learning_rate (self out.2)) >= 7) /\
      exists new : list (output R),
        stdout out.2 = stdout w ++ new /\
        halved_etas new
        = map (fun i => halvings (S i) eta)
              (seq 0 (count_true (LearningRate.feed lr accs).1)).
Proof.
  induction js as [|j js IH]; intros td eta w lr out.
  { exists []. simpl.
    split; [reflexivity|]. split; [lia|].
    split; [intros k Hk; lia|]. split; [auto|].
    exists []. rewrite app_nil_r. split; reflexivity. }
  subst out. cbn [epochs_loop]. unfold io_bind.
  pose proof (epoch_spec j td mbs eta lmbda n mu test w) as He.
  destruct (epoch j td mbs eta lmbda n mu test w)
    as [[[[td' eta'] stop]|e] w1].
  2:{ destruct He as [E1 E2]. exists []. simpl.
      split; [exact E1|]. split; [lia|].
      split; [intros k Hk; lia|]. split; [discriminate|].
      exists []. rewrite app_nil_r. split; [exact E2 | reflexivity]. }
  destruct He as (w_mid & c & _ & _ & Elr & Eeta & Estop & new1 & Eout & Enew).
  fold lr in Elr, Eeta, Enew.
  destruct stop.
  - exists [c]. rewrite feed_cons. simpl.
    split; [exact Elr|]. split; [lia|].
    split; [intros k Hk; lia|].
    split.
    { intros _. right. symmetry in Estop.
      apply bool_decide_eq_true_1 in Estop. exact Estop. }
    exists new1. split; [exact Eout|]. rewrite Enew.
    rewrite count_true_cons.
    destruct (LearningRate.should_halve lr c).1; reflexivity.
  - specialize (IH td' eta' w1). cbv zeta in IH.
    destruct IH as (accs & I1 & I2 & I3 & I4 & new2 & I5 & I6).
    rewrite Elr in I1, I3, I6.
    exists (c :: accs). rewrite feed_cons. simpl.
    split; [exact I1|]. split; [lia|]. split; [|split].
    + intros k Hk. destruct k as [|k]; [lia|].
      change (take (S k) (c :: accs)) with (c :: take k accs).
      rewrite feed_cons. simpl in Hk |- *.
      destruct k as [|k].
      * simpl. rewrite <- Elr. symmetry in Estop.
        apply bool_decide_eq_false_1 in Estop. lia.
      * apply I3. lia.
    + intros Hok. destruct (I4 Hok) as [Hl|Hh]; [left; lia | right; exact Hh].
    + exists (new1 ++ new2). split.
      { rewrite I5, Eout, app_assoc. reflexivity. }
      rewrite halved_etas_app, Enew, I6, count_true_cons, Eeta.
      destruct (LearningRate.should_halve lr c).1; simpl; [|reflexivity].
      f_equal. rewrite <- fmap_S_seq, <- list_fmap_compose.
      apply list_fmap_ext. intros i x _. simpl.
      apply (halvings_shift (S x) eta).
Qed.

End SGD_facts.


(** ** Shapes through the forward and backward pass *)

Section shape_facts.
Context {R : Type} `{Scalar R}.
Implicit Types A B : ndarray R.

Lemma has_shape_transpose r c A :
  has_shape r c A -> (0 < r)%nat -> has_shape c r (transpose A).
Proof.
  intros HA Hr. pose proof (has_shape_ncols _ _ _ HA Hr) as Hc.
  destruct HA as [Hlen _]. unfold transpose. rewrite Hc. split.
  - rewrite length_map, length_seq. reflexivity.
  - apply Forall_map, Forall_forall. intros j _. simpl.
    rewrite length_map. exact Hlen.
Qed.

Lemma np_dot_shape r k c A B :
  has_shape r k A -> has_shape k c B -> (0 < r)%nat -> (0 < k)%nat ->
  exists D, np_dot A B = Ok D /\ has_shape r c D.
Proof.
  intros HA HB Hr Hk. unfold np_dot.
  rewrite (has_shape_ncols _ _ _ HA Hr), (has_shape_nrows _ _ _ HB).
  rewrite decide_True by reflexivity. eexists. split; [reflexivity|].
  pose proof (has_shape_transpose _ _ _ HB Hk) as [Ht _].
  destruct HA as [Hlen _]. split.
  - rewrite length_map. exact Hlen.
  - apply Forall_map, Forall_forall. intros row _. simpl.
    rewrite length_map. exact Ht.
Qed.

Lemma has_shape_stretch r c (b : ndarray R) :
  has_shape r 1 b -> has_shape r c (broadcast_to r c b).
Proof.
  intros [Hlen Hrows]. unfold broadcast_to.
  rewrite decide_True by exact Hlen. split.
  - rewrite length_map. exact Hlen.
  - apply Forall_map. eapply Forall_impl; [exact Hrows|].
    intros row Hrow. simpl. unfold stretch_row.
    destruct (decide (length row = c)) as [E|E]; [exact E|].
    apply length_replicate.
Qed.

(** Adding a column of biases to every column of a matrix. *)
Lemma np_add_bias_shape r c A (b : ndarray R) :
  has_shape r c A -> has_shape r 1 b -> (0 < r)%nat -> (0 < c)%nat ->
  exists Z, np_add A b = Ok Z /\ has_shape r c Z.
Proof.
  intros HA Hb Hr Hc. unfold np_add, np_binop.
  rewrite (has_shape_nrows _ _ _ HA), (has_shape_nrows _ _ _ Hb), bshape_same.
  simpl.
  rewrite (has_shape_ncols _ _ _ HA Hr), (has_shape_ncols _ _ _ Hb Hr).
  assert (E : bshape c 1 = Ok c).
  { unfold bshape. destruct (decide (c = 1%nat)) as [->|Hne]; reflexivity. }
  rewrite E. simpl. eexists. split; [reflexivity|].
  rewrite (broadcast_to_id _ _ _ HA).
  apply has_shape_elementwise; [exact HA | apply has_shape_stretch; exact Hb].
Qed.

Lemma np_mul_shape r c A B :
  has_shape r c A -> has_shape r c B ->
  np_mul A B = Ok (elementwise rmul A B) /\ has_shape r c (elementwise rmul A B).
Proof.
  intros HA HB. split.
  - apply np_binop_same_shape. exists r, c. split; assumption.
  - apply has_shape_elementwise; assumption.
Qed.

Lemma has_shape_sigmoid r c A : has_shape r c A -> has_shape r c (sigmoid A).
Proof. intros HA. unfold sigmoid. repeat apply has_shape_np_map. exact HA. Qed.

Lemma sigmoid_prime_shape r c A :
  has_shape r c A -> exists sp, sigmoid_prime A = Ok sp /\ has_shape r c sp.
Proof.
  intros HA. unfold sigmoid_prime.
  pose proof (has_shape_sigmoid _ _ _ HA) as Hs.
  destruct (np_mul_shape r c (sigmoid A) (np_map (rsub (of_Z 1)) (sigmoid A)))
    as [E Hsh]; [exact Hs | apply has_shape_np_map; exact Hs |].
  eexists. split; [exact E | exact Hsh].
Qed.

Lemma cost_delta_shape (cst : cost_class) r c (Z A Y : ndarray R) :
  has_shape r c Z -> has_shape r c A -> has_shape r c Y ->
  exists delta, cost_delta cst Z A Y = Ok delta /\ has_shape r c delta.
Proof.
  intros HZ HA HY.
  assert (Es : np_sub A Y = Ok (elementwise rsub A Y)).
  { apply np_binop_same_shape. exists r, c. split; assumption. }
  pose proof (has_shape_elementwise r c rsub A Y HA HY) as Hd.
  destruct cst; simpl.
  - unfold QuadraticCost.delta. rewrite Es. simpl.
    destruct (sigmoid_prime_shape r c Z HZ) as (sp & -> & Hsp). simpl.
    destruct (np_mul_shape r c _ _ Hd Hsp) as [E Hsh].
    eexists. split; [exact E | exact Hsh].
  - unfold CrossEntropyCost.delta. rewrite Es.
    eexists. split; [reflexivity | exact Hd].
Qed.

End shape_facts.

(** ** Python indexing from the end *)

Section py_index_facts.
Context {A : Type}.
Implicit Types l : list A.

Lemma py_getitem_neg l (i : Z) (p : nat) (x : A) :
  - Z.of_nat (length l) <= i < 0 ->
  Z.of_nat p = Z.of_nat (length l) + i ->
  l !! p = Some x ->
  py_getitem l i = Ok x.
Proof.
  intros Hi Hp Hx. unfold py_getitem, py_index.
  rewrite decide_False by lia. rewrite decide_True by lia. simpl.
  replace (Z.to_nat (Z.of_nat (length l) + i)) with p by lia.
  rewrite Hx. reflexivity.
Qed.

Lemma py_setitem_neg l (i : Z) (p : nat) (x : A) :
  - Z.of_nat (length l) <= i < 0 ->
  Z.of_nat p = Z.of_nat (length l) + i ->
  py_setitem l i x = Ok (<[p := x]> l).
Proof.
  intros Hi Hp. unfold py_setitem, py_index.
  rewrite decide_False by lia. rewrite decide_True by lia. simpl.
  replace (Z.to_nat (Z.of_nat (length l) + i)) with p by lia.
  reflexivity.
Qed.

End py_index_facts.

(** ** [backprop] *)

Section backprop_facts.
Context {R : Type} `{Scalar R}.
Variables (self : Network.t R) (X : ndarray R) (m : nat).
Hypothesis Hwf : well_formed self.
Hypothesis Hm : (0 < m)%nat.

Let L : nat := length (Network.weights self).
Local Abbreviation dim := (layer_width self).

Hypothesis HX : has_shape (dim 0) m X.

Lemma sizes_lookup (l : nat) :
  (l <= L)%nat -> Network.sizes self !! l = Some (dim l) /\ (0 < dim l)%nat.
Proof using Hwf.
  clear Hm HX.
  intros Hl. destruct Hwf as (_ & _ & Hlen & _ & Hpos & _).
  destruct (lookup_lt_is_Some_2 (Network.sizes self) l) as [x Hx].
  { fold L in Hlen. lia. }
  unfold layer_width. rewrite Hx. simpl.
  split; [reflexivity | eapply Hpos; exact Hx].
Qed.

Lemma layer_lookup (l : nat) :
  (l < L)%nat ->
  exists b w,
    Network.biases self !! l = Some b /\ Network.weights self !! l = Some w /\
    has_shape (dim (S l)) 1 b /\ has_shape (dim (S l)) (dim l) w.
Proof using Hwf.
  clear Hm HX.
  intros Hl.
  destruct (sizes_lookup l) as [E1 _]; [lia|].
  destruct (sizes_lookup (S l)) as [E2 _]; [lia|].
  destruct Hwf as (_ & _ & _ & _ & _ & Hsh).
  exact (Hsh l _ _ E1 E2).
Qed.

Lemma fwd_inv_start : fwd_inv self X m 0 [X] [].
Proof using HX.
  clear Hm Hwf.
  do 3 (split; [reflexivity|]). split; [|split].
  - intros l a Ha. destruct l; [|discriminate].
    injection Ha as <-. exact HX.
  - intros l z Hz. discriminate.
  - intros l b w a Hl. lia.
Qed.

Lemma fwd_inv_step (k : nat) (acts zs : list (ndarray R)) (a b w d z : ndarray R) :
  (k < L)%nat ->
  fwd_inv self X m k acts zs ->
  acts !! k = Some a ->
  Network.biases self !! k = Some b -> Network.weights self !! k = Some w ->
  np_dot w a = Ok d -> np_add d b = Ok z -> has_shape (dim (S k)) m z ->
  fwd_inv self X m (S k) (acts ++ [sigmoid z]) (zs ++ [z]).
Proof using Type.
  clear Hm Hwf HX.
  intros Hk (Hlz & Hla & H0 & Hsa & Hsz & Heq) Ha Hb Hw Hd Hz Hshape.
  split; [rewrite length_app; simpl; lia|].
  split; [rewrite length_app; simpl; lia|].
  split; [rewrite lookup_app_l by lia; exact H0|].
  split; [|split].
  - intros l a0 Hl. apply lookup_app_Some in Hl as [Hl|[Hge Hl]].
    + eapply Hsa. exact Hl.
    + rewrite Hla in Hge, Hl.
      destruct (l - S k)%nat as [|j] eqn:Ej; [|discriminate].
      injection Hl as <-. replace l with (S k) by lia.
      apply has_shape_sigmoid. exact Hshape.
  - intros l z0 Hl. apply lookup_app_Some in Hl as [Hl|[Hge Hl]].
    + eapply Hsz. exact Hl.
    + rewrite Hlz in Hge, Hl.
      destruct (l - k)%nat as [|j] eqn:Ej; [|discriminate].
      injection Hl as <-. replace l with k by lia. exact Hshape.
  - intros l b0 w0 a0 Hl Hb0 Hw0 Ha0.
    rewrite lookup_app_l in Ha0 by lia.
    destruct (decide (l = k)) as [->|Hne].
    + rewrite Hb in Hb0. rewrite Hw in Hw0. rewrite Ha in Ha0.
      injection Hb0 as <-. injection Hw0 as <-. injection Ha0 as <-.
      exists d, z. split; [exact Hd|]. split; [exact Hz|]. split.
      * rewrite lookup_app_r by lia. rewrite Hlz, Nat.sub_diag. reflexivity.
      * rewrite lookup_app_r by lia. rewrite Hla, Nat.sub_diag. reflexivity.
    + destruct (Heq l b0 w0 a0) as (d0 & z0 & E1 & E2 & E3 & E4);
        [lia | assumption..|].
      exists d0, z0. split; [exact E1|]. split; [exact E2|]. split.
      * apply lookup_app_l_Some. exact E3.
      * apply lookup_app_l_Some. exact E4.
Qed.

Lemma forward_loop_spec (n : nat) :
  forall (k : nat) (a : ndarray R) (acts zs : list (ndarray R)),
    (n + k = L)%nat -> fwd_inv self X m k acts zs -> acts !! k = Some a ->
    exists acts' zs',
      Network.forward_loop
        (drop k (zip (Network.biases self) (Network.weights self))) a acts zs
      = Ok (acts', zs') /\
      fwd_inv self X m L acts' zs'.
Proof using Hwf Hm.
  induction n as [|n IH]; intros k a acts zs Hk Hinv Ha.
  - assert (k = L) by lia. subst k.
    rewrite drop_ge.
    + exists acts, zs. split; [reflexivity | exact Hinv].
    + rewrite length_zip. fold L. lia.
  - destruct (layer_lookup k) as (b & w & Hb & Hw & Hsb & Hsw); [lia|].
    assert (Hzip : zip (Network.biases self) (Network.weights self) !! k
                   = Some (b, w)).
    { apply lookup_zip_with_Some. exists b, w. auto. }
    rewrite (drop_S _ _ _ Hzip). cbn [Network.forward_loop].
    destruct (sizes_lookup k) as [_ Hpk]; [lia|].
    destruct (sizes_lookup (S k)) as [_ Hpk']; [lia|].
    pose proof Hinv as (_ & _ & _ & Hsa & _).
    destruct (np_dot_shape _ _ _ w a Hsw (Hsa _ _ Ha) Hpk' Hpk) as (d & Hd & Hsd).
    rewrite Hd. simpl.
    destruct (np_add_bias_shape _ _ d b Hsd Hsb Hpk' Hm) as (z & Hz & Hsz).
    rewrite Hz. simpl.
    apply (IH (S k)); [lia | |].
    + eapply fwd_inv_step; eauto. lia.
    + destruct Hinv as (_ & Hla & _).
      rewrite lookup_app_r by lia. rewrite Hla, Nat.sub_diag. reflexivity.
Qed.


Lemma np_mean_axis1_batch (r : nat) (delta : ndarray R) :
  has_shape r m delta -> np_mean_axis1 delta = bias_gradient m delta.
Proof using Type.
  clear Hm Hwf HX.
  intros [_ Hrows]. unfold np_mean_axis1, bias_gradient.
  apply Forall_fmap_ext. eapply Forall_impl; [exact Hrows|].
  intros row Hrow. simpl in Hrow. rewrite Hrow. reflexivity.
Qed.

Variables (zs acts : list (ndarray R)).
Hypothesis Hinv : fwd_inv self X m L acts zs.

Lemma zs_lookup (l : nat) :
  (l < L)%nat -> exists z, zs !! l = Some z /\ has_shape (dim (S l)) m z.
Proof using Hinv.
  clear Hm Hwf HX.
  intros Hl. destruct Hinv as (Hlz & _ & _ & _ & Hsz & _).
  destruct (lookup_lt_is_Some_2 zs l) as [z Hz]; [lia|].
  exists z. split; [exact Hz | eapply Hsz; exact Hz].
Qed.

Lemma acts_lookup (l : nat) :
  (l <= L)%nat -> exists a, acts !! l = Some a /\ has_shape (dim l) m a.
Proof using Hinv.
  clear Hm Hwf HX.
  intros Hl. destruct Hinv as (_ & Hla & _ & Hsa & _).
  destruct (lookup_lt_is_Some_2 acts l) as [a Ha]; [lia|].
  exists a. split; [exact Ha | eapply Hsa; exact Ha].
Qed.

(** The backward loop, [r] iterations from [l = k]: [delta] is the error
    signal of layer [r], the head of the signals [ds_high] computed so
    far; the loop computes the signals [ds_low] of the layers below. *)
Lemma backward_loop_spec (r : nat) :
  forall (k : nat) (delta : ndarray R) (nb nw ds_high : list (ndarray R)),
    (k + r = S L)%nat -> (2 <= k)%nat ->
    length nb = L -> length nw = L ->
    has_shape (dim (S r)) m delta ->
    ds_high !! 0%nat = Some delta ->
    exists ds_low nb' nw',
      Network.backward_loop self zs acts (Z.of_nat m) (seq k r) delta nb nw
      = Ok (nb', nw') /\
      length ds_low = r /\ length nb' = L /\ length nw' = L /\
      (forall l z w delta',
         (l < r)%nat ->
         zs !! l = Some z -> Network.weights self !! S l = Some w ->
         (ds_low ++ ds_high) !! S l = Some delta' ->
         exists sp d delta0,
           sigmoid_prime z = Ok sp /\ np_dot (transpose w) delta' = Ok d /\
           np_mul d sp = Ok delta0 /\ (ds_low ++ ds_high) !! l = Some delta0) /\
      (forall l delta0,
         ds_low !! l = Some delta0 ->
         has_shape (dim (S l)) m delta0 /\
         nb' !! l = Some (bias_gradient m delta0) /\
         exists a g, acts !! l = Some a /\
                     weight_gradient m delta0 a = Ok g /\ nw' !! l = Some g) /\
      (forall l, (r <= l)%nat -> nb' !! l = nb !! l /\ nw' !! l = nw !! l).
Proof using Hwf Hm Hinv.
  induction r as [|r IH]; intros k delta nb nw ds_high Hk Hk2 Hnb Hnw Hsd Hhd.
  - exists [], nb, nw. simpl.
    split; [reflexivity|]. split; [reflexivity|].
    split; [exact Hnb|]. split; [exact Hnw|].
    split; [intros; lia|]. split; [intros; discriminate|]. auto.
  - cbn [seq Network.backward_loop].
    destruct Hinv as (Hlz & Hla & _).
    destruct (zs_lookup r) as (z & Hz & Hsz); [lia|].
    destruct (layer_lookup (S r)) as (b1 & w & _ & Hw & _ & Hsw); [lia|].
    destruct (acts_lookup r) as (a & Ha & Hsa); [lia|].
    destruct (sizes_lookup r) as [_ Hp0]; [lia|].
    destruct (sizes_lookup (S r)) as [_ Hp1]; [lia|].
    destruct (sizes_lookup (S (S r))) as [_ Hp2]; [lia|].
    rewrite (py_getitem_neg zs _ r z) by (rewrite ?Hlz; first [lia | exact Hz]).
    simpl.
    destruct (sigmoid_prime_shape _ _ z Hsz) as (sp & Hsp & Hssp).
    rewrite Hsp. simpl.
    rewrite (py_getitem_neg (Network.weights self) _ (S r) w)
      by (fold L; first [lia | exact Hw]).
    simpl.
    destruct (np_dot_shape _ _ _ (transpose w) delta
                (has_shape_transpose _ _ _ Hsw Hp2) Hsd Hp1 Hp2)
      as (d & Hd & Hsd').
    rewrite Hd. simpl.
    destruct (np_mul_shape _ _ d sp Hsd' Hssp) as [Hmul Hsdelta].
    rewrite Hmul. simpl.
    set (delta1 := elementwise rmul d sp) in *.
    rewrite (py_setitem_neg nb _ r) by (rewrite ?Hnb; lia).
    simpl.
    rewrite (py_getitem_neg acts _ r a) by (rewrite ?Hla; first [lia | exact Ha]).
    simpl.
    destruct (np_dot_shape _ _ _ delta1 (transpose a) Hsdelta
                (has_shape_transpose _ _ _ Hsa Hp0) Hp1 Hm)
      as (d' & Hd' & _).
    rewrite Hd'. simpl.
    rewrite (py_setitem_neg nw _ r) by (rewrite ?Hnw; lia).
    simpl.
    destruct (IH (S k) delta1 (<[r := np_mean_axis1 delta1]> nb)
                (<[r := np_div_int d' (Z.of_nat m)]> nw) (delta1 :: ds_high))
      as (ds_low & nb' & nw' & Hrun & Hlen & Hnb' & Hnw' & Hrec & Hgrad & Hframe);
      [lia | lia | rewrite length_insert; exact Hnb
       | rewrite length_insert; exact Hnw | exact Hsdelta | reflexivity |].
    exists (ds_low ++ [delta1]), nb', nw'.
    split; [exact Hrun|].
    split; [rewrite length_app; simpl; lia|].
    split; [exact Hnb'|]. split; [exact Hnw'|].
    rewrite <- app_assoc. simpl.
    split; [|split].
    + intros l z0 w0 delta' Hl Hz0 Hw0 Hd0.
      destruct (decide (l = r)) as [->|Hne].
      * rewrite Hz in Hz0. injection Hz0 as <-.
        rewrite Hw in Hw0. injection Hw0 as <-.
        rewrite lookup_app_r in Hd0 by lia.
        replace (S r - length ds_low)%nat with 1%nat in Hd0 by lia.
        simpl in Hd0. rewrite Hhd in Hd0. injection Hd0 as <-.
        exists sp, d, delta1.
        split; [exact Hsp|]. split; [exact Hd|]. split; [exact Hmul|].
        rewrite lookup_app_r by lia.
        rewrite Hlen, Nat.sub_diag. reflexivity.
      * apply (Hrec l z0 w0 delta'); [lia | assumption..].
    + intros l delta0 Hl. apply lookup_app_Some in Hl as [Hl|[Hge Hl]].
      * apply Hgrad. exact Hl.
      * rewrite Hlen in Hge, Hl.
        destruct (l - r)%nat as [|j] eqn:Ej; [|discriminate].
        injection Hl as <-. assert (l = r) by lia. subst l.
        destruct (Hframe r) as [F1 F2]; [lia|].
        split; [exact Hsdelta|]. split.
        { rewrite F1, list_lookup_insert_eq by lia.
          rewrite (np_mean_axis1_batch _ _ Hsdelta). reflexivity. }
        exists a, (np_div_int d' (Z.of_nat m)).
        split; [exact Ha|]. split.
        { unfold weight_gradient. rewrite Hd'. reflexivity. }
        rewrite F2, list_lookup_insert_eq by lia. reflexivity.
    + intros l Hl. destruct (Hframe l) as [F1 F2]; [lia|].
      rewrite F1, F2, !list_lookup_insert_ne by lia. auto.
Qed.

End backprop_facts.

(** Claim C1: on a well-formed network and a batch of [m >= 1] samples
    stacked column-wise ([X] of shape [(sizes[0], m)], [Y] of shape
    [(sizes[-1], m)]), [backprop] returns; with [zs] and [activations] the
    values of the forward pass and [deltas] the error signals of the
    layers, the bias gradient of every layer is the mean of its error
    signal over the [m] columns, and its weight gradient is the error
    signal times the transposed activations entering the layer, divided by
    [m]. *)
Theorem backprop_batch_mean {R : Type} `{Scalar R}
    (self : Network.t R) (X Y : ndarray R) (m : nat) :
  well_formed self ->
  (0 < m)%nat ->
  has_shape (layer_width self 0) m X ->
  has_shape (layer_width self (length (Network.weights self))) m Y ->
  exists zs activations deltas nabla_b nabla_w : list (ndarray R),
    Network.backprop self X Y = Ok (nabla_b, nabla_w) /\
    forward_pass self X zs activations /\
    error_signals self Y zs activations deltas /\
    length nabla_b = length (Network.weights self) /\
    length nabla_w = length (Network.weights self) /\
    forall l delta a,
      deltas !! l = Some delta -> activations !! l = Some a ->
      Forall (fun row => length row = m) delta /\
      nabla_b !! l = Some (bias_gradient m delta) /\
      exists g, weight_gradient m delta a = Ok g /\ nabla_w !! l = Some g.
Proof.
  intros Hwf Hm HX HY.
  set (L := length (Network.weights self)) in *.
  pose proof Hwf as (Hnl & Hlen2 & Hlw & Hlb & _).
  fold L in Hlw.
  destruct (forward_loop_spec self X m Hwf Hm L 0 X [X] [])
    as (acts & zs & Hfwd & Hinv);
    [lia | apply fwd_inv_start; assumption | reflexivity |].
  rewrite drop_0 in Hfwd. fold L in Hinv.
  pose proof Hinv as (Hlz & Hla & H0 & _ & _ & Heq).
  destruct (zs_lookup self X m zs acts Hinv (L - 1)) as (z & Hz & Hsz);
    [fold L; lia|].
  destruct (acts_lookup self X m zs acts Hinv L) as (a_last & Hal & Hsal);
    [fold L; lia|].
  destruct (acts_lookup self X m zs acts Hinv (L - 1)) as (a_prev & Hap & Hsap);
    [fold L; lia|].
  replace (S (L - 1)) with L in Hsz by lia.
  destruct (sizes_lookup self Hwf 0) as [_ Hp0]; [lia|].
  destruct (sizes_lookup self Hwf (L - 1)) as [_ Hp1]; [fold L; lia|].
  destruct (sizes_lookup self Hwf L) as [_ Hp2]; [fold L; lia|].
  destruct (cost_delta_shape (Network.cost self) _ _ z a_last Y Hsz Hsal HY)
    as (delta & Hdelta & Hsdelta).
  destruct (np_dot_shape _ _ _ delta (transpose a_prev) Hsdelta
              (has_shape_transpose _ _ _ Hsap Hp1) Hp2 Hm)
    as (d & Hd & _).
  set (nb0 := map (fun b => np_zeros (nrows b) (ncols b)) (Network.biases self)).
  set (nw0 := map (fun w => np_zeros (nrows w) (ncols w)) (Network.weights self)).
  assert (Hnb0 : length nb0 = L) by (unfold nb0; rewrite length_map; lia).
  assert (Hnw0 : length nw0 = L) by (unfold nw0; rewrite length_map; reflexivity).
  destruct (backward_loop_spec self X m Hwf Hm zs acts Hinv (L - 1) 2 delta
              (<[(L - 1)%nat := np_mean_axis1 delta]> nb0)
              (<[(L - 1)%nat := np_div_int d (Z.of_nat m)]> nw0) [delta])
    as (ds_low & nb' & nw' & Hrun & Hlow & Hnb' & Hnw' & Hrec & Hgrad & Hframe);
    [fold L; lia | lia | rewrite length_insert; exact Hnb0
     | rewrite length_insert; exact Hnw0
     | replace (S (L - 1)) with L by lia; exact Hsdelta | reflexivity |].
  exists zs, acts, (ds_low ++ [delta]), nb', nw'.
  split.
  { unfold Network.backprop. fold nb0 nw0. rewrite Hfwd. simpl.
    rewrite (py_getitem_neg zs (-1) (L - 1)%nat z)
      by (rewrite ?Hlz; first [lia | exact Hz]).
    simpl.
    rewrite (py_getitem_neg acts (-1) L a_last)
      by (rewrite ?Hla; first [lia | exact Hal]).
    simpl. rewrite Hdelta. simpl.
    rewrite (py_setitem_neg nb0 (-1) (L - 1)%nat) by (rewrite ?Hnb0; lia).
    simpl.
    rewrite (py_getitem_neg acts (-2) (L - 1)%nat a_prev)
      by (rewrite ?Hla; first [lia | exact Hap]).
    simpl. rewrite Hd. simpl.
    rewrite (has_shape_ncols _ _ _ HX Hp0).
    rewrite (py_setitem_neg nw0 (-1) (L - 1)%nat) by (rewrite ?Hnw0; lia).
    simpl.
    replace (Network.num_layers self - 2)%nat with (L - 1)%nat by lia.
    exact Hrun. }
  split.
  { split; [exact Hlz|]. split; [exact Hla|]. split; [exact H0|].
    intros l b w a Hb Hw Ha. apply (Heq l b w a); try assumption.
    apply lookup_lt_Some in Hw. exact Hw. }
  split.
  { split; [rewrite length_app; simpl; fold L; lia|]. fold L. split.
    - exists z, a_last, delta.
      split; [exact Hz|]. split; [exact Hal|]. split; [exact Hdelta|].
      rewrite lookup_app_r by lia. rewrite Hlow, Nat.sub_diag. reflexivity.
    - intros l z0 w delta' Hz0 Hw Hd0.
      apply (Hrec l z0 w delta'); try assumption.
      apply lookup_lt_Some in Hw. fold L in Hw. lia. }
  split; [exact Hnb'|]. split; [exact Hnw'|].
  intros l delta0 a Hl Ha.
  apply lookup_app_Some in Hl as [Hl|[Hge Hl]].
  - destruct (Hgrad l delta0 Hl) as ([_ Hrows] & Eb & a' & g & Ea & Eg & Ew).
    rewrite Ha in Ea. injection Ea as <-.
    split; [exact Hrows|]. split; [exact Eb|]. exists g. auto.
  - unfold ndarray in Hlow, Hge, Hl. rewrite Hlow in Hge, Hl.
    destruct (l - (L - 1))%nat as [|j] eqn:Ej; [|discriminate].
    injection Hl as <-. assert (l = (L - 1)%nat) by lia. subst l.
    rewrite Hap in Ha. injection Ha as <-.
    destruct (Hframe (L - 1)%nat) as [F1 F2]; [lia|].
    split; [apply Hsdelta|]. split.
    + rewrite F1, list_lookup_insert_eq by lia.
      rewrite (np_mean_axis1_batch m _ _ Hsdelta). reflexivity.
    + exists (np_div_int d (Z.of_nat m)). split.
      * unfold weight_gradient. rewrite Hd. reflexivity.
      * rewrite F2, list_lookup_insert_eq by lia. reflexivity.
Qed.

Lemma example_net_well_formed (reg : reg_class) (patience : Z) :
  well_formed (example_net reg patience).
Proof.
  unfold well_formed. simpl.
  split; [reflexivity|]. split; [lia|].
  split; [reflexivity|]. split; [reflexivity|]. split.
  - intros [|[|[|l]]] x Hx; simpl in Hx; try discriminate;
      injection Hx as <-; lia.
  - intros [|[|[|l]]] x y Hx Hy; simpl in Hx, Hy; try discriminate;
      injection Hx as <-; injection Hy as <-;
      eexists; eexists;
      (split; [reflexivity|]); (split; [reflexivity|]);
      split; (split; [reflexivity | repeat constructor]).
Defined.

Lemma backprop_batch_mean_witness :
  exists nabla_b nabla_w : list (ndarray Z),
    @Network.backprop Z Z_scalar (example_net reg_L2 10)
       [[1; 2; 3]; [4; 5; 6]] [[1; 0; 1]]
    = Ok (nabla_b, nabla_w) /\
    length nabla_b = 2%nat /\ length nabla_w = 2%nat.
Proof.
  destruct (@backprop_batch_mean Z Z_scalar (example_net reg_L2 10)
              [[1; 2; 3]; [4; 5; 6]] [[1; 0; 1]] 3)
    as (zs & acts & deltas & nb & nw & Hrun & _ & _ & Hb & Hw & _).
  - apply example_net_well_formed.
  - lia.
  - split; [reflexivity | repeat constructor].
  - split; [reflexivity | repeat constructor].
  - exists nb, nw. split; [exact Hrun|]. split; [exact Hb | exact Hw].
Defined.

(* ================================================================== *)
(** * Further properties of the code *)
(* ================================================================== *)

(** ** The trackers as recorders *)

Section tracker_records.

Lemma early_stopping_feed_cons (s : EarlyStopping.t) (a : Z) (accs : list Z) :
  EarlyStopping.feed s (a :: accs) =
    ((EarlyStopping.should_stop s a).1
       :: (EarlyStopping.feed (EarlyStopping.should_stop s a).2 accs).1,
     (EarlyStopping.feed (EarlyStopping.should_stop s a).2 accs).2).
Proof.
  simpl. destruct (EarlyStopping.should_stop s a) as [r s1]. simpl.
  destruct (EarlyStopping.feed s1 accs) as [rs s2]. reflexivity.
Qed.

Lemma should_halve_record (s : LearningRate.t) (a : Z) :
  let s' := (LearningRate.should_halve s a).2 in
  LearningRate.accuracies s' = LearningRate.accuracies s ++ [a] /\
  LearningRate.best_accuracy s' = Z.max (LearningRate.best_accuracy s) a /\
  LearningRate.patience s' = LearningRate.patience s /\
  LearningRate.num_halves s'
  = LearningRate.num_halves s
    + (if (LearningRate.should_halve s a).1 then 1 else 0).
Proof.
  unfold LearningRate.should_halve. cbv zeta.
  destruct (bool_decide_reflect (a > LearningRate.best_accuracy s)); simpl;
    match goal with |- context [bool_decide ?P] => destruct (bool_decide P) end;
    simpl; repeat split; lia.
Qed.

Lemma should_stop_record (s : EarlyStopping.t) (a : Z) :
  let s' := (EarlyStopping.should_stop s a).2 in
  EarlyStopping.accuracies s' = EarlyStopping.accuracies s ++ [a] /\
  EarlyStopping.best_accuracy s' = Z.max (EarlyStopping.best_accuracy s) a /\
  EarlyStopping.patience s' = EarlyStopping.patience s.
Proof.
  unfold EarlyStopping.should_stop. cbv zeta.
  destruct (bool_decide_reflect (a > EarlyStopping.best_accuracy s)); simpl;
    match goal with |- context [bool_decide ?P] => destruct (bool_decide P) end;
    simpl; repeat split; lia.
Qed.

End tracker_records.

(** What a run of calls leaves in a [LearningRate] tracker. *)
Lemma feed_records (s : LearningRate.t) (accs : list Z) :
  let s' := (LearningRate.feed s accs).2 in
  LearningRate.accuracies s' = LearningRate.accuracies s ++ accs /\
  LearningRate.best_accuracy s' = foldl Z.max (LearningRate.best_accuracy s) accs /\
  LearningRate.patience s' = LearningRate.patience s /\
  LearningRate.num_halves s'
  = LearningRate.num_halves s + Z.of_nat (count_true (LearningRate.feed s accs).1).
Proof.
  revert s. induction accs as [|a accs IH]; intros s.
  - simpl. rewrite app_nil_r. repeat split. unfold count_true. simpl. lia.
  - rewrite feed_cons. cbv zeta. simpl.
    destruct (should_halve_record s a) as (E1 & E2 & E3 & E4).
    destruct (IH (LearningRate.should_halve s a).2) as (I1 & I2 & I3 & I4).
    rewrite I1, I2, I3, I4, E1, E2, E3, E4, count_true_cons.
    rewrite <- app_assoc. repeat split.
    destruct (LearningRate.should_halve s a).1; lia.
Qed.

(** Whatever it is fed, a [LearningRate] tracker records every accuracy in
    call order, keeps in [best_accuracy] the maximum of its former best and
    the accuracies fed, never changes its patience, and counts in
    [num_halves] exactly the calls that answered [True]. *)
Theorem learning_rate_records (s : LearningRate.t) (accs : list Z) :
  let s' := (LearningRate.feed s accs).2 in
  LearningRate.accuracies s' = LearningRate.accuracies s ++ accs /\
  LearningRate.best_accuracy s' = foldl Z.max (LearningRate.best_accuracy s) accs /\
  LearningRate.patience s' = LearningRate.patience s /\
  LearningRate.num_halves s'
  = LearningRate.num_halves s + Z.of_nat (count_true (LearningRate.feed s accs).1).
Proof.
  intros s'. unfold s'.
  destruct (feed_records s accs) as (E1 & E2 & E3 & E4).
  split; [exact E1|]. split; [exact E2|]. split; [exact E3 | exact E4].
Qed.

(** An [EarlyStopping] tracker records every accuracy in call order, keeps
    in [best_accuracy] the maximum of its former best and the accuracies
    fed, and never changes its patience. *)
Theorem early_stopping_records (s : EarlyStopping.t) (accs : list Z) :
  let s' := (EarlyStopping.feed s accs).2 in
  EarlyStopping.accuracies s' = EarlyStopping.accuracies s ++ accs /\
  EarlyStopping.best_accuracy s'
  = foldl Z.max (EarlyStopping.best_accuracy s) accs /\
  EarlyStopping.patience s' = EarlyStopping.patience s.
Proof.
  revert s. induction accs as [|a accs IH]; intros s.
  - simpl. rewrite app_nil_r. repeat split.
  - rewrite early_stopping_feed_cons. cbv zeta. simpl.
    destruct (should_stop_record s a) as (E1 & E2 & E3).
    destruct (IH (EarlyStopping.should_stop s a).2) as (I1 & I2 & I3).
    rewrite I1, I2, I3, E1, E2, E3, <- app_assoc. repeat split.
Qed.

(** While the accuracies do not improve, [EarlyStopping] only counts up:
    the call number [i] of a run of non-improving accuracies answers [True]
    exactly when the counter it started from plus [i] has reached the
    patience, so that the stop signal, once given, is repeated at every
    further non-improving call; the counter is never reset by signalling. *)
Theorem early_stopping_plateau (accs : list Z) : forall s : EarlyStopping.t,
  Forall (fun a => a <= EarlyStopping.best_accuracy s) accs ->
  (EarlyStopping.feed s accs).1
  = map (fun i => bool_decide (EarlyStopping.counter s + Z.of_nat (S i)
                               >= EarlyStopping.patience s))
        (seq 0 (length accs)) /\
  EarlyStopping.counter (EarlyStopping.feed s accs).2
  = EarlyStopping.counter s + Z.of_nat (length accs) /\
  EarlyStopping.best_accuracy (EarlyStopping.feed s accs).2
  = EarlyStopping.best_accuracy s.
Proof.
  induction accs as [|a accs IH]; intros s Hall.
  - simpl. repeat split. lia.
  - apply Forall_cons_1 in Hall as [Ha Hall].
    rewrite early_stopping_feed_cons.
    assert (E : EarlyStopping.should_stop s a =
                (bool_decide (EarlyStopping.counter s + 1 >= EarlyStopping.patience s),
                 {| EarlyStopping.patience := EarlyStopping.patience s;
                    EarlyStopping.best_accuracy := EarlyStopping.best_accuracy s;
                    EarlyStopping.counter := EarlyStopping.counter s + 1;
                    EarlyStopping.accuracies := EarlyStopping.accuracies s ++ [a] |})).
    { unfold EarlyStopping.should_stop. cbv zeta.
      rewrite (bool_decide_eq_false_2 (a > EarlyStopping.best_accuracy s)) by lia.
      simpl.
      destruct (bool_decide (EarlyStopping.counter s + 1 >= EarlyStopping.patience s));
        reflexivity. }
    rewrite E. simpl fst. simpl snd.
    match goal with |- context [EarlyStopping.feed ?s1 accs] =>
      destruct (IH s1) as (I1 & I2 & I3); [exact Hall|] end.
    rewrite I1, I2, I3. simpl.
    split; [|split; [lia | reflexivity]].
    f_equal. rewrite <- fmap_S_seq, <- list_fmap_compose.
    apply list_fmap_ext. intros i x _. simpl.
    apply bool_decide_ext. lia.
Qed.

Lemma early_stopping_plateau_witness :
  (EarlyStopping.feed (EarlyStopping.init 2) [0; 0; 0]).1 = [false; true; true].
Proof.
  refine (eq_trans (proj1 (early_stopping_plateau [0; 0; 0] (EarlyStopping.init 2) _)) _).
  - repeat constructor; simpl; lia.
  - reflexivity.
Defined.

(** [patience] non-improving accuracies halve once; [k * patience] of them
    halve [k] times and leave the counter where it was. *)
Theorem learning_rate_plateau_period (k : nat) :
  forall (s : LearningRate.t) (accs : list Z),
    0 <= LearningRate.counter s < LearningRate.patience s ->
    Z.of_nat (length accs) = Z.of_nat k * LearningRate.patience s ->
    Forall (fun a => a <= LearningRate.best_accuracy s) accs ->
    LearningRate.num_halves (LearningRate.feed s accs).2
    = LearningRate.num_halves s + Z.of_nat k /\
    LearningRate.counter (LearningRate.feed s accs).2 = LearningRate.counter s /\
    LearningRate.best_accuracy (LearningRate.feed s accs).2
    = LearningRate.best_accuracy s.
Proof.
  induction k as [|k IH]; intros s accs Hc Hlen Hall.
  - destruct accs; [|simpl in Hlen; lia]. simpl. repeat split. lia.
  - set (p := Z.to_nat (LearningRate.patience s)).
    rewrite <- (take_drop p accs) in Hall |- *.
    apply Forall_app in Hall as [Hall1 Hall2].
    rewrite feed_app. simpl snd.
    destruct (feed_plateau_patience (take p accs) s) as (_ & E2 & E3);
      [exact Hc | rewrite length_take; lia | exact Hall1 |].
    pose proof (feed_records s (take p accs)) as (_ & E4 & E5 & _).
    assert (Hbest : LearningRate.best_accuracy (LearningRate.feed s (take p accs)).2
                    = LearningRate.best_accuracy s).
    { rewrite E4. clear -Hall1. revert Hall1.
      generalize (LearningRate.best_accuracy s) as b.
      induction (take p accs) as [|a l IHl]; intros b Hl; [reflexivity|].
      apply Forall_cons_1 in Hl as [Ha Hl]. simpl.
      rewrite Z.max_l by lia. apply IHl. exact Hl. }
    destruct (IH (LearningRate.feed s (take p accs)).2 (drop p accs))
      as (I1 & I2 & I3).
    + rewrite E3, E5. exact Hc.
    + rewrite length_drop, E5. lia.
    + rewrite Hbest. exact Hall2.
    + rewrite I1, I2, I3, E2, E3, Hbest. repeat split. lia.
Qed.

Lemma learning_rate_plateau_period_witness :
  LearningRate.num_halves
    (LearningRate.feed (LearningRate.init 2) [0; 0; 0; 0; 0; 0]).2 = 3.
Proof.
  refine (proj1 (learning_rate_plateau_period 3 (LearningRate.init 2)
                   [0; 0; 0; 0; 0; 0] _ _ _)).
  - simpl. lia.
  - reflexivity.
  - repeat constructor; simpl; lia.
Defined.

(** ** [sigmoid], [sigmoid_prime] and the quadratic cost *)

Section elementwise_facts.
Context {R : Type} `{Scalar R}.
Implicit Types A B : ndarray R.

Lemma np_map_np_map (f g : R -> R) A :
  np_map f (np_map g A) = np_map (fun x => f (g x)) A.
Proof.
  unfold np_map. rewrite map_map. apply map_ext. intros row. apply map_map.
Qed.

Lemma elementwise_diag (f : R -> R -> R) (g h : R -> R) A :
  elementwise f (np_map g A) (np_map h A) = np_map (fun x => f (g x) (h x)) A.
Proof.
  rewrite elementwise_np_map. unfold elementwise, np_map.
  rewrite zip_with_diag. apply map_ext. intros row. apply zip_with_diag.
Qed.

Lemma np_map_id_ext (f : R -> R) A : (forall x, f x = x) -> np_map f A = A.
Proof.
  intros Hf. unfold np_map. rewrite <- (map_id A) at 2.
  apply map_ext. intros row. rewrite <- (map_id row) at 2.
  apply map_ext. exact Hf.
Qed.

Lemma sigmoid_elementwise A : sigmoid A = np_map sigmoid_scalar A.
Proof. unfold sigmoid. rewrite !np_map_np_map. reflexivity. Qed.

Lemma sigmoid_prime_elementwise r c A :
  has_shape r c A -> sigmoid_prime A = Ok (np_map sigmoid_prime_scalar A).
Proof.
  intros HA. unfold sigmoid_prime, np_mul. rewrite sigmoid_elementwise.
  rewrite np_binop_same_shape.
  - rewrite np_map_np_map.
    rewrite <- (np_map_np_map (fun x => x) sigmoid_scalar A) at 1.
    rewrite (np_map_id_ext (fun x => x)) by reflexivity.
    rewrite (elementwise_diag rmul sigmoid_scalar
               (fun x => rsub (of_Z 1) (sigmoid_scalar x)) A).
    reflexivity.
  - exists r, c. split; repeat apply has_shape_np_map; exact HA.
Qed.

End elementwise_facts.

(** [sigmoid] applies [1/(1+exp(-x))] to every element and keeps the
    shape; on a rectangular array [sigmoid_prime] never raises and applies
    [s(x)*(1-s(x))] to every element, [s] being that function. *)
Theorem sigmoid_is_elementwise {R : Type} `{Scalar R} (r c : nat) (A : ndarray R) :
  has_shape r c A ->
  sigmoid A = np_map sigmoid_scalar A /\
  has_shape r c (sigmoid A) /\
  sigmoid_prime A = Ok (np_map sigmoid_prime_scalar A) /\
  has_shape r c (np_map sigmoid_prime_scalar A).
Proof.
  intros HA. split; [apply sigmoid_elementwise|].
  split; [apply has_shape_sigmoid; exact HA|].
  split; [eapply sigmoid_prime_elementwise; exact HA|].
  apply has_shape_np_map. exact HA.
Qed.

Lemma sigmoid_is_elementwise_witness :
  @sigmoid_prime Z Z_scalar [[2; 3]] = Ok [[-2; -2]].
Proof.
  refine (eq_trans (proj1 (proj2 (proj2
            (@sigmoid_is_elementwise Z Z_scalar 1 2 [[2; 3]] _)))) _).
  - split; [reflexivity | repeat constructor].
  - reflexivity.
Defined.

(** On a pre-activation, a prediction and a target of one shape, the
    quadratic cost's [delta] is, element by element,
    [(a - y) * s(z) * (1 - s(z))], and has that shape. *)
Theorem quadratic_delta_formula {R : Type} `{Scalar R} (r c : nat)
    (Z A Y : ndarray R) :
  has_shape r c Z -> has_shape r c A -> has_shape r c Y ->
  QuadraticCost.delta Z A Y
  = Ok (elementwise rmul (elementwise rsub A Y) (np_map sigmoid_prime_scalar Z)) /\
  has_shape r c
    (elementwise rmul (elementwise rsub A Y) (np_map sigmoid_prime_scalar Z)).
Proof.
  intros HZ HA HY. unfold QuadraticCost.delta, np_sub.
  rewrite np_binop_same_shape by (exists r, c; split; assumption). simpl.
  rewrite (sigmoid_prime_elementwise r c Z HZ). simpl.
  pose proof (has_shape_elementwise r c rsub A Y HA HY) as Hd.
  pose proof (has_shape_np_map r c sigmoid_prime_scalar Z HZ) as Hs.
  destruct (np_mul_shape r c _ _ Hd Hs) as [E Hsh].
  split; [exact E | exact Hsh].
Qed.

Lemma quadratic_delta_formula_witness :
  @QuadraticCost.delta Z Z_scalar [[0; 1]] [[5; 7]] [[1; 1]] = Ok [[0; 0]].
Proof.
  refine (eq_trans (proj1 (@quadratic_delta_formula Z Z_scalar 1 2
                             [[0; 1]] [[5; 7]] [[1; 1]] _ _ _)) _);
    try (split; [reflexivity | repeat constructor]).
  reflexivity.
Defined.

(** ** More on the update strategies *)

Section strategy_facts.
Context {R : Type} `{Scalar R}.

Lemma mapM_length {A B : Type} (f : A -> result B) (l : list A) (k : list B) :
  mapM f l = Ok k -> length k = length l.
Proof.
  revert k. induction l as [|x l IH]; intros k Hk.
  - injection Hk as <-. reflexivity.
  - simpl in Hk. destruct (f x) as [y|e]; [|discriminate]. simpl in Hk.
    destruct (mapM f l) as [k'|e]; [|discriminate]. simpl in Hk.
    injection Hk as <-. simpl. rewrite (IH k' eq_refl). reflexivity.
Qed.

Lemma L2_weights_step (eta lmbda : R) (n : Z) (weights nabla_w : list (ndarray R)) :
  n <> 0 ->
  Forall2 same_shape weights nabla_w ->
  mapM (fun '(w, nw) =>
          c ← py_truediv (rmul eta lmbda) n;
          np_sub (np_scale (rsub (of_Z 1) c) w) (np_scale eta nw))
       (zip weights nabla_w)
  = Ok (zip_with
          (elementwise (fun w g =>
             rsub (rmul (rsub (of_Z 1) (rdiv (rmul eta lmbda) (of_Z n))) w)
                  (rmul eta g)))
          weights nabla_w).
Proof.
  intros Hn Hw. apply (mapM_zip_Ok _ _ _ _ same_shape); [|exact Hw].
  intros w nw Hs. unfold py_truediv.
  rewrite decide_False by exact Hn. simpl.
  unfold np_sub. rewrite np_binop_same_shape.
  - unfold np_scale. rewrite elementwise_np_map. reflexivity.
  - apply same_shape_np_map. exact Hs.
Qed.

Lemma momentum_velocities_step (eta mu : R) (velocities nabla_w : list (ndarray R)) :
  Forall2 same_shape velocities nabla_w ->
  mapM (fun '(v, nw) => np_sub (np_scale mu v) (np_scale eta nw))
       (zip velocities nabla_w)
  = Ok (zip_with (elementwise (fun v g => rsub (rmul mu v) (rmul eta g)))
                 velocities nabla_w).
Proof.
  intros Hv. apply (mapM_zip_Ok _ _ _ _ same_shape); [|exact Hv].
  intros v nw Hs. unfold np_sub. rewrite np_binop_same_shape.
  - unfold np_scale. rewrite elementwise_np_map. reflexivity.
  - apply same_shape_np_map. exact Hs.
Qed.

Lemma momentum_weights_step (weights velocities : list (ndarray R)) :
  Forall2 same_shape weights velocities ->
  mapM (fun '(w, v) => np_add w v) (zip weights velocities)
  = Ok (zip_with (elementwise radd) weights velocities).
Proof.
  intros Hw. apply (mapM_zip_Ok _ _ _ _ same_shape); [|exact Hw].
  intros w v Hs. unfold np_add. apply np_binop_same_shape. exact Hs.
Qed.

Lemma L1_weights_step (eta lmbda : R) (n : Z) (weights nabla_w : list (ndarray R)) :
  n <> 0 ->
  Forall2 same_shape weights nabla_w ->
  mapM (fun '(w, nw) =>
          c ← py_truediv (rmul eta lmbda) n;
          t ← np_sub w (np_scale c (np_sign w));
          np_sub t (np_scale eta nw))
       (zip weights nabla_w)
  = Ok (zip_with
          (elementwise (fun w g =>
             rsub (rsub w (rmul (rdiv (rmul eta lmbda) (of_Z n)) (rsign w)))
                  (rmul eta g)))
          weights nabla_w).
Proof.
  intros Hn Hw. apply (mapM_zip_Ok _ _ _ _ same_shape); [|exact Hw].
  intros w nw (r & c & Hsw & Hsnw). unfold py_truediv.
  rewrite decide_False by exact Hn. simpl.
  set (k := rdiv (rmul eta lmbda) (of_Z n)).
  assert (E : np_sub w (np_scale k (np_sign w))
              = Ok (np_map (fun x => rsub x (rmul k (rsign x))) w)).
  { unfold np_sub, np_scale, np_sign. rewrite np_binop_same_shape.
    - rewrite np_map_np_map.
      rewrite <- (np_map_id_ext (fun x => x) w) at 1 by reflexivity.
      rewrite (elementwise_diag rsub (fun x => x) (fun x => rmul k (rsign x)) w).
      reflexivity.
    - exists r, c. split; [exact Hsw | repeat apply has_shape_np_map; exact Hsw]. }
  rewrite E. simpl. unfold np_sub, np_scale. rewrite np_binop_same_shape.
  - rewrite elementwise_np_map. reflexivity.
  - exists r, c. split; apply has_shape_np_map; assumption.
Qed.

End strategy_facts.

(** On a non-empty training set and gradients of the shapes of the
    parameters, the L1-regularized update returns a pair: at every layer
    the weights [w - (eta*lmbda/n)*sign(w) - eta*nabla_w] and the biases
    [b - eta*nabla_b]. *)
Theorem L1_update_step_formula {R : Type} `{Scalar R}
    (eta lmbda : R) (n : Z) (weights biases nabla_w nabla_b : list (ndarray R)) :
  n <> 0 ->
  Forall2 same_shape weights nabla_w ->
  Forall2 same_shape biases nabla_b ->
  L1_regularization.update_step eta lmbda n weights biases nabla_w nabla_b
  = Ok [ zip_with
           (elementwise (fun w g =>
              rsub (rsub w (rmul (rdiv (rmul eta lmbda) (of_Z n)) (rsign w)))
                   (rmul eta g)))
           weights nabla_w;
         zip_with (elementwise (fun b g => rsub b (rmul eta g))) biases nabla_b ].
Proof.
  intros Hn Hw Hb. unfold L1_regularization.update_step.
  rewrite (L1_weights_step eta lmbda n weights nabla_w Hn Hw). simpl.
  rewrite (bias_step eta biases nabla_b Hb). reflexivity.
Qed.

Lemma L1_update_step_formula_witness :
  @L1_regularization.update_step Z Z_scalar 2 3 6
     [[[10; 0; -20]]] [[[1]]] [[[1; 2; 3]]] [[[5]]]
  = Ok [ [[[7; -4; -25]]]; [[[-9]]] ].
Proof.
  refine (eq_trans (@L1_update_step_formula Z Z_scalar 2 3 6
                      [[[10; 0; -20]]] [[[1]]] [[[1; 2; 3]]] [[[5]]] _ _ _) _).
  - lia.
  - repeat constructor. exists 1%nat, 3%nat.
    split; (split; [reflexivity | repeat constructor]).
  - repeat constructor. exists 1%nat, 1%nat.
    split; (split; [reflexivity | repeat constructor]).
  - reflexivity.
Defined.

(** With a training-set size of 0 the two regularized updates raise
    [ZeroDivisionError] as soon as there is one layer to update, whatever
    the shapes; with no layer to update the division is never evaluated
    and they return empty lists of weights. *)
Theorem regularized_update_zero_n {R : Type} `{Scalar R}
    (eta lmbda : R) (w nw : ndarray R)
    (weights biases nabla_w nabla_b velocities : list (ndarray R)) (mu : R) :
  L2_regularization.update_step eta lmbda 0 (w :: weights) biases
                                (nw :: nabla_w) nabla_b velocities mu
  = Err ZeroDivisionError /\
  L1_regularization.update_step eta lmbda 0 (w :: weights) biases
                                (nw :: nabla_w) nabla_b
  = Err ZeroDivisionError /\
  L2_regularization.update_step eta lmbda 0 [] [] nabla_w nabla_b velocities mu
  = Ok [[]; []; velocities] /\
  L1_regularization.update_step eta lmbda 0 [] [] nabla_w nabla_b
  = Ok [[]; []].
Proof. repeat split. Qed.

(** The strategies pair their lists by position and stop at the shorter
    one.  When the L2 update returns, it returns as many weights as there
    are both weights and weight gradients, as many biases as there are
    both biases and bias gradients, and the velocities it was given.  When
    the momentum update returns, it returns as many velocities as there
    are both velocities and weight gradients, as many weights as there are
    weights and such new velocities (the least of the numbers of weights,
    velocities and weight gradients), and as many biases as there are
    both biases and bias gradients. *)
Theorem update_step_lengths {R : Type} `{Scalar R}
    (eta lmbda : R) (n : Z)
    (weights biases nabla_w nabla_b velocities : list (ndarray R)) (mu : R)
    (ws bs vs : list (ndarray R)) :
  (L2_regularization.update_step eta lmbda n weights biases nabla_w nabla_b
                                 velocities mu = Ok [ws; bs; vs] ->
   length ws = Nat.min (length weights) (length nabla_w) /\
   length bs = Nat.min (length biases) (length nabla_b) /\
   vs = velocities) /\
  (momentum.update_step eta lmbda n weights biases nabla_w nabla_b
                        velocities mu = Ok [ws; bs; vs] ->
   length vs = Nat.min (length velocities) (length nabla_w) /\
   length ws = Nat.min (length weights)
                       (Nat.min (length velocities) (length nabla_w)) /\
   length bs = Nat.min (length biases) (length nabla_b)).
Proof.
  split.
  - unfold L2_regularization.update_step. intros Hrun.
    destruct (mapM _ (zip weights nabla_w)) as [ws'|e] eqn:Ew; [|discriminate].
    simpl in Hrun.
    destruct (mapM _ (zip biases nabla_b)) as [bs'|e] eqn:Eb; [|discriminate].
    simpl in Hrun. injection Hrun as <- <- <-.
    apply mapM_length in Ew, Eb. rewrite length_zip in Ew, Eb. auto.
  - unfold momentum.update_step. intros Hrun.
    destruct (mapM _ (zip velocities nabla_w)) as [vs'|e] eqn:Ev; [|discriminate].
    simpl in Hrun.
    destruct (mapM _ (zip weights vs')) as [ws'|e] eqn:Ew; [|discriminate].
    simpl in Hrun.
    destruct (mapM _ (zip biases nabla_b)) as [bs'|e] eqn:Eb; [|discriminate].
    simpl in Hrun. injection Hrun as <- <- <-.
    apply mapM_length in Ev, Ew, Eb. rewrite length_zip in Ev, Ew, Eb.
    rewrite Ev in Ew. auto.
Qed.

Lemma update_step_lengths_witness :
  (length [[[8; 18]]] = Nat.min (length [[[10; 20]]; [[1; 1]]]) (length [[[1; 1]]])
   /\ length [[[-1]]] = Nat.min (length [[[1]]]) (length [[[1]]; [[2]]])
   /\ [[[7; 7]]] = [[[7; 7]]]) /\
  (length [[[-2; -2]]]
   = Nat.min (length [[[7; 7]]]) (length [[[1; 1]]; [[3; 3]]])
   /\ length [[[8; 18]]]
      = Nat.min (length [[[10; 20]]; [[1; 1]]])
                (Nat.min (length [[[7; 7]]]) (length [[[1; 1]]; [[3; 3]]]))
   /\ length [[[-1]]] = Nat.min (length [[[1]]]) (length [[[1]]; [[2]]])).
Proof.
  split.
  - refine (proj1 (@update_step_lengths Z Z_scalar 2 0 6
                     [[[10; 20]]; [[1; 1]]] [[[1]]] [[[1; 1]]] [[[1]]; [[2]]]
                     [[[7; 7]]] 0 [[[8; 18]]] [[[-1]]] [[[7; 7]]]) _).
    vm_compute. reflexivity.
  - refine (proj2 (@update_step_lengths Z Z_scalar 2 0 6
                     [[[10; 20]]; [[1; 1]]] [[[1]]] [[[1; 1]]; [[3; 3]]]
                     [[[1]]; [[2]]] [[[7; 7]]] 0
                     [[[8; 18]]] [[[-1]]] [[[-2; -2]]]) _).
    vm_compute. reflexivity.
Defined.

(** ** Mini-batches *)

Section mini_batch_facts.
Context {A : Type}.
Implicit Types l : list A.

Lemma chunks_concat (s : nat) (q : nat) : forall l,
  (length l <= q * s)%nat ->
  concat (map (fun k => take s (drop k l)) (map (fun i => (i * s)%nat) (seq 0 q)))
  = l.
Proof.
  induction q as [|q IH]; intros l Hl.
  - destruct l; [reflexivity | simpl in Hl; lia].
  - cbn [seq map concat]. rewrite Nat.mul_0_l, drop_0.
    transitivity (take s l ++ drop s l); [|apply take_drop].
    f_equal.
    etransitivity; [|apply (IH (drop s l)); rewrite length_drop; lia].
    f_equal. rewrite <- seq_shift, !map_map.
    apply map_ext. intros i.
    rewrite drop_drop. repeat f_equal; lia.
Qed.

Lemma ceil_div_bounds (n s : nat) :
  (0 < s)%nat ->
  (n <= (n + s - 1) / s * s)%nat /\
  (forall i, (i < (n + s - 1) / s)%nat -> (i * s < n)%nat).
Proof.
  intros Hs.
  pose proof (Nat.div_mod_eq (n + s - 1) s) as E.
  pose proof (Nat.mod_upper_bound (n + s - 1) s ltac:(lia)) as Hr.
  split; [nia|]. intros i Hi. nia.
Qed.

End mini_batch_facts.

(** The mini-batches cut out of the training data. *)
Lemma mini_batches_of_spec {A : Type} (training_data : list A)
    (mini_batch_size : Z) :
  (0 < mini_batch_size ->
   exists batches,
     mini_batches_of training_data mini_batch_size = Ok batches /\
     concat batches = training_data /\
     Forall (fun b => (0 < length b <= Z.to_nat mini_batch_size)%nat) batches /\
     (forall i b, (S i < length batches)%nat -> batches !! i = Some b ->
                  length b = Z.to_nat mini_batch_size)) /\
  (mini_batch_size = 0 ->
   mini_batches_of training_data mini_batch_size = Err ValueError) /\
  (mini_batch_size < 0 ->
   mini_batches_of training_data mini_batch_size = Ok []).
Proof.
  split; [|split].
  - intros Hpos. unfold mini_batches_of, py_range_step.
    rewrite decide_False by lia. rewrite decide_False by lia. simpl.
    set (s := Z.to_nat mini_batch_size).
    set (n := length training_data).
    assert (Hs : (0 < s)%nat) by lia.
    destruct (ceil_div_bounds n s Hs) as [Hq Hlt].
    eexists. split; [reflexivity|]. split; [|split].
    + apply chunks_concat. exact Hq.
    + apply Forall_map, Forall_map, Forall_forall. intros i Hi.
      apply elem_of_seq in Hi. simpl.
      rewrite length_take, length_drop. fold n.
      specialize (Hlt i ltac:(lia)). lia.
    + intros i b Hi Hb.
      rewrite !length_map, length_seq in Hi.
      rewrite !list_lookup_fmap in Hb.
      rewrite lookup_seq_lt in Hb by lia. simpl in Hb. injection Hb as <-.
      rewrite length_take, length_drop. fold n.
      specialize (Hlt (S i) ltac:(lia)). lia.
  - intros ->. reflexivity.
  - intros Hneg. unfold mini_batches_of, py_range_step.
    rewrite decide_False by lia. rewrite decide_True by lia. reflexivity.
Qed.

(** With a positive mini-batch size the mini-batches of an epoch partition
    the training data: concatenated in order they give the data back, none
    is empty, none is longer than the mini-batch size, and all but the last
    have exactly that size.  A size of 0 raises [ValueError]; a negative
    size gives no mini-batch at all. *)
Theorem mini_batches_partition {A : Type} (training_data : list A)
    (mini_batch_size : Z) :
  (0 < mini_batch_size ->
   exists batches,
     mini_batches_of training_data mini_batch_size = Ok batches /\
     concat batches = training_data /\
     Forall (fun b => (0 < length b <= Z.to_nat mini_batch_size)%nat) batches /\
     (forall i b, (S i < length batches)%nat -> batches !! i = Some b ->
                  length b = Z.to_nat mini_batch_size)) /\
  (mini_batch_size = 0 ->
   mini_batches_of training_data mini_batch_size = Err ValueError) /\
  (mini_batch_size < 0 ->
   mini_batches_of training_data mini_batch_size = Ok []).
Proof.
  destruct (mini_batches_of_spec training_data mini_batch_size) as (Hpos & H0 & Hneg).
  split; [exact Hpos|]. split; [exact H0 | exact Hneg].
Qed.

Lemma mini_batches_partition_witness :
  exists batches,
    mini_batches_of [1; 2; 3; 4; 5] 2 = Ok batches /\
    concat batches = [1; 2; 3; 4; 5].
Proof.
  destruct (proj1 (mini_batches_partition [1; 2; 3; 4; 5] 2) ltac:(lia))
    as (batches & E1 & E2 & _).
  exists batches. split; [exact E1 | exact E2].
Defined.

(** ** [feedforward] *)

Section feedforward_facts.
Context {R : Type} `{Scalar R}.

Lemma feedforward_forward_loop (bws : list (ndarray R * ndarray R)) :
  forall (a : ndarray R) (acts zs : list (ndarray R)),
    match Network.forward_loop bws a (acts ++ [a]) zs with
    | Ok (acts', zs') =>
        exists out, last acts' = Some out /\ Network.feedforward_loop bws a = Ok out
    | Err e => Network.feedforward_loop bws a = Err e
    end.
Proof.
  induction bws as [|[b w] bws IH]; intros a acts zs.
  - simpl. exists a. split; [apply last_snoc | reflexivity].
  - cbn [Network.forward_loop Network.feedforward_loop].
    destruct (np_dot w a) as [d|e]; [|reflexivity]. simpl.
    destruct (np_add d b) as [z|e]; [|reflexivity]. simpl.
    apply (IH (sigmoid z) (acts ++ [a]) (zs ++ [z])).
Qed.

End feedforward_facts.

(** [feedforward] computes the last of the activations that [backprop]
    caches in its forward pass, and raises exactly when that pass raises,
    with the same exception. *)
Theorem feedforward_is_forward_pass {R : Type} `{Scalar R}
    (self : Network.t R) (X : ndarray R) :
  match Network.forward_loop (zip (Network.biases self) (Network.weights self))
                             X [X] [] with
  | Ok (activations, zs) =>
      exists out, last activations = Some out /\ Network.feedforward self X = Ok out
  | Err e => Network.feedforward self X = Err e
  end.
Proof.
  exact (feedforward_forward_loop
           (zip (Network.biases self) (Network.weights self)) X [] []).
Qed.

(** A run of [feedforward] on a well-shaped input. *)
Lemma feedforward_run {R : Type} `{Scalar R}
    (self : Network.t R) (X : ndarray R) (m : nat) :
  well_formed self ->
  (0 < m)%nat ->
  has_shape (layer_width self 0) m X ->
  exists out,
    Network.feedforward self X = Ok out /\
    has_shape (layer_width self (length (Network.weights self))) m out.
Proof.
  intros Hwf Hm HX.
  destruct (forward_loop_spec self X m Hwf Hm (length (Network.weights self))
              0 X [X] [])
    as (acts & zs & Hfwd & Hinv);
    [lia | apply fwd_inv_start; assumption | reflexivity |].
  rewrite drop_0 in Hfwd.
  pose proof (Hloop := feedforward_forward_loop
                (zip (Network.biases self) (Network.weights self)) X [] []).
  simpl app in Hloop.
  rewrite Hfwd in Hloop.
  destruct Hloop as (out & Hlast & Hff).
  exists out. split; [exact Hff|].
  destruct Hinv as (_ & Hla & _ & Hsa & _).
  rewrite last_lookup, Hla in Hlast. simpl in Hlast.
  eapply Hsa. exact Hlast.
Qed.

(** On a well-formed network, [feedforward] of [m >= 1] inputs stacked as
    the columns of an array of [sizes[0]] rows returns an array of
    [sizes[-1]] rows and [m] columns. *)
Theorem feedforward_shape {R : Type} `{Scalar R}
    (self : Network.t R) (X : ndarray R) (m : nat) :
  well_formed self ->
  (0 < m)%nat ->
  has_shape (layer_width self 0) m X ->
  exists out,
    Network.feedforward self X = Ok out /\
    has_shape (layer_width self (length (Network.weights self))) m out.
Proof.
  intros Hwf Hm HX.
  destruct (feedforward_run self X m Hwf Hm HX) as (out & Hff & Hso).
  exists out. split; [exact Hff | exact Hso].
Qed.

Lemma feedforward_shape_witness :
  exists out,
    @Network.feedforward Z Z_scalar (example_net reg_L2 10) [[1; 2]; [4; 5]]
    = Ok out /\
    has_shape 1 2 out.
Proof.
  apply (@feedforward_shape Z Z_scalar (example_net reg_L2 10) [[1; 2]; [4; 5]] 2).
  - apply example_net_well_formed.
  - lia.
  - split; [reflexivity | repeat constructor].
Defined.

(** ** The shapes of the gradients *)

Section gradient_shapes.
Context {R : Type} `{Scalar R}.

Lemma has_shape_bias_gradient (r c m : nat) (delta : ndarray R) :
  has_shape r c delta -> has_shape r 1 (bias_gradient m delta).
Proof.
  intros [Hlen _]. unfold bias_gradient. split.
  - rewrite length_map. exact Hlen.
  - apply Forall_map, Forall_forall. intros row _. reflexivity.
Qed.

Lemma weight_gradient_shape (r c m : nat) (delta a : ndarray R) :
  has_shape r m delta -> has_shape c m a ->
  (0 < r)%nat -> (0 < c)%nat -> (0 < m)%nat ->
  exists g, weight_gradient m delta a = Ok g /\ has_shape r c g.
Proof.
  intros Hd Ha Hr Hc Hm. unfold weight_gradient.
  destruct (np_dot_shape _ _ _ delta (transpose a) Hd
              (has_shape_transpose _ _ _ Ha Hc) Hr Hm) as (d & -> & Hsd).
  simpl. eexists. split; [reflexivity | apply has_shape_np_map; exact Hsd].
Qed.

Lemma has_shape_same_shape (r c : nat) (A B : ndarray R) :
  has_shape r c A -> has_shape r c B -> same_shape A B.
Proof. intros HA HB. exists r, c. split; assumption. Qed.

(** A run of [backprop] on a well-formed network and a well-shaped
    batch, with the shapes of what it computes. *)
Lemma backprop_run (self : Network.t R) (X Y : ndarray R) (m : nat) :
  well_formed self ->
  (0 < m)%nat ->
  has_shape (layer_width self 0) m X ->
  has_shape (layer_width self (length (Network.weights self))) m Y ->
  exists zs acts deltas nabla_b nabla_w : list (ndarray R),
    Network.backprop self X Y = Ok (nabla_b, nabla_w) /\
    fwd_inv self X m (length (Network.weights self)) acts zs /\
    length deltas = length (Network.weights self) /\
    length nabla_b = length (Network.weights self) /\
    length nabla_w = length (Network.weights self) /\
    forall l delta,
      deltas !! l = Some delta ->
      has_shape (layer_width self (S l)) m delta /\
      nabla_b !! l = Some (bias_gradient m delta) /\
      exists a g, acts !! l = Some a /\
                  weight_gradient m delta a = Ok g /\ nabla_w !! l = Some g.
Proof.
  intros Hwf Hm HX HY.
  set (L := length (Network.weights self)) in *.
  pose proof Hwf as (Hnl & Hlen2 & Hlw & Hlb & _).
  fold L in Hlw.
  destruct (forward_loop_spec self X m Hwf Hm L 0 X [X] [])
    as (acts & zs & Hfwd & Hinv);
    [lia | apply fwd_inv_start; assumption | reflexivity |].
  rewrite drop_0 in Hfwd. fold L in Hinv.
  pose proof Hinv as (Hlz & Hla & _).
  destruct (zs_lookup self X m zs acts Hinv (L - 1)) as (z & Hz & Hsz);
    [fold L; lia|].
  destruct (acts_lookup self X m zs acts Hinv L) as (a_last & Hal & Hsal);
    [fold L; lia|].
  destruct (acts_lookup self X m zs acts Hinv (L - 1)) as (a_prev & Hap & Hsap);
    [fold L; lia|].
  replace (S (L - 1)) with L in Hsz by lia.
  destruct (sizes_lookup self Hwf 0) as [_ Hp0]; [lia|].
  destruct (sizes_lookup self Hwf (L - 1)) as [_ Hp1]; [fold L; lia|].
  destruct (sizes_lookup self Hwf L) as [_ Hp2]; [fold L; lia|].
  destruct (cost_delta_shape (Network.cost self) _ _ z a_last Y Hsz Hsal HY)
    as (delta & Hdelta & Hsdelta).
  destruct (np_dot_shape _ _ _ delta (transpose a_prev) Hsdelta
              (has_shape_transpose _ _ _ Hsap Hp1) Hp2 Hm)
    as (d & Hd & _).
  set (nb0 := map (fun b => np_zeros (nrows b) (ncols b)) (Network.biases self)).
  set (nw0 := map (fun w => np_zeros (nrows w) (ncols w)) (Network.weights self)).
  assert (Hnb0 : length nb0 = L) by (unfold nb0; rewrite length_map; lia).
  assert (Hnw0 : length nw0 = L) by (unfold nw0; rewrite length_map; reflexivity).
  destruct (backward_loop_spec self X m Hwf Hm zs acts Hinv (L - 1) 2 delta
              (<[(L - 1)%nat := np_mean_axis1 delta]> nb0)
              (<[(L - 1)%nat := np_div_int d (Z.of_nat m)]> nw0) [delta])
    as (ds_low & nb' & nw' & Hrun & Hlow & Hnb' & Hnw' & _ & Hgrad & Hframe);
    [fold L; lia | lia | rewrite length_insert; exact Hnb0
     | rewrite length_insert; exact Hnw0
     | replace (S (L - 1)) with L by lia; exact Hsdelta | reflexivity |].
  exists zs, acts, (ds_low ++ [delta]), nb', nw'.
  split.
  { unfold Network.backprop. fold nb0 nw0. rewrite Hfwd. simpl.
    rewrite (py_getitem_neg zs (-1) (L - 1)%nat z)
      by (rewrite ?Hlz; first [lia | exact Hz]).
    simpl.
    rewrite (py_getitem_neg acts (-1) L a_last)
      by (rewrite ?Hla; first [lia | exact Hal]).
    simpl. rewrite Hdelta. simpl.
    rewrite (py_setitem_neg nb0 (-1) (L - 1)%nat) by (rewrite ?Hnb0; lia).
    simpl.
    rewrite (py_getitem_neg acts (-2) (L - 1)%nat a_prev)
      by (rewrite ?Hla; first [lia | exact Hap]).
    simpl. rewrite Hd. simpl.
    rewrite (has_shape_ncols _ _ _ HX Hp0).
    rewrite (py_setitem_neg nw0 (-1) (L - 1)%nat) by (rewrite ?Hnw0; lia).
    simpl.
    replace (Network.num_layers self - 2)%nat with (L - 1)%nat by lia.
    exact Hrun. }
  split; [exact Hinv|].
  split; [rewrite length_app; simpl; lia|].
  split; [exact Hnb'|]. split; [exact Hnw'|].
  intros l delta0 Hl.
  apply lookup_app_Some in Hl as [Hl|[Hge Hl]].
  - apply Hgrad. exact Hl.
  - unfold ndarray in Hlow, Hge, Hl. rewrite Hlow in Hge, Hl.
    destruct (l - (L - 1))%nat as [|j] eqn:Ej; [|discriminate].
    injection Hl as <-. assert (l = (L - 1)%nat) by lia. subst l.
    destruct (Hframe (L - 1)%nat) as [F1 F2]; [lia|].
    replace (S (L - 1)) with L by lia.
    split; [exact Hsdelta|]. split.
    + rewrite F1, list_lookup_insert_eq by lia.
      rewrite (np_mean_axis1_batch m _ _ Hsdelta). reflexivity.
    + exists a_prev, (np_div_int d (Z.of_nat m)). split; [exact Hap|]. split.
      * unfold weight_gradient. rewrite Hd. reflexivity.
      * rewrite F2, list_lookup_insert_eq by lia. reflexivity.
Qed.

End gradient_shapes.

(** The shapes of the gradients of a run of [backprop]. *)
Lemma backprop_shapes_aux {R : Type} `{Scalar R}
    (self : Network.t R) (X Y : ndarray R) (m : nat) :
  well_formed self ->
  (0 < m)%nat ->
  has_shape (layer_width self 0) m X ->
  has_shape (layer_width self (length (Network.weights self))) m Y ->
  exists nabla_b nabla_w : list (ndarray R),
    Network.backprop self X Y = Ok (nabla_b, nabla_w) /\
    length nabla_b = length (Network.biases self) /\
    length nabla_w = length (Network.weights self) /\
    (forall l nb, nabla_b !! l = Some nb ->
       has_shape (layer_width self (S l)) 1 nb) /\
    (forall l nw, nabla_w !! l = Some nw ->
       has_shape (layer_width self (S l)) (layer_width self l) nw) /\
    Forall2 same_shape (Network.biases self) nabla_b /\
    Forall2 same_shape (Network.weights self) nabla_w.
Proof.
  intros Hwf Hm HX HY.
  destruct (backprop_run self X Y m Hwf Hm HX HY)
    as (zs & acts & deltas & nb & nw & Hrun & Hinv & Hld & Hlb & Hlw & Hg).
  pose proof Hwf as (_ & _ & Hlws & Hlbs & _).
  exists nb, nw. split; [exact Hrun|].
  split; [lia|]. split; [exact Hlw|].
  assert (Hb : forall l x, nb !! l = Some x ->
                 has_shape (layer_width self (S l)) 1 x).
  { intros l x Hx.
    destruct (lookup_lt_is_Some_2 deltas l) as [delta Hd].
    { apply lookup_lt_Some in Hx. lia. }
    destruct (Hg l delta Hd) as (Hsd & Eb & _).
    rewrite Eb in Hx. injection Hx as <-.
    eapply has_shape_bias_gradient. exact Hsd. }
  assert (Hw : forall l x, nw !! l = Some x ->
                 has_shape (layer_width self (S l)) (layer_width self l) x).
  { intros l x Hx.
    assert (Hl : (l < length (Network.weights self))%nat).
    { apply lookup_lt_Some in Hx. lia. }
    destruct (lookup_lt_is_Some_2 deltas l) as [delta Hd]; [lia|].
    destruct (Hg l delta Hd) as (Hsd & _ & a & g & Ha & Eg & Ew).
    rewrite Ew in Hx. injection Hx as <-.
    destruct Hinv as (_ & _ & _ & Hsa & _).
    destruct (sizes_lookup self Hwf l) as [_ Hp0]; [lia|].
    destruct (sizes_lookup self Hwf (S l)) as [_ Hp1]; [lia|].
    destruct (weight_gradient_shape _ _ m delta a Hsd (Hsa _ _ Ha) Hp1 Hp0 Hm)
      as (g' & Eg' & Hsg).
    rewrite Eg in Eg'. injection Eg' as <-. exact Hsg. }
  split; [exact Hb|]. split; [exact Hw|]. split.
  - apply Forall2_same_length_lookup_2; [lia|].
    intros l b x Hbl Hx.
    destruct (layer_lookup self Hwf l) as (b' & w' & Eb & _ & Hsb & _).
    { apply lookup_lt_Some in Hx. lia. }
    rewrite Eb in Hbl. injection Hbl as <-.
    eapply has_shape_same_shape; [exact Hsb | apply Hb; exact Hx].
  - apply Forall2_same_length_lookup_2; [lia|].
    intros l w x Hwl Hx.
    destruct (layer_lookup self Hwf l) as (b' & w' & _ & Ew & _ & Hsw).
    { apply lookup_lt_Some in Hx. lia. }
    rewrite Ew in Hwl. injection Hwl as <-.
    eapply has_shape_same_shape; [exact Hsw | apply Hw; exact Hx].
Qed.

(** On a well-formed network and a well-shaped batch, the gradients that
    [backprop] returns are, layer by layer, of the shapes of
    [self.biases] and [self.weights]: [nabla_b[l]] is a column of
    [sizes[l+1]] rows and [nabla_w[l]] has [sizes[l+1]] rows and [sizes[l]]
    columns. *)
Theorem backprop_gradient_shapes {R : Type} `{Scalar R}
    (self : Network.t R) (X Y : ndarray R) (m : nat) :
  well_formed self ->
  (0 < m)%nat ->
  has_shape (layer_width self 0) m X ->
  has_shape (layer_width self (length (Network.weights self))) m Y ->
  exists nabla_b nabla_w : list (ndarray R),
    Network.backprop self X Y = Ok (nabla_b, nabla_w) /\
    length nabla_b = length (Network.biases self) /\
    length nabla_w = length (Network.weights self) /\
    (forall l nb, nabla_b !! l = Some nb ->
       has_shape (layer_width self (S l)) 1 nb) /\
    (forall l nw, nabla_w !! l = Some nw ->
       has_shape (layer_width self (S l)) (layer_width self l) nw) /\
    Forall2 same_shape (Network.biases self) nabla_b /\
    Forall2 same_shape (Network.weights self) nabla_w.
Proof.
  intros Hwf Hm HX HY.
  destruct (backprop_shapes_aux self X Y m Hwf Hm HX HY)
    as (nb & nw & Hrun & Hlb & Hlw & Hb & Hw & Fb & Fw).
  exists nb, nw. split; [exact Hrun|].
  split; [exact Hlb|]. split; [exact Hlw|].
  split; [exact Hb|]. split; [exact Hw|]. split; [exact Fb | exact Fw].
Qed.

Lemma backprop_gradient_shapes_witness :
  exists nabla_b nabla_w : list (ndarray Z),
    @Network.backprop Z Z_scalar (example_net reg_L2 10)
       [[1; 2; 3]; [4; 5; 6]] [[1; 0; 1]]
    = Ok (nabla_b, nabla_w) /\
    Forall2 same_shape (Network.weights (example_net reg_L2 10)) nabla_w.
Proof.
  destruct (@backprop_gradient_shapes Z Z_scalar (example_net reg_L2 10)
              [[1; 2; 3]; [4; 5; 6]] [[1; 0; 1]] 3)
    as (nb & nw & Hrun & _ & _ & _ & _ & _ & Hw).
  - apply example_net_well_formed.
  - lia.
  - split; [reflexivity | repeat constructor].
  - split; [reflexivity | repeat constructor].
  - exists nb, nw. split; [exact Hrun | exact Hw].
Defined.

(** ** [update_mini_batch] keeps the network trainable *)

Section update_mini_batch_facts.
Context {R : Type} `{Scalar R}.
Implicit Types A B C : ndarray R.

Lemma same_shape_trans A B C : same_shape A B -> same_shape B C -> same_shape A C.
Proof.
  intros (r & c & HA & HB) (r' & c' & HB' & HC).
  assert (r' = r) by (destruct HB, HB'; congruence). subst r'.
  destruct r as [|r].
  - rewrite (has_shape_nil_inv _ _ HA), (has_shape_nil_inv _ _ HC).
    exists 0%nat, 0%nat. split; (split; [reflexivity | constructor]).
  - assert (c' = c).
    { rewrite <- (has_shape_ncols _ _ _ HB) by lia.
      rewrite <- (has_shape_ncols _ _ _ HB') by lia. reflexivity. }
    subst c'. exists (S r), c. split; assumption.
Qed.

Lemma has_shape_of_same_shape r c A B :
  has_shape r c A -> same_shape B A -> (0 < r)%nat -> has_shape r c B.
Proof.
  intros HA (r' & c' & HB & HA') Hr.
  assert (r' = r) by (destruct HA, HA'; congruence). subst r'.
  assert (c' = c).
  { rewrite <- (has_shape_ncols _ _ _ HA) by lia.
    rewrite <- (has_shape_ncols _ _ _ HA') by lia. reflexivity. }
  subst c'. exact HB.
Qed.

Lemma Forall2_same_shape_sym (l k : list (ndarray R)) :
  Forall2 same_shape l k -> Forall2 same_shape k l.
Proof.
  intros Hl. apply Forall2_flip. eapply Forall2_impl; [exact Hl|].
  intros A B. apply same_shape_sym.
Qed.

Lemma Forall2_same_shape_trans (l k j : list (ndarray R)) :
  Forall2 same_shape l k -> Forall2 same_shape k j -> Forall2 same_shape l j.
Proof. apply Forall2_trans. apply same_shape_trans. Qed.

(** Replacing the parameters by arrays of the same shapes keeps the
    network well formed. *)
Lemma well_formed_set_params (self : Network.t R) (ws bs vs : list (ndarray R)) :
  well_formed self ->
  Forall2 same_shape ws (Network.weights self) ->
  Forall2 same_shape bs (Network.biases self) ->
  well_formed (Network.set_params self ws bs vs).
Proof.
  intros (Hnl & Hlen2 & Hlw & Hlb & Hpos & Hsh) Hws Hbs.
  pose proof (Forall2_length _ _ _ Hws) as Lw.
  pose proof (Forall2_length _ _ _ Hbs) as Lb.
  unfold well_formed. simpl.
  split; [exact Hnl|]. split; [exact Hlen2|].
  split; [lia|]. split; [lia|]. split; [exact Hpos|].
  intros l x y Hx Hy.
  destruct (Hsh l x y Hx Hy) as (b & w & Eb & Ew & Hsb & Hsw).
  destruct (Forall2_lookup_r _ _ _ _ _ Hws Ew) as (w' & Ew' & Sw).
  destruct (Forall2_lookup_r _ _ _ _ _ Hbs Eb) as (b' & Eb' & Sb).
  pose proof (Hpos _ _ Hy) as Hy0.
  exists b', w'. split; [exact Eb'|]. split; [exact Ew'|].
  split; eapply has_shape_of_same_shape; eauto.
Qed.

Lemma has_shape_zip_app (r j k : nat) (A B : ndarray R) :
  has_shape r j A -> has_shape r k B -> has_shape r (j + k) (zip_with app A B).
Proof.
  intros [HrA HcA] [HrB HcB]. split.
  - rewrite length_zip_with. lia.
  - clear HrA HrB. revert B HcB.
    induction HcA as [|row A Hrow _ IH]; intros B HcB; [constructor|].
    destruct HcB as [|row' B Hrow' HcB]; [constructor|].
    simpl. constructor; [rewrite length_app; lia | apply IH; exact HcB].
Qed.

(** Stacking [k >= 1] columns of [r] rows gives [r] rows and [k] columns. *)
Lemma np_column_stack_shape (r : nat) (cols : list (ndarray R)) :
  cols <> [] ->
  Forall (has_shape r 1) cols ->
  exists X, np_column_stack cols = Ok X /\ has_shape r (length cols) X.
Proof.
  intros Hne Hall. destruct Hall as [|c cs Hc Hcs]; [congruence|].
  unfold np_column_stack.
  assert (E : forallb (fun c' => Nat.eqb (nrows c') (nrows c)) cs = true).
  { apply forallb_forall. intros c' Hc'. apply Nat.eqb_eq.
    rewrite Forall_forall in Hcs. apply list_elem_of_In in Hc'.
    destruct (Hcs _ Hc') as [E' _]. destruct Hc as [E'' _].
    unfold nrows. congruence. }
  rewrite E. eexists. split; [reflexivity|].
  simpl length. clear E Hne.
  assert (G : forall j c0, has_shape r j c0 ->
                has_shape r (j + length cs) (foldl (zip_with app) c0 cs)).
  { induction Hcs as [|c1 cs Hc1 _ IH]; intros j c0 Hc0.
    - simpl. rewrite Nat.add_0_r. exact Hc0.
    - simpl. replace (j + S (length cs))%nat with ((j + 1) + length cs)%nat by lia.
      apply IH. apply has_shape_zip_app; assumption. }
  apply (G 1%nat c Hc).
Qed.

Lemma mini_batch_stack (self : Network.t R)
    (mini_batch : list (ndarray R * ndarray R)) :
  mini_batch <> [] ->
  Forall (well_shaped_sample self) mini_batch ->
  exists X Y,
    np_column_stack (map fst mini_batch) = Ok X /\
    np_column_stack (map snd mini_batch) = Ok Y /\
    has_shape (layer_width self 0) (length mini_batch) X /\
    has_shape (layer_width self (length (Network.weights self)))
              (length mini_batch) Y.
Proof.
  intros Hne Hall.
  destruct (np_column_stack_shape (layer_width self 0) (map fst mini_batch))
    as (X & EX & HX).
  { destruct mini_batch; [congruence | discriminate]. }
  { apply Forall_map. eapply Forall_impl; [exact Hall|]. intros xy [Hx _]. exact Hx. }
  destruct (np_column_stack_shape
              (layer_width self (length (Network.weights self)))
              (map snd mini_batch))
    as (Y & EY & HY).
  { destruct mini_batch; [congruence | discriminate]. }
  { apply Forall_map. eapply Forall_impl; [exact Hall|]. intros xy [_ Hy]. exact Hy. }
  rewrite length_map in HX, HY. exists X, Y. auto.
Qed.

(** One update on a trainable network. *)
Lemma update_mini_batch_run (self : Network.t R)
    (mini_batch : list (ndarray R * ndarray R)) (eta lmbda : R) (n : Z) (mu : R) :
  trainable self ->
  mini_batch <> [] ->
  Forall (well_shaped_sample self) mini_batch ->
  n <> 0 ->
  exists self',
    Network.update_mini_batch self mini_batch eta lmbda n mu = Ok self' /\
    trainable self' /\
    Network.sizes self' = Network.sizes self /\
    Network.num_layers self' = Network.num_layers self /\
    Network.cost self' = Network.cost self /\
    Network.reg self' = Network.reg self /\
    Network.learning_rate self' = Network.learning_rate self /\
    Forall2 same_shape (Network.weights self') (Network.weights self) /\
    Forall2 same_shape (Network.biases self') (Network.biases self).
Proof.
  intros (Hwf & Hvel & Hreg) Hne Hall Hn.
  destruct (mini_batch_stack self mini_batch Hne Hall) as (X & Y & EX & EY & HX & HY).
  assert (Hm : (0 < length mini_batch)%nat).
  { destruct mini_batch; [congruence | simpl; lia]. }
  destruct (backprop_shapes_aux self X Y _ Hwf Hm HX HY)
    as (nb & nw & Hrun & _ & _ & _ & _ & Fb & Fw).
  unfold Network.update_mini_batch. cbv zeta.
  rewrite EX. simpl. rewrite EY. simpl. rewrite Hrun. simpl.
  assert (Hfin : forall ws bs vs,
            Forall2 same_shape ws (Network.weights self) ->
            Forall2 same_shape bs (Network.biases self) ->
            Forall2 same_shape vs ws ->
            exists self',
              Ok (Network.set_params self ws bs vs) = Ok self' /\
              trainable self' /\
              Network.sizes self' = Network.sizes self /\
              Network.num_layers self' = Network.num_layers self /\
              Network.cost self' = Network.cost self /\
              Network.reg self' = Network.reg self /\
              Network.learning_rate self' = Network.learning_rate self /\
              Forall2 same_shape (Network.weights self') (Network.weights self) /\
              Forall2 same_shape (Network.biases self') (Network.biases self)).
  { intros ws bs vs Hws Hbs Hvs. eexists. split; [reflexivity|].
    split; [|simpl; auto 10].
    split; [apply well_formed_set_params; assumption|].
    split; [exact Hvs | exact Hreg]. }
  assert (Hbs : Forall2 same_shape
                  (zip_with (elementwise (fun b g => rsub b (rmul eta g)))
                            (Network.biases self) nb)
                  (Network.biases self)).
  { apply Forall2_same_shape_sym, Forall2_same_shape_zip_with; assumption. }
  destruct (Network.reg self) eqn:Ereg; [| |congruence].
  - unfold py_call9. simpl. unfold L2_regularization.update_step.
    rewrite (L2_weights_step eta lmbda n _ _ Hn Fw). simpl.
    rewrite (bias_step eta _ _ Fb). simpl.
    assert (Hws : Forall2 same_shape
                    (zip_with
                       (elementwise (fun w g =>
                          rsub (rmul (rsub (of_Z 1) (rdiv (rmul eta lmbda) (of_Z n))) w)
                               (rmul eta g)))
                       (Network.weights self) nw)
                    (Network.weights self)).
    { apply Forall2_same_shape_sym, Forall2_same_shape_zip_with; assumption. }
    apply Hfin; [exact Hws | exact Hbs |].
    eapply Forall2_same_shape_trans; [exact Hvel|].
    apply Forall2_same_shape_sym. exact Hws.
  - unfold py_call9. simpl. unfold momentum.update_step.
    assert (Fv : Forall2 same_shape (Network.velocities self) nw).
    { eapply Forall2_same_shape_trans; [exact Hvel | exact Fw]. }
    rewrite (momentum_velocities_step eta mu _ _ Fv). simpl.
    set (vs := zip_with (elementwise (fun v g => rsub (rmul mu v) (rmul eta g)))
                        (Network.velocities self) nw).
    assert (Hvs : Forall2 same_shape (Network.weights self) vs).
    { apply Forall2_same_shape_zip_with; assumption. }
    rewrite (momentum_weights_step _ _ Hvs). simpl.
    rewrite (bias_step eta _ _ Fb). simpl.
    assert (Hws : Forall2 same_shape
                    (zip_with (elementwise radd) (Network.weights self) vs)
                    (Network.weights self)).
    { apply Forall2_same_shape_sym.
      apply Forall2_same_shape_zip_with; exact Hvs. }
    apply Hfin; [exact Hws | exact Hbs |].
    eapply Forall2_same_shape_trans; [|apply Forall2_same_shape_sym; exact Hws].
    apply Forall2_same_shape_sym. exact Hvs.
Qed.

End update_mini_batch_facts.

(** A mini-batch update on a trainable network, with a non-empty
    mini-batch of well-shaped samples and a non-zero training-set size,
    returns; the network it leaves is trainable again, with the same
    sizes, cost, strategy and tracker and with parameters of the same
    shapes.  On an empty mini-batch the update raises [ValueError]. *)
Theorem update_mini_batch_keeps_trainable {R : Type} `{Scalar R}
    (self : Network.t R) (mini_batch : list (ndarray R * ndarray R))
    (eta lmbda : R) (n : Z) (mu : R) :
  (trainable self ->
   mini_batch <> [] ->
   Forall (well_shaped_sample self) mini_batch ->
   n <> 0 ->
   exists self',
     Network.update_mini_batch self mini_batch eta lmbda n mu = Ok self' /\
     trainable self' /\
     Network.sizes self' = Network.sizes self /\
     Network.num_layers self' = Network.num_layers self /\
     Network.cost self' = Network.cost self /\
     Network.reg self' = Network.reg self /\
     Network.learning_rate self' = Network.learning_rate self /\
     Forall2 same_shape (Network.weights self') (Network.weights self) /\
     Forall2 same_shape (Network.biases self') (Network.biases self)) /\
  Network.update_mini_batch self [] eta lmbda n mu = Err ValueError.
Proof.
  split; [|reflexivity].
  intros Htr Hne Hall Hn.
  destruct (update_mini_batch_run self mini_batch eta lmbda n mu Htr Hne Hall Hn)
    as (self' & Hrun & Hrest).
  exists self'. split; [exact Hrun | exact Hrest].
Qed.

Lemma example_net_trainable (patience : Z) :
  trainable (example_net reg_momentum patience).
Proof.
  split; [apply example_net_well_formed|]. split; [|discriminate].
  simpl. repeat constructor.
  - exists 2%nat, 2%nat. split; (split; [reflexivity | repeat constructor]).
  - exists 1%nat, 2%nat. split; (split; [reflexivity | repeat constructor]).
Defined.

Lemma example_batch_well_shaped (reg : reg_class) (patience : Z) :
  Forall (well_shaped_sample (example_net reg patience)) example_batch.
Proof.
  repeat constructor.
Defined.

Lemma update_mini_batch_keeps_trainable_witness :
  exists self',
    @Network.update_mini_batch Z Z_scalar (example_net reg_momentum 10)
       example_batch 1 0 2 0 = Ok self' /\
    trainable self'.
Proof.
  destruct (proj1 (@update_mini_batch_keeps_trainable Z Z_scalar
                     (example_net reg_momentum 10) example_batch 1 0 2 0))
    as (self' & Hrun & Htr & _).
  - apply example_net_trainable.
  - discriminate.
  - apply example_batch_well_shaped.
  - lia.
  - exists self'. split; [exact Hrun | exact Htr].
Defined.

(** ** Construction *)

Section init_facts.
Context {R G : Type} `{Scalar R} `{Random R G}.
Hypothesis randn_shape : forall (r c : nat) (g : G), has_shape r c (randn r c g).1.

Lemma randn_biases_shapes (ys : list nat) : forall g : G,
  Forall2 (fun b y => has_shape y 1 b) (Network.randn_biases ys g).1 ys.
Proof.
  induction ys as [|y ys IH]; intros g; [constructor|].
  simpl. pose proof (randn_shape y 1 g) as Hb.
  destruct (randn y 1 g) as [b g1]. simpl in Hb.
  specialize (IH g1). destruct (Network.randn_biases ys g1) as [bs g2].
  simpl in *. constructor; assumption.
Qed.

Lemma randn_weights_shapes (xys : list (nat * nat)) : forall g : G,
  Forall2 (fun w xy => has_shape xy.2 xy.1 w) (Network.randn_weights xys g).1 xys.
Proof.
  induction xys as [|[x y] xys IH]; intros g; [constructor|].
  simpl. pose proof (randn_shape y x g) as Hw.
  destruct (randn y x g) as [w g1]. simpl in Hw.
  specialize (IH g1). destruct (Network.randn_weights xys g1) as [ws g2].
  simpl in *. constructor; [|assumption].
  simpl. apply has_shape_np_map. exact Hw.
Qed.

Lemma has_shape_np_zeros (r c : nat) : has_shape r c (@np_zeros R _ r c).
Proof.
  unfold np_zeros. split; [apply length_replicate|].
  apply Forall_forall. intros row Hrow.
  apply elem_of_replicate in Hrow as [-> _]. apply length_replicate.
Qed.

Lemma init_run (sizes : list nat) (cst : cost_class) (reg : reg_class)
    (patience : Z) (g : G) :
  (2 <= length sizes)%nat ->
  Forall (fun x => (0 < x)%nat) sizes ->
  let self := (Network.init sizes cst reg patience g).1 in
  well_formed self /\
  Network.sizes self = sizes /\
  Network.cost self = cst /\ Network.reg self = reg /\
  Network.learning_rate self = LearningRate.init patience /\
  Forall2 same_shape (Network.velocities self) (Network.weights self) /\
  Network.velocities self
  = map (fun w => np_zeros (nrows w) (ncols w)) (Network.weights self).
Proof.
  intros Hlen Hpos. unfold Network.init.
  pose proof (randn_biases_shapes (drop 1 sizes) g) as Hbs.
  destruct (Network.randn_biases (drop 1 sizes) g) as [bs g1]. simpl in Hbs.
  pose proof (randn_weights_shapes
                (zip (take (length sizes - 1) sizes) (drop 1 sizes)) g1) as Hws.
  destruct (Network.randn_weights _ g1) as [ws g2]. simpl in Hws.
  cbv zeta. simpl.
  pose proof (Forall2_length _ _ _ Hbs) as Lb.
  pose proof (Forall2_length _ _ _ Hws) as Lw.
  rewrite length_drop in Lb.
  rewrite length_zip, length_take, length_drop in Lw.
  assert (Hlook : forall l x y,
            sizes !! l = Some x -> sizes !! S l = Some y ->
            exists b w, bs !! l = Some b /\ ws !! l = Some w /\
                        has_shape y 1 b /\ has_shape y x w).
  { intros l x y Hx Hy.
    assert (Hl : (S l < length sizes)%nat) by (apply lookup_lt_Some in Hy; exact Hy).
    assert (Ed : drop 1 sizes !! l = Some y) by (rewrite lookup_drop; exact Hy).
    assert (Ez : zip (take (length sizes - 1) sizes) (drop 1 sizes) !! l
                 = Some (x, y)).
    { apply lookup_zip_with_Some. exists x, y. split; [reflexivity|].
      split; [|exact Ed]. rewrite lookup_take_lt by lia. exact Hx. }
    destruct (Forall2_lookup_r _ _ _ _ _ Hbs Ed) as (b & Eb & Hb).
    destruct (Forall2_lookup_r _ _ _ _ _ Hws Ez) as (w & Ew & Hw).
    exists b, w. auto. }
  split.
  { unfold well_formed. simpl.
    split; [reflexivity|]. split; [exact Hlen|].
    split; [lia|]. split; [lia|]. split; [|exact Hlook].
    intros l x Hx. rewrite Forall_forall in Hpos. apply Hpos.
    eapply list_elem_of_lookup_2. exact Hx. }
  do 4 (split; [reflexivity|]). split; [|reflexivity].
  apply Forall2_same_length_lookup_2; [rewrite length_map; reflexivity|].
  intros l v w Hv Hw. rewrite list_lookup_fmap, Hw in Hv. simpl in Hv.
  injection Hv as <-.
  assert (Hl : (l < length ws)%nat) by (apply lookup_lt_Some in Hw; exact Hw).
  destruct (lookup_lt_is_Some_2 sizes l) as [x Hx]; [lia|].
  destruct (lookup_lt_is_Some_2 sizes (S l)) as [y Hy]; [lia|].
  destruct (Hlook l x y Hx Hy) as (b & w' & _ & Ew & _ & Hsw).
  rewrite Hw in Ew. injection Ew as <-.
  assert (Hy0 : (0 < y)%nat).
  { rewrite Forall_forall in Hpos. apply Hpos.
    eapply list_elem_of_lookup_2. exact Hy. }
  exists y, x. split; [|exact Hsw].
  rewrite (has_shape_nrows _ _ _ Hsw), (has_shape_ncols _ _ _ Hsw Hy0).
  apply has_shape_np_zeros.
Qed.

End init_facts.

(** Built from at least two positive sizes, with a source of normal
    samples that returns arrays of the shape asked for, a network is well
    formed ([len(weights) == len(biases) == len(sizes) - 1], [biases[l]] a
    column of [sizes[l+1]] rows, [weights[l]] of [sizes[l+1]] rows and
    [sizes[l]] columns); its velocities are zeros of the shapes of its
    weights and its tracker is a fresh [LearningRate(patience)]. *)
Theorem init_well_formed {R G : Type} `{Scalar R} `{Random R G}
    (sizes : list nat) (cst : cost_class) (reg : reg_class)
    (patience : Z) (g : G) :
  (forall (r c : nat) (g' : G), has_shape r c (randn r c g').1) ->
  (2 <= length sizes)%nat ->
  Forall (fun x => (0 < x)%nat) sizes ->
  let self := (Network.init sizes cst reg patience g).1 in
  well_formed self /\
  Network.sizes self = sizes /\
  Network.cost self = cst /\ Network.reg self = reg /\
  Network.learning_rate self = LearningRate.init patience /\
  Forall2 same_shape (Network.velocities self) (Network.weights self) /\
  Network.velocities self
  = map (fun w => np_zeros (nrows w) (ncols w)) (Network.weights self).
Proof.
  intros Hrandn Hlen Hpos self.
  destruct (init_run Hrandn sizes cst reg patience g Hlen Hpos)
    as (Hwf & Hs & Hc & Hr & Hlr & Hv & Hz).
  split; [exact Hwf|]. split; [exact Hs|]. split; [exact Hc|].
  split; [exact Hr|]. split; [exact Hlr|]. split; [exact Hv | exact Hz].
Qed.

Lemma still_random_shape (r c : nat) (g : unit) :
  has_shape r c (@randn Z unit still_random r c g).1.
Proof.
  simpl. split; [apply length_replicate|].
  apply Forall_forall. intros row Hrow.
  apply elem_of_replicate in Hrow as [-> _]. apply length_replicate.
Defined.

Lemma init_well_formed_witness :
  well_formed (@Network.init Z Z_scalar unit still_random
                 [2; 3; 1]%nat cross_entropy reg_L2 10 tt).1.
Proof.
  refine (proj1 (@init_well_formed Z unit Z_scalar still_random
                   [2; 3; 1]%nat cross_entropy reg_L2 10 tt _ _ _)).
  - apply still_random_shape.
  - simpl. lia.
  - repeat constructor.
Defined.

(** ** [evaluate] *)

Section evaluate_facts.
Context {R : Type} `{Scalar R}.

Lemma count_matches_bounds (l : list (Z * Z)) (a : Z) :
  a <= foldl Z.add a (map (fun '(x, y) => if decide (x = y) then 1 else 0) l)
    <= a + Z.of_nat (length l).
Proof.
  revert a. induction l as [|[x y] l IH]; intros a; [simpl; lia|].
  simpl. specialize (IH (a + (if decide (x = y) then 1 else 0))).
  destruct (decide (x = y)); lia.
Qed.

Lemma np_argmax_nonempty (r c : nat) (A : ndarray R) :
  has_shape r c A -> (0 < r)%nat -> (0 < c)%nat -> exists i, np_argmax A = Ok i.
Proof.
  intros [Hlen Hrows] Hr Hc. unfold np_argmax.
  destruct A as [|row A]; [simpl in Hlen; lia|].
  apply Forall_inv in Hrows.
  destruct row as [|x row]; [simpl in Hrows; lia|].
  simpl. eexists. reflexivity.
Qed.

Lemma evaluate_bounds (self : Network.t R) (td : list (ndarray R * Z)) (c : Z) :
  Network.evaluate self (Some td) = Ok c -> 0 <= c <= Z.of_nat (length td).
Proof.
  unfold Network.evaluate.
  destruct (mapM _ td) as [res|e] eqn:E; [|discriminate]. simpl.
  intros [= <-]. apply mapM_length in E. rewrite <- E.
  apply (count_matches_bounds res 0).
Qed.

Lemma evaluate_run (self : Network.t R) (td : list (ndarray R * Z)) :
  well_formed self ->
  Forall (well_shaped_test self) td ->
  exists c, Network.evaluate self (Some td) = Ok c /\
            0 <= c <= Z.of_nat (length td).
Proof.
  intros Hwf Hall.
  assert (E : exists res,
            mapM (fun '(x, y) =>
                    out ← Network.feedforward self x;
                    i ← np_argmax out;
                    Ok (i, y)) td = Ok res).
  { induction Hall as [|[x y] td Hx _ IH]; [eexists; reflexivity|].
    destruct IH as (res & IH). simpl.
    destruct (feedforward_run self x 1 Hwf ltac:(lia) Hx) as (out & -> & Hso).
    simpl.
    destruct (sizes_lookup self Hwf (length (Network.weights self)))
      as [_ Hp]; [lia|].
    destruct (np_argmax_nonempty _ _ out Hso Hp ltac:(lia)) as (i & ->).
    simpl. rewrite IH. simpl. eexists. reflexivity. }
  destruct E as (res & E).
  assert (Ev : Network.evaluate self (Some td)
               = Ok (foldl Z.add 0
                       (map (fun '(x, y) => if decide (x = y) then 1 else 0) res))).
  { unfold Network.evaluate. rewrite E. reflexivity. }
  eexists. split; [exact Ev|]. eapply evaluate_bounds. exact Ev.
Qed.

End evaluate_facts.

(** When [evaluate] returns, its count lies between 0 and the number of
    test samples; on a well-formed network and test inputs that are
    columns of [sizes[0]] rows it does return. *)
Theorem evaluate_count_bounds {R : Type} `{Scalar R}
    (self : Network.t R) (td : list (ndarray R * Z)) :
  (forall c, Network.evaluate self (Some td) = Ok c ->
             0 <= c <= Z.of_nat (length td)) /\
  (well_formed self ->
   Forall (well_shaped_test self) td ->
   exists c, Network.evaluate self (Some td) = Ok c /\
             0 <= c <= Z.of_nat (length td)).
Proof.
  split.
  - intros c Hc. eapply evaluate_bounds. exact Hc.
  - intros Hwf Hall. destruct (evaluate_run self td Hwf Hall) as (c & Hc & Hb).
    exists c. split; [exact Hc | exact Hb].
Qed.

Lemma evaluate_count_bounds_witness :
  exists c,
    @Network.evaluate Z Z_scalar (example_net reg_L2 10)
       (Some [([[1]; [4]], 0); ([[2]; [5]], 1)]) = Ok c /\
    0 <= c <= 2.
Proof.
  apply (proj2 (@evaluate_count_bounds Z Z_scalar (example_net reg_L2 10)
                  [([[1]; [4]], 0); ([[2]; [5]], 1)])).
  - apply example_net_well_formed.
  - repeat constructor.
Defined.

(** ** A training run on well-shaped data *)

Section SGD_run_facts.
Context {R G : Type} `{Scalar R} `{Random R G}.

Lemma same_frame_refl (s : Network.t R) : same_frame s s.
Proof. repeat split. Qed.

Lemma same_frame_trans (s'' s' s : Network.t R) :
  same_frame s'' s' -> same_frame s' s -> same_frame s'' s.
Proof.
  intros (A1 & A2 & A3 & A4 & A5) (B1 & B2 & B3 & B4 & B5).
  repeat split; congruence.
Qed.

Lemma well_shaped_sample_frame (s' s : Network.t R) (xy : ndarray R * ndarray R) :
  same_frame s' s -> well_shaped_sample s xy -> well_shaped_sample s' xy.
Proof.
  intros (E1 & E2 & _). unfold well_shaped_sample, layer_width.
  rewrite E1, E2. auto.
Qed.

Lemma well_shaped_test_frame (s' s : Network.t R) (xy : ndarray R * Z) :
  same_frame s' s -> well_shaped_test s xy -> well_shaped_test s' xy.
Proof.
  intros (E1 & _). unfold well_shaped_test, layer_width. rewrite E1. auto.
Qed.

Lemma trainable_set_learning_rate (s : Network.t R) (lr : LearningRate.t) :
  trainable s ->
  trainable (Network.set_learning_rate s lr) /\
  same_frame (Network.set_learning_rate s lr) s.
Proof.
  intros (Hwf & Hv & Hr). split; [|repeat split].
  split; [exact Hwf|]. split; [exact Hv | exact Hr].
Qed.

Lemma for_mini_batches_run (eta lmbda : R) (n : Z) (mu : R)
    (batches : list (list (ndarray R * ndarray R))) :
  forall w : world R G,
    trainable (self w) ->
    Forall (fun mb => mb <> [] /\ Forall (well_shaped_sample (self w)) mb) batches ->
    batches = [] \/ n <> 0 ->
    let out := for_mini_batches batches eta lmbda n mu w in
    out.1 = Ok tt /\ trainable (self out.2) /\ same_frame (self out.2) (self w).
Proof.
  induction batches as [|mb rest IH]; intros w Htr Hall Hn.
  - simpl. split; [reflexivity|]. split; [exact Htr | apply same_frame_refl].
  - destruct Hn as [Hn|Hn]; [discriminate|].
    apply Forall_cons_1 in Hall as [[Hne Hmb] Hrest].
    cbn [for_mini_batches]. unfold io_bind at 1.
    unfold do_update_mini_batch, io_bind, get_self, lift, put_self.
    destruct (update_mini_batch_run (self w) mb eta lmbda n mu Htr Hne Hmb Hn)
      as (s' & -> & Htr' & E1 & E2 & E3 & E4 & _ & Fw & _).
    assert (Hfr : same_frame s' (self w)).
    { split; [exact E1|]. split; [apply (Forall2_length _ _ _ Fw)|].
      split; [exact E2|]. split; [exact E3 | exact E4]. }
    destruct (IH {| self := s'; stdout := stdout w; gen := gen w |})
      as (I1 & I2 & I3).
    + exact Htr'.
    + simpl. eapply Forall_impl; [exact Hrest|].
      intros b [Hb1 Hb2]. split; [exact Hb1|].
      eapply Forall_impl; [exact Hb2|].
      intros xy. apply well_shaped_sample_frame. exact Hfr.
    + right. exact Hn.
    + simpl in I3. split; [exact I1|]. split; [exact I2|].
      eapply same_frame_trans; [exact I3 | exact Hfr].
Qed.

Lemma epoch_run (j : nat) (td : list (ndarray R * ndarray R)) (mbs : Z)
    (eta lmbda mu : R) (test : list (ndarray R * Z)) (w : world R G) :
  trainable (self w) ->
  0 < mbs ->
  Forall (well_shaped_sample (self w)) td ->
  Forall (well_shaped_test (self w)) test ->
  exists td' eta' stop w1,
    epoch j td mbs eta lmbda (Z.of_nat (length td)) mu (Some test) w
    = (Ok (td', eta', stop), w1) /\
    trainable (self w1) /\ same_frame (self w1) (self w) /\ td' ≡ₚ td.
Proof.
  intros Htr Hmbs Htd Htest.
  unfold epoch. unfold io_bind at 1. unfold random_shuffle.
  pose proof (shuffle_perm _ td (gen w)) as Hperm.
  destruct (shuffle _ td (gen w)) as [td1 g1]. simpl in Hperm.
  unfold io_bind at 1. unfold lift at 1.
  destruct (proj1 (mini_batches_of_spec td1 mbs) Hmbs)
    as (batches & -> & Hcat & Hnonempty & _).
  unfold io_bind at 1.
  assert (Htd1 : Forall (well_shaped_sample (self w)) td1).
  { rewrite Hperm. exact Htd. }
  destruct (for_mini_batches_run eta lmbda (Z.of_nat (length td)) mu batches
              {| self := self w; stdout := stdout w; gen := g1 |})
    as (Hok & Htr2 & Hfr2).
  { exact Htr. }
  { simpl. rewrite <- Hcat in Htd1. apply Forall_concat in Htd1.
    apply Forall_forall. intros b Hb. split.
    - rewrite Forall_forall in Hnonempty. specialize (Hnonempty b Hb).
      destruct b; [simpl in Hnonempty; lia | discriminate].
    - rewrite Forall_forall in Htd1. apply Htd1. exact Hb. }
  { destruct batches as [|b batches]; [left; reflexivity|]. right.
    apply Forall_inv in Hnonempty.
    assert (length td1 <> 0%nat).
    { rewrite <- Hcat. simpl. rewrite length_app. lia. }
    rewrite <- Hperm. lia. }
  destruct (for_mini_batches batches eta lmbda _ mu _) as [r2 w2].
  simpl in Hok, Htr2, Hfr2. subst r2.
  unfold io_bind at 1. unfold get_self at 1.
  unfold io_bind at 1. unfold lift at 1.
  destruct Htr2 as (Hwf2 & Hv2 & Hr2).
  destruct (evaluate_run (self w2) test Hwf2) as (corrects & -> & _).
  { eapply Forall_impl; [exact Htest|].
    intros xy. apply well_shaped_test_frame. exact Hfr2. }
  cbv beta iota delta [io_bind print do_should_halve get_self put_self io_ret].
  destruct (truthy (Some test)); simpl;
    destruct (LearningRate.should_halve (Network.learning_rate (self w2)) corrects)
      as [h lr'];
    simpl; destruct h; simpl;
    do 4 eexists; (split; [reflexivity|]); simpl;
    (split; [split; [exact Hwf2 | split; [exact Hv2 | exact Hr2]]|]);
    (split; [exact Hfr2 | exact Hperm]).
Qed.

Lemma epochs_loop_run (mbs : Z) (lmbda mu : R) (test : list (ndarray R * Z))
    (js : list nat) :
  forall (td : list (ndarray R * ndarray R)) (eta : R) (w : world R G),
    trainable (self w) ->
    0 < mbs ->
    Forall (well_shaped_sample (self w)) td ->
    Forall (well_shaped_test (self w)) test ->
    let out := epochs_loop js td mbs eta lmbda (Z.of_nat (length td)) mu
                           (Some test) w in
    out.1 = Ok tt /\ trainable (self out.2) /\ same_frame (self out.2) (self w).
Proof.
  induction js as [|j js IH]; intros td eta w Htr Hmbs Htd Htest.
  - simpl. split; [reflexivity|]. split; [exact Htr | apply same_frame_refl].
  - cbn [epochs_loop]. unfold io_bind.
    destruct (epoch_run j td mbs eta lmbda mu test w Htr Hmbs Htd Htest)
      as (td' & eta' & stop & w1 & -> & Htr1 & Hfr1 & Hperm).
    destruct stop.
    + simpl. split; [reflexivity|]. split; [exact Htr1 | exact Hfr1].
    + rewrite <- (Permutation_length Hperm).
      destruct (IH td' eta' w1) as (I1 & I2 & I3).
      * exact Htr1.
      * exact Hmbs.
      * rewrite Hperm. eapply Forall_impl; [exact Htd|].
        intros xy. apply well_shaped_sample_frame. exact Hfr1.
      * eapply Forall_impl; [exact Htest|].
        intros xy. apply well_shaped_test_frame. exact Hfr1.
      * split; [exact I1|]. split; [exact I2|].
        eapply same_frame_trans; [exact I3 | exact Hfr1].
Qed.

End SGD_run_facts.

(** On a trainable network (well formed, velocities of the shapes of the
    weights, L2 or momentum strategy), with a positive mini-batch size,
    training samples that are columns of [sizes[0]] inputs and [sizes[-1]]
    labels and a list of test inputs that are columns of [sizes[0]] rows,
    [SGD] runs to completion: no epoch raises, whatever the shuffles and
    the arithmetic, and the network it leaves is trainable, with its
    sizes, cost and strategy unchanged. *)
Theorem SGD_runs_to_completion {R G : Type} `{Scalar R} `{Random R G}
    (training_data : list (ndarray R * ndarray R)) (epochs : nat)
    (mini_batch_size : Z) (eta lmbda mu : R) (test : list (ndarray R * Z))
    (w : world R G) :
  trainable (self w) ->
  0 < mini_batch_size ->
  Forall (well_shaped_sample (self w)) training_data ->
  Forall (well_shaped_test (self w)) test ->
  let out := SGD training_data epochs mini_batch_size eta lmbda mu (Some test) w in
  out.1 = Ok tt /\ trainable (self out.2) /\ same_frame (self out.2) (self w).
Proof.
  intros Htr Hmbs Htd Htest out. unfold out, SGD.
  destruct (epochs_loop_run mini_batch_size lmbda mu test (seq 0 epochs)
              training_data eta w Htr Hmbs Htd Htest) as (E1 & E2 & E3).
  split; [exact E1|]. split; [exact E2 | exact E3].
Qed.

Lemma SGD_runs_to_completion_witness :
  (@SGD Z unit Z_scalar still_random example_batch 3 1 4 0 0
        (Some [([[1]; [4]], 0)]) (example_world reg_momentum 2)).1 = Ok tt.
Proof.
  refine (proj1 (@SGD_runs_to_completion Z unit Z_scalar still_random
                   example_batch 3 1 4 0 0 [([[1]; [4]], 0)]
                   (example_world reg_momentum 2) _ _ _ _)).
  - apply example_net_trainable.
  - lia.
  - apply example_batch_well_shaped.
  - repeat constructor.
Defined.

(** A mini-batch size of 0 stops [SGD] in its first epoch with
    [ValueError], before any update: the network and the printed lines are
    as they were. *)
Theorem SGD_zero_mini_batch_size {R G : Type} `{Scalar R} `{Random R G}
    (training_data : list (ndarray R * ndarray R)) (epochs : nat)
    (eta lmbda mu : R) (test : option (list (ndarray R * Z))) (w : world R G) :
  let out := SGD training_data (S epochs) 0 eta lmbda mu test w in
  out.1 = Err ValueError /\ self out.2 = self w /\ stdout out.2 = stdout w.
Proof.
  unfold SGD. simpl seq. cbn [epochs_loop]. unfold io_bind at 1.
  unfold epoch, io_bind, random_shuffle, lift.
  destruct (shuffle _ training_data (gen w)) as [td g].
  simpl. repeat split.
Qed.

(** In one run [SGD] never lets the tracker's count of halvings pass 7
    when it was below 7 at the start, and in general never lets it pass
    the larger of 7 and one more than its starting value; the count never
    decreases. *)
Theorem SGD_halvings_bounded {R G : Type} `{Scalar R} `{Random R G}
    (training_data : list (ndarray R * ndarray R)) (epochs : nat)
    (mbs : Z) (eta lmbda mu : R) (test : option (list (ndarray R * Z)))
    (w : world R G) :
  let h0 := LearningRate.num_halves (Network.learning_rate (self w)) in
  let out := SGD training_data epochs mbs eta lmbda mu test w in
  let h := LearningRate.num_halves (Network.learning_rate (self out.2)) in
  h0 <= h <= Z.max 7 (h0 + 1).
Proof.
  intros h0 out h. unfold h, out, SGD.
  destruct (epochs_loop_spec mbs lmbda (Z.of_nat (length training_data)) mu test
              (seq 0 epochs) training_data eta w)
    as (accs & E1 & _ & E3 & _).
  rewrite E1. fold h0.
  set (lr := Network.learning_rate (self w)) in *.
  destruct accs as [|a accs _] using rev_ind.
  { simpl. fold h0. lia. }
  assert (Efeed : (LearningRate.feed lr (accs ++ [a])).2
                  = (LearningRate.should_halve (LearningRate.feed lr accs).2 a).2).
  { rewrite feed_app, feed_cons. reflexivity. }
  rewrite Efeed.
  pose proof (should_halve_record (LearningRate.feed lr accs).2 a) as Hrec.
  cbv zeta in Hrec. destruct Hrec as (_ & _ & _ & Ehalf).
  rewrite Ehalf.
  assert (Hpre : h0 <= LearningRate.num_halves (LearningRate.feed lr accs).2
                 <= Z.max 6 h0).
  { destruct accs as [|b accs].
    - simpl. fold h0. lia.
    - specialize (E3 (length (b :: accs))).
      rewrite length_app in E3. simpl length in E3.
      rewrite take_app_length' in E3 by reflexivity.
      specialize (E3 ltac:(lia)).
      assert (Hmono : forall (l : list Z) (s : LearningRate.t),
                LearningRate.num_halves s
                <= LearningRate.num_halves (LearningRate.feed s l).2).
      { induction l as [|x l IHl]; intros s; [simpl; lia|].
        rewrite feed_cons. simpl snd. specialize (IHl (LearningRate.should_halve s x).2).
        pose proof (should_halve_record s x) as (_ & _ & _ & Ex). cbv zeta in Ex.
        destruct (LearningRate.should_halve s x).1; lia. }
      specialize (Hmono (b :: accs) lr). fold h0 in Hmono. lia. }
  destruct (LearningRate.should_halve (LearningRate.feed lr accs).2 a).1; lia.
Qed.

(** ** Edge cases of the network *)

Section evaluate_more.
Context {R : Type} `{Scalar R}.

Lemma mapM_app_Ok {A B : Type} (f : A -> result B) (l1 l2 : list A)
    (k1 k2 : list B) :
  mapM f l1 = Ok k1 -> mapM f l2 = Ok k2 -> mapM f (l1 ++ l2) = Ok (k1 ++ k2).
Proof.
  revert k1. induction l1 as [|x l1 IH]; intros k1 H1 H2.
  - injection H1 as <-. exact H2.
  - simpl in H1 |- *. destruct (f x) as [y|e]; [|discriminate]. simpl in H1 |- *.
    destruct (mapM f l1) as [k1'|e] eqn:E; [|discriminate]. simpl in H1.
    injection H1 as <-. rewrite (IH k1' eq_refl H2). reflexivity.
Qed.

Lemma foldl_add_shift (l : list Z) (a : Z) :
  foldl Z.add a l = a + foldl Z.add 0 l.
Proof.
  revert a. induction l as [|x l IH]; intros a; [simpl; lia|].
  cbn [foldl]. rewrite (IH (a + x)), (IH (0 + x)). lia.
Qed.

End evaluate_more.

(** The count of [evaluate] is additive: on two lists of test samples on
    which it returns, it returns on their concatenation the sum of the
    two counts. *)
Theorem evaluate_app {R : Type} `{Scalar R} (self : Network.t R)
    (td1 td2 : list (ndarray R * Z)) (c1 c2 : Z) :
  Network.evaluate self (Some td1) = Ok c1 ->
  Network.evaluate self (Some td2) = Ok c2 ->
  Network.evaluate self (Some (td1 ++ td2)) = Ok (c1 + c2).
Proof.
  unfold Network.evaluate.
  destruct (mapM _ td1) as [r1|e] eqn:E1; [|discriminate].
  destruct (mapM _ td2) as [r2|e] eqn:E2; [|discriminate].
  simpl. intros [= <-] [= <-].
  rewrite (mapM_app_Ok _ _ _ _ _ E1 E2). simpl.
  rewrite map_app, foldl_app, foldl_add_shift. reflexivity.
Qed.

Lemma evaluate_app_witness :
  @Network.evaluate Z Z_scalar (example_net reg_L2 10)
     (Some ([([[1]; [4]], 0)] ++ [([[2]; [5]], 1)])) = Ok (1 + 0).
Proof.
  apply (@evaluate_app Z Z_scalar (example_net reg_L2 10)
           [([[1]; [4]], 0)] [([[2]; [5]], 1)] 1 0); vm_compute; reflexivity.
Defined.

(** A network without layers (no weights or no biases, as built from a
    single size): [feedforward] returns its input, and [backprop] raises
    [IndexError] when it reads the last element of the empty [zs]. *)
Theorem network_without_layers {R : Type} `{Scalar R}
    (self : Network.t R) (X Y : ndarray R) :
  Network.weights self = [] \/ Network.biases self = [] ->
  Network.feedforward self X = Ok X /\
  Network.backprop self X Y = Err IndexError.
Proof.
  intros Hempty.
  assert (E : zip (Network.biases self) (Network.weights self) = []).
  { destruct Hempty as [-> | ->]; [|reflexivity].
    destruct (Network.biases self); reflexivity. }
  unfold Network.feedforward, Network.backprop. rewrite E. split; reflexivity.
Qed.

Lemma network_without_layers_witness :
  @Network.backprop Z Z_scalar
     (@Network.init Z Z_scalar unit still_random [3]%nat cross_entropy reg_L2 10 tt).1
     [[1]; [2]; [3]] [[1]; [0]; [0]]
  = Err IndexError.
Proof.
  refine (proj2 (@network_without_layers Z Z_scalar _ [[1]; [2]; [3]]
                   [[1]; [0]; [0]] _)).
  left. reflexivity.
Defined.

(** ** Training against an empty test list *)

Section empty_test_facts.

(** A tracker whose best accuracy is not negative, fed zeros. *)
Lemma feed_zeros (i : nat) : forall s : LearningRate.t,
  0 <= LearningRate.best_accuracy s ->
  0 <= LearningRate.counter s < LearningRate.patience s ->
  let s' := (LearningRate.feed s (replicate i 0)).2 in
  LearningRate.num_halves s'
  = LearningRate.num_halves s
    + (LearningRate.counter s + Z.of_nat i) / LearningRate.patience s /\
  LearningRate.accuracies s' = LearningRate.accuracies s ++ replicate i 0.
Proof.
  induction i as [|i IH]; intros s Hb Hc.
  - simpl. rewrite Z.add_0_r, Z.div_small, app_nil_r by lia. split; [lia | reflexivity].
  - cbn [replicate]. rewrite feed_cons. cbv zeta. cbn [snd].
    rewrite (should_halve_plateau s 0 Hb).
    case_bool_decide as Hreach; cbn [snd].
    + match goal with |- context [LearningRate.feed ?s1 _] =>
        destruct (IH s1) as [I1 I2]; [simpl; lia | simpl; lia |] end.
      cbv zeta in I1, I2. rewrite I1, I2.
      cbn [LearningRate.num_halves LearningRate.counter LearningRate.patience
           LearningRate.accuracies].
      split; [|rewrite <- app_assoc; reflexivity].
      replace (LearningRate.counter s + Z.of_nat (S i))
        with (Z.of_nat i + 1 * LearningRate.patience s) by lia.
      rewrite Z.div_add by lia. rewrite Z.add_0_l. lia.
    + match goal with |- context [LearningRate.feed ?s1 _] =>
        destruct (IH s1) as [I1 I2]; [simpl; lia | simpl; lia |] end.
      cbv zeta in I1, I2. rewrite I1, I2.
      cbn [LearningRate.num_halves LearningRate.counter LearningRate.patience
           LearningRate.accuracies].
      split; [|rewrite <- app_assoc; reflexivity].
      f_equal. f_equal. lia.
Qed.

Context {R G : Type} `{Scalar R} `{Random R G}.

(** The epoch loop against an empty test list feeds the tracker zeros. *)
Lemma epochs_loop_empty_test (mbs : Z) (lmbda : R) (n : Z) (mu : R) (js : list nat) :
  forall (td : list (ndarray R * ndarray R)) (eta : R) (w : world R G),
    let lr := Network.learning_rate (self w) in
    let out := epochs_loop js td mbs eta lmbda n mu (Some []) w in
    exists k : nat,
      Network.learning_rate (self out.2) = (LearningRate.feed lr (replicate k 0)).2 /\
      (k <= length js)%nat /\
      (forall i, (0 < i < k)%nat ->
         LearningRate.num_halves (LearningRate.feed lr (replicate i 0)).2 < 7) /\
      (out.1 = Ok tt ->
         k = length js \/
         LearningRate.num_halves (Network.learning_rate (self out.2)) >= 7).
Proof.
  induction js as [|j js IH]; intros td eta w lr out.
  { exists 0%nat. simpl. split; [reflexivity|]. split; [lia|].
    split; [intros i Hi; lia | auto]. }
  subst out. cbn [epochs_loop]. unfold io_bind.
  pose proof (epoch_spec j td mbs eta lmbda n mu (Some []) w) as He.
  destruct (epoch j td mbs eta lmbda n mu (Some []) w)
    as [[[[td' eta'] stop]|e] w1].
  2:{ destruct He as [E1 _]. exists 0%nat. simpl.
      split; [exact E1|]. split; [lia|].
      split; [intros i Hi; lia | discriminate]. }
  destruct He as (w_mid & c & Ev & _ & Elr & _ & Estop & _).
  simpl in Ev. injection Ev as <-. fold lr in Elr.
  destruct stop.
  - exists 1%nat. cbn [replicate]. rewrite feed_cons. simpl.
    split; [exact Elr|]. split; [lia|]. split; [intros i Hi; lia|].
    intros _. right. symmetry in Estop.
    apply bool_decide_eq_true_1 in Estop. exact Estop.
  - specialize (IH td' eta' w1). cbv zeta in IH.
    destruct IH as (k & I1 & I2 & I3 & I4).
    rewrite Elr in I1, I3.
    exists (S k). cbn [replicate]. rewrite feed_cons. simpl.
    split; [exact I1|]. split; [lia|]. split.
    + intros i Hi. destruct i as [|i]; [lia|].
      cbn [replicate]. rewrite feed_cons. cbn [snd].
      destruct i as [|i].
      * simpl. rewrite <- Elr. symmetry in Estop.
        apply bool_decide_eq_false_1 in Estop. lia.
      * apply I3. lia.
    + intros Hok. destruct (I4 Hok) as [Hl|Hh]; [left; lia | right; exact Hh].
Qed.

End empty_test_facts.

(** Trained against an empty test list, a trainable network with a fresh
    tracker of patience [p > 0] scores 0 at every epoch: [SGD] returns
    after exactly [min(epochs, 7*p)] epochs, the tracker has recorded that
    many zeros, and the learning rate has been halved once every [p]
    epochs. *)
Theorem SGD_empty_test_list {R G : Type} `{Scalar R} `{Random R G}
    (training_data : list (ndarray R * ndarray R)) (epochs : nat)
    (mini_batch_size : Z) (eta lmbda mu : R) (p : Z) (w : world R G) :
  trainable (self w) ->
  Network.learning_rate (self w) = LearningRate.init p ->
  0 < p ->
  0 < mini_batch_size ->
  Forall (well_shaped_sample (self w)) training_data ->
  let out := SGD training_data epochs mini_batch_size eta lmbda mu (Some []) w in
  let k := Nat.min epochs (Z.to_nat (7 * p)) in
  out.1 = Ok tt /\
  LearningRate.accuracies (Network.learning_rate (self out.2)) = replicate k 0 /\
  LearningRate.num_halves (Network.learning_rate (self out.2)) = Z.of_nat k / p.
Proof.
  intros Htr Hlr Hp Hmbs Htd out k.
  destruct (epochs_loop_run mini_batch_size lmbda mu [] (seq 0 epochs)
              training_data eta w Htr Hmbs Htd ltac:(constructor)) as (Hok & _).
  destruct (epochs_loop_empty_test mini_batch_size lmbda
              (Z.of_nat (length training_data)) mu (seq 0 epochs)
              training_data eta w) as (k' & E1 & E2 & E3 & E4).
  fold (SGD training_data epochs mini_batch_size eta lmbda mu (Some []) w) in *.
  fold out in Hok, E1, E4. rewrite Hlr in E1, E3. rewrite length_seq in E2, E4.
  assert (Hz : forall i,
            LearningRate.num_halves
              (LearningRate.feed (LearningRate.init p) (replicate i 0)).2
            = Z.of_nat i / p /\
            LearningRate.accuracies
              (LearningRate.feed (LearningRate.init p) (replicate i 0)).2
            = replicate i 0).
  { intros i. destruct (feed_zeros i (LearningRate.init p)) as [Z1 Z2];
      [simpl; lia | simpl; lia |].
    cbv zeta in Z1, Z2. simpl in Z1, Z2. split; [exact Z1 | exact Z2]. }
  assert (Hk : k' = k).
  { assert (Hle : (k' <= Z.to_nat (7 * p))%nat).
    { destruct k' as [|k']; [lia|]. destruct k' as [|k'']; [lia|].
      specialize (E3 (S k'') ltac:(lia)).
      rewrite (proj1 (Hz (S k''))) in E3.
      destruct (Z_lt_le_dec (Z.of_nat (S k'')) (p * 7)) as [Hlt|Hge]; [lia|].
      apply (Z.div_le_lower_bound _ _ _ Hp) in Hge. lia. }
    destruct (E4 Hok) as [Hlen|Hh]; [unfold k; lia|].
    rewrite E1, (proj1 (Hz k')) in Hh.
    assert (7 * p <= Z.of_nat k').
    { destruct (Z_lt_le_dec (Z.of_nat k') (p * 7)) as [Hlt|Hge]; [|lia].
      apply (Z.div_lt_upper_bound _ _ _ Hp) in Hlt. lia. }
    unfold k. lia. }
  subst k'. split; [exact Hok|].
  rewrite E1. split; [apply Hz | apply Hz].
Qed.

Lemma SGD_empty_test_list_witness :
  LearningRate.num_halves
    (Network.learning_rate
       (self (@SGD Z unit Z_scalar still_random example_batch 5 1 4 0 0
                   (Some []) (example_world reg_momentum 2)).2))
  = 2.
Proof.
  refine (eq_trans (proj2 (proj2
            (@SGD_empty_test_list Z unit Z_scalar still_random
               example_batch 5 1 4 0 0 2 (example_world reg_momentum 2)
               _ _ _ _ _))) _).
  - apply example_net_trainable.
  - reflexivity.
  - lia.
  - lia.
  - apply example_batch_well_shaped.
  - reflexivity.
Defined.

(** ** The schedule of [SGD] *)

Section schedule_facts.
Context {R G : Type} `{Scalar R} `{Random R G}.
Variables (mbs : Z) (lmbda : R) (n : Z) (mu : R).
Variable test : option (list (ndarray R * Z)).

(** The body of the epoch loop is the training part, the evaluation of the
    network it leaves, and the step of the tracker. *)
Lemma epoch_unfold (j : nat) (td : list (ndarray R * ndarray R)) (eta : R)
    (w : world R G) :
  epoch j td mbs eta lmbda n mu test w =
    match train_epoch td mbs eta lmbda n mu w with
    | (Err e, w2) => (Err e, w2)
    | (Ok td', w2) =>
        match Network.evaluate (self w2) test with
        | Err e => (Err e, w2)
        | Ok corrects =>
            let '(halve, lr') :=
              LearningRate.should_halve (Network.learning_rate (self w2)) corrects in
            (Ok (td', next_eta halve eta,
                 bool_decide (LearningRate.num_halves lr' >= 7)),
             after_epoch test j eta w2 corrects halve lr')
        end
    end.
Proof.
  unfold epoch, train_epoch, after_epoch, next_eta, epoch_line.
  cbv beta iota delta
    [io_bind print do_should_halve get_self put_self io_ret lift random_shuffle].
  destruct (shuffle _ td (gen w)) as [td1 g1].
  destruct (mini_batches_of td1 mbs) as [batches|e]; [|reflexivity].
  destruct (for_mini_batches batches eta lmbda n mu _) as [[[]|e] w2];
    [|reflexivity].
  destruct (Network.evaluate (self w2) test) as [corrects|e]; [|reflexivity].
  destruct (truthy test); simpl;
    destruct (LearningRate.should_halve (Network.learning_rate (self w2)) corrects)
      as [halve lr'];
    simpl; destruct halve; simpl; rewrite <- ?app_assoc; reflexivity.
Qed.

(** The training part of an epoch leaves the tracker and the output
    alone. *)
Lemma train_epoch_frame (td : list (ndarray R * ndarray R)) (eta : R)
    (w : world R G) :
  let w2 := (train_epoch td mbs eta lmbda n mu w).2 in
  Network.learning_rate (self w2) = Network.learning_rate (self w) /\
  stdout w2 = stdout w.
Proof.
  unfold train_epoch, io_bind, random_shuffle, lift, io_ret.
  destruct (shuffle _ td (gen w)) as [td1 g1].
  destruct (mini_batches_of td1 mbs) as [batches|e]; [|split; reflexivity].
  pose proof (for_mini_batches_frame batches eta lmbda n mu
                {| self := self w; stdout := stdout w; gen := g1 |}) as Hf.
  destruct (for_mini_batches batches eta lmbda n mu _) as [[[]|e] w2];
    simpl in Hf |- *; destruct Hf as (E1 & E2 & _); split; assumption.
Qed.

(** The epoch loop follows the schedule. *)
Lemma epochs_loop_schedule (js : list nat) :
  forall (td : list (ndarray R * ndarray R)) (eta : R) (w : world R G),
    exists accs : list Z,
      sgd_schedule mbs lmbda n mu test js td eta w accs
                   (epochs_loop js td mbs eta lmbda n mu test w).
Proof.
  induction js as [|j js IH]; intros td eta w; [exists []; constructor|].
  cbn [epochs_loop]. unfold io_bind. rewrite epoch_unfold.
  destruct (train_epoch td mbs eta lmbda n mu w) as [[td'|e] w2] eqn:Et.
  2:{ exists []. eapply schedule_training_raises. exact Et. }
  destruct (Network.evaluate (self w2) test) as [corrects|e] eqn:Ev.
  2:{ exists []. eapply schedule_evaluate_raises; [exact Et | exact Ev]. }
  destruct (LearningRate.should_halve (Network.learning_rate (self w2)) corrects)
    as [halve lr'] eqn:Eh.
  destruct (decide (LearningRate.num_halves lr' >= 7)) as [Hge|Hlt].
  - rewrite bool_decide_eq_true_2 by exact Hge.
    exists [corrects].
    eapply schedule_bound_reached; [exact Et | exact Ev | exact Eh | exact Hge].
  - rewrite bool_decide_eq_false_2 by exact Hlt.
    destruct (IH td' (next_eta halve eta)
                 (after_epoch test j eta w2 corrects halve lr')) as [accs Hs].
    exists (corrects :: accs).
    eapply schedule_next_epoch;
      [exact Et | exact Ev | exact Eh | lia | exact Hs].
Qed.

(** The schedule leaves no choice: of the accuracies fed, or of the
    outcome. *)
Lemma sgd_schedule_functional (js : list nat)
    (td : list (ndarray R * ndarray R)) (eta : R) (w : world R G)
    (accs1 accs2 : list Z) (out1 out2 : result unit * world R G) :
  sgd_schedule mbs lmbda n mu test js td eta w accs1 out1 ->
  sgd_schedule mbs lmbda n mu test js td eta w accs2 out2 ->
  accs1 = accs2 /\ out1 = out2.
Proof.
  intros H1. revert accs2 out2.
  induction H1 as [ td eta w
                  | j js td eta w e w2 Et
                  | j js td eta w td' w2 e Et Ev
                  | j js td eta w td' w2 corrects halve lr' Et Ev Eh Hge
                  | j js td eta w td' w2 corrects halve lr' accs out Et Ev Eh Hlt
                      Hs IH ];
    intros accs2 out2 H2; inversion H2; subst;
    repeat match goal with
           | E1 : ?x = _, E2 : ?x = _ |- _ =>
               rewrite E1 in E2; inversion E2; subst; clear E2
           end;
    try (split; reflexivity); try lia.
  match goal with Hs2 : sgd_schedule _ _ _ _ _ _ _ _ _ _ _ |- _ =>
    destruct (IH _ _ Hs2) as [-> ->] end.
  split; reflexivity.
Qed.

(** What the schedule implies for a run as a whole. *)
Lemma schedule_run_facts (js : list nat)
    (td : list (ndarray R * ndarray R)) (eta : R) (w : world R G)
    (accs : list Z) (out : result unit * world R G) :
  sgd_schedule mbs lmbda n mu test js td eta w accs out ->
  let lr := Network.learning_rate (self w) in
  Network.learning_rate (self out.2) = (LearningRate.feed lr accs).2 /\
  (length accs <= length js)%nat /\
  (forall k, (0 < k < length accs)%nat ->
     LearningRate.num_halves (LearningRate.feed lr (take k accs)).2 < 7) /\
  (out.1 = Ok tt ->
     length accs = length js \/
     LearningRate.num_halves (Network.learning_rate (self out.2)) >= 7) /\
  (forall e, out.1 = Err e -> (length accs < length js)%nat) /\
  exists new : list (output R),
    stdout out.2 = stdout w ++ new /\
    halved_etas new
    = map (fun i => halvings (S i) eta)
          (seq 0 (count_true (LearningRate.feed lr accs).1)).
Proof.
  intros Hs.
  induction Hs as [ td eta w
                  | j js td eta w e w2 Et
                  | j js td eta w td' w2 e Et Ev
                  | j js td eta w td' w2 corrects halve lr' Et Ev Eh Hge
                  | j js td eta w td' w2 corrects halve lr' accs out Et Ev Eh Hlt
                      Hs IH ];
    intros lr.
  - simpl. split; [reflexivity|]. split; [lia|].
    split; [intros k Hk; lia|]. split; [auto|]. split; [discriminate|].
    exists []. rewrite app_nil_r. split; reflexivity.
  - pose proof (train_epoch_frame td eta w) as Hf. rewrite Et in Hf.
    destruct Hf as [F1 F2]. simpl in F1, F2 |- *.
    split; [exact F1|]. split; [lia|].
    split; [intros k Hk; lia|]. split; [discriminate|]. split; [intros; lia|].
    exists []. rewrite app_nil_r. split; [exact F2 | reflexivity].
  - pose proof (train_epoch_frame td eta w) as Hf. rewrite Et in Hf.
    destruct Hf as [F1 F2]. simpl in F1, F2 |- *.
    split; [exact F1|]. split; [lia|].
    split; [intros k Hk; lia|]. split; [discriminate|]. split; [intros; lia|].
    exists []. rewrite app_nil_r. split; [exact F2 | reflexivity].
  - pose proof (train_epoch_frame td eta w) as Hf. rewrite Et in Hf.
    destruct Hf as [F1 F2]. simpl in F1, F2.
    fold lr in F1. rewrite F1 in Eh.
    rewrite feed_cons. rewrite Eh. simpl.
    split; [reflexivity|]. split; [lia|].
    split; [intros k Hk; lia|]. split; [intros _; right; exact Hge|].
    split; [discriminate|].
    eexists. rewrite F2. split; [reflexivity|].
    rewrite count_true_cons. unfold epoch_line, next_eta.
    destruct (truthy test), halve; reflexivity.
  - pose proof (train_epoch_frame td eta w) as Hf. rewrite Et in Hf.
    destruct Hf as [F1 F2]. simpl in F1, F2.
    fold lr in F1. rewrite F1 in Eh.
    cbv zeta in IH. simpl in IH.
    destruct IH as (I1 & I2 & I3 & I4 & I5 & new2 & I6 & I7).
    rewrite feed_cons. rewrite Eh. simpl.
    split; [exact I1|]. split; [lia|]. split; [|split; [|split]].
    + intros k Hk. destruct k as [|k]; [lia|].
      change (take (S k) (corrects :: accs)) with (corrects :: take k accs).
      rewrite feed_cons. rewrite Eh. simpl.
      destruct k as [|k]; [simpl; exact Hlt|].
      apply I3. lia.
    + intros Hok. destruct (I4 Hok) as [Hl|Hh]; [left; lia | right; exact Hh].
    + intros e He. specialize (I5 e He). lia.
    + eexists. rewrite I6, F2, <- app_assoc. split; [reflexivity|].
      rewrite halved_etas_app, I7, count_true_cons.
      unfold epoch_line, next_eta.
      destruct (truthy test), halve; simpl; try reflexivity;
        f_equal; rewrite <- fmap_S_seq, <- list_fmap_compose;
        apply list_fmap_ext; intros i x _; simpl;
        apply (halvings_shift (S x) eta).
Qed.

End schedule_facts.

(** Claim C5: every run of [SGD] follows the schedule [sgd_schedule], and
    the schedule leaves no choice of the accuracies fed or of the outcome.
    After the mini-batch updates of each epoch the network they leave is
    evaluated on the test data and that accuracy is fed to the tracker,
    which the updates have left alone; the learning rate passed to the
    next epoch is [eta / 2] if the tracker answered [True] and [eta]
    otherwise; the run ends, whatever epochs remain, as soon as the
    tracker's count of halvings is at least 7; and an exception of the
    updates or of the evaluation ends the run with the tracker not fed.
    Consequently, with [accs] the accuracies the run feeds: the tracker
    at the end is the tracker at the start fed [accs], and its count of
    halvings has grown by the number of [True] answers; there are at most
    [epochs] accuracies, and fewer if the run raises; no epoch starts
    after one that left the count of halvings at 7 or more; a run that
    returns after fewer epochs than asked for stopped on that bound; and
    the learning rates printed are the successive halvings of [eta], one
    for each [True] answer. *)
Theorem SGD_halving_schedule {R G : Type} `{Scalar R} `{Random R G}
    (training_data : list (ndarray R * ndarray R)) (epochs : nat)
    (mbs : Z) (eta lmbda mu : R) (test : option (list (ndarray R * Z)))
    (w : world R G) :
  let lr := Network.learning_rate (self w) in
  let n := Z.of_nat (length training_data) in
  let out := SGD training_data epochs mbs eta lmbda mu test w in
  (forall td eta0 n0 (w0 : world R G),
     let w2 := (train_epoch td mbs eta0 lmbda n0 mu w0).2 in
     Network.learning_rate (self w2) = Network.learning_rate (self w0) /\
     stdout w2 = stdout w0) /\
  exists accs : list Z,
    sgd_schedule mbs lmbda n mu test (seq 0 epochs) training_data eta w
                 accs out /\
    (forall accs' out',
       sgd_schedule mbs lmbda n mu test (seq 0 epochs) training_data eta w
                    accs' out' ->
       accs' = accs /\ out' = out) /\
    Network.learning_rate (self out.2) = (LearningRate.feed lr accs).2 /\
    LearningRate.num_halves (Network.learning_rate (self out.2))
    = LearningRate.num_halves lr
      + Z.of_nat (count_true (LearningRate.feed lr accs).1) /\
    (length accs <= epochs)%nat /\
    (forall k, (0 < k < length accs)%nat ->
       LearningRate.num_halves (LearningRate.feed lr (take k accs)).2 < 7) /\
    (out.1 = Ok tt ->
       length accs = epochs \/
       LearningRate.num_halves (Network.learning_rate (self out.2)) >= 7) /\
    (forall e, out.1 = Err e -> (length accs < epochs)%nat) /\
    exists new : list (output R),
      stdout out.2 = stdout w ++ new /\
      halved_etas new
      = map (fun i => halvings (S i) eta)
            (seq 0 (count_true (LearningRate.feed lr accs).1)).
Proof.
  intros lr n out. subst out. unfold SGD. fold n. split.
  { intros td eta0 n0 w0. apply train_epoch_frame. }
  destruct (epochs_loop_schedule mbs lmbda n mu test (seq 0 epochs)
              training_data eta w) as [accs Hs].
  exists accs. split; [exact Hs|]. split.
  { intros accs' out' Hs'.
    exact (sgd_schedule_functional mbs lmbda n mu test _ _ _ _ _ _ _ _ Hs' Hs). }
  pose proof (schedule_run_facts mbs lmbda n mu test _ _ _ _ _ _ Hs) as Hr.
  cbv zeta in Hr. rewrite length_seq in Hr. fold lr in Hr.
  destruct Hr as (R1 & R2 & R3 & R4 & R5 & R6).
  split; [exact R1|]. split.
  { rewrite R1. apply (feed_records lr accs). }
  split; [exact R2|]. split; [exact R3|]. split; [exact R4|].
  split; [exact R5 | exact R6].
Qed.

(** One epoch against an empty test list from a fresh tracker of patience
    1, derived from the schedule: the accuracy 0 is fed, the tracker
    signals a halve, 256 becomes 128, and the run returns. *)
Lemma SGD_halving_schedule_witness :
  let w0 := example_world reg_L2 1 in
  @SGD Z unit Z_scalar still_random [] 1 1 256 0 0 (Some []) w0
  = (Ok tt,
     {| self := Network.set_learning_rate (example_net reg_L2 1)
                  {| LearningRate.patience := 1; LearningRate.best_accuracy := 0;
                     LearningRate.counter := 0; LearningRate.num_halves := 1;
                     LearningRate.accuracies := [0] |};
        stdout := [EpochComplete 0; LearningHalved 128; NumHalves 1];
        gen := tt |}).
Proof.
  intros w0.
  destruct (@SGD_halving_schedule Z unit Z_scalar still_random
              [] 1 1 256 0 0 (Some []) w0) as (_ & accs & _ & Huniq & _).
  symmetry. apply (Huniq [0]).
  apply (@schedule_next_epoch Z unit Z_scalar still_random 1 0 0 0 (Some [])
           0%nat [] [] 256 w0 [] w0 0 true
           {| LearningRate.patience := 1; LearningRate.best_accuracy := 0;
              LearningRate.counter := 0; LearningRate.num_halves := 1;
              LearningRate.accuracies := [0] |} [] _).
  - reflexivity.
  - reflexivity.
  - reflexivity.
  - simpl. lia.
  - apply schedule_no_epoch_left.
Defined.
